(** * acsuite: frame-based audio trimming -- a shallow embedding

    The development follows [acsuite/__init__.py]: the index normaliser
    [_negative_to_positive], the range validator [_check_ordered], the
    timecode table builder [clip_to_timecodes] behind its [lru_cache], the
    frame-to-timestamp translator [f2ts] and the public entry point
    [eztrim]: its shape handling, the extension and name of its output
    file, and the ffmpeg runs it ends with. *)

From Stdlib Require Import ZArith QArith Qround Qpower Qabs List String Ascii Bool Lia Lqa.
From Stdlib Require Import SpecFloat DecimalString DecimalPos DecimalN Sorted.
Import ListNotations.

Open Scope Z_scope.

(** ** Exceptions and fallible computations *)

(** The Python class of a raised exception. *)
Inductive pyclass :=
| PyValueError
| PyTypeError
| PyIndexError
| PyZeroDivisionError
| PyOverflowError.

(** One constructor per reason for which the code raises.  The first five
    are [raise] statements of the module; [Builtin] covers what the
    interpreter raises on its own ([len] of a scalar, an index out of range,
    a zero denominator, a quotient too large for a float, [float] of a
    malformed line). *)
Inductive exn :=
| OutOfRangeError          (* ValueError: "... out of bounds" *)
| LengthMismatchError      (* ValueError: "lists must be same length" *)
| IllogicalTrimError       (* ValueError: "... not logical" *)
| InvalidPrecisionError    (* ValueError: "the precision ... must be a multiple of 3" *)
| TypeShapeError (c : pyclass) (* TypeError / ValueError of eztrim's shape checks *)
| Builtin (c : pyclass).

Definition class_of (e : exn) : pyclass :=
  match e with
  | OutOfRangeError | LengthMismatchError
  | IllogicalTrimError | InvalidPrecisionError => PyValueError
  | TypeShapeError c | Builtin c => c
  end.

Inductive result (A : Type) :=
| Ok (a : A)
| Raise (e : exn).
Arguments Ok {A} a.
Arguments Raise {A} e.

Definition rbind {A B} (r : result A) (k : A -> result B) : result B :=
  match r with
  | Ok a => k a
  | Raise e => Raise e
  end.

Declare Scope result_scope.
Delimit Scope result_scope with result.
Notation "x <- r ;; k" := (rbind r (fun x => k))
  (at level 100, r at next level, right associativity) : result_scope.
Open Scope result_scope.

Definition raises {A} (r : result A) : Prop :=
  match r with Ok _ => False | Raise _ => True end.

(** ** Python sequences *)

Definition len {A} (l : list A) : Z := Z.of_nat (List.length l).

(** [range(n)]; empty when [n <= 0]. *)
Definition range (n : Z) : list Z := map Z.of_nat (seq 0 (Z.to_nat n)).

(** [l[i]]: a negative index counts from the end, anything outside
    [-len(l) .. len(l)-1] raises IndexError. *)
Definition getitem {A} (l : list A) (i : Z) : result A :=
  let j := if i <? 0 then i + len l else i in
  if j <? 0 then Raise (Builtin PyIndexError)
  else match nth_error l (Z.to_nat j) with
       | Some x => Ok x
       | None => Raise (Builtin PyIndexError)
       end.

(** [all(p(x) for x in xs)]: the generator is consumed lazily, so the first
    false element ends the scan and an exception raised by an element
    escapes only if no earlier element was false. *)
Fixpoint all_gen {A} (p : A -> result bool) (xs : list A) : result bool :=
  match xs with
  | [] => Ok true
  | x :: rest =>
      match p x with
      | Raise e => Raise e
      | Ok false => Ok false
      | Ok true => all_gen p rest
      end
  end.

(** ** Index normaliser: [_negative_to_positive] *)

(** [_Neg2pos_in = Union[List[Optional[int]], Optional[int]]] *)
Inductive _Neg2pos_in :=
| In_int (i : option Z)
| In_list (l : list (option Z))
| In_scalar.   (* a scalar that is neither an int nor None (a float, say) *)

(** [_Neg2pos_out = Union[Tuple[List[int], List[int]], Tuple[int, int]]] *)
Inductive _Neg2pos_out :=
| Out_ints (s e : Z)
| Out_lists (s e : list Z).

(** [i or 0]: None and 0 are falsy, every other int is kept. *)
Definition or0 (i : option Z) : Z :=
  match i with
  | Some z => if z =? 0 then 0 else z
  | None => 0
  end.

(** [len(a)] on an argument of the normaliser. *)
Definition arg_len (a : _Neg2pos_in) : result Z :=
  match a with
  | In_list l => Ok (len l)
  | _ => Raise (Builtin PyTypeError)
  end.

Definition arg_items (a : _Neg2pos_in) : list (option Z) :=
  match a with In_list l => l | _ => [] end.

Definition positive_start (num_frames x : Z) : Z :=
  if x >=? 0 then x else num_frames + x.

Definition positive_end (num_frames y : Z) : Z :=
  if y >? 0 then y else num_frames + y.

Definition _negative_to_positive (num_frames : Z) (a b : _Neg2pos_in)
  : result _Neg2pos_out :=
  match a, b with
  | In_int a, In_int b =>
      (* single_trim *)
      let a := or0 a in
      let b := or0 b in
      if (Z.abs a >? num_frames) || (Z.abs b >? num_frames)
      then Raise OutOfRangeError
      else Ok (Out_ints (positive_start num_frames a) (positive_end num_frames b))
  | _, _ =>
      la <- arg_len a ;;
      lb <- arg_len b ;;
      if negb (la =? lb) then Raise LengthMismatchError
      else
        let real_a := map or0 (arg_items a) in
        let real_b := map or0 (arg_items b) in
        if negb (forallb (fun i => Z.abs i <=? num_frames) real_a
                 && forallb (fun i => Z.abs i <=? num_frames) real_b)
        then Raise OutOfRangeError
        else if forallb (fun i => i >=? 0) real_a && forallb (fun i => i >? 0) real_b
        then Ok (Out_lists real_a real_b)
        else
          let positive_a := map (positive_start num_frames) real_a in
          let positive_b := map (positive_end num_frames) real_b in
          Ok (Out_lists positive_a positive_b)
  end.

(** ** Range validator: [_check_ordered] *)

Definition _check_ordered (starts ends : list Z) : result bool :=
  pairs_ok <- all_gen (fun i => s <- getitem starts i ;;
                                e <- getitem ends i ;;
                                Ok (s <? e))
                      (range (len starts)) ;;
  if negb pairs_ok then Ok false
  else
    gaps_ok <- all_gen (fun i => e <- getitem ends i ;;
                                 s <- getitem starts (i + 1) ;;
                                 Ok (e <? s))
                       (range (len starts - 1)) ;;
    if negb gaps_ok then Ok false
    else Ok true.

(** ** Exact rationals: [fractions.Fraction] *)

(** [Fraction.__round__] with no digits: floor and remainder of numerator by
    denominator, ties go to the even neighbour. *)
Definition round_fraction (x : Q) : Z :=
  let floor := Qnum x / Zpos (Qden x) in
  let remainder := Qnum x mod Zpos (Qden x) in
  if remainder * 2 <? Zpos (Qden x) then floor
  else if remainder * 2 >? Zpos (Qden x) then floor + 1
  else if Z.even floor then floor
  else floor + 1.

(** [Fraction(numerator, denominator)] *)
Definition Fraction (numerator denominator : Z) : result Q :=
  match denominator with
  | Z0 => Raise (Builtin PyZeroDivisionError)
  | Zpos d => Ok (Qred (numerator # d))
  | Zneg d => Ok (Qred ((- numerator) # d))
  end.

(** ** Floats: IEEE 754 binary64, as Python's [float] *)

Definition float : Set := spec_float.

Definition prec : Z := 53.
Definition emax : Z := 1024.

Definition pow2 (e : Z) : Q := Qpower 2 e.

(** Exact value of a finite float. *)
Definition SF2Q (x : float) : Q :=
  match x with
  | S754_finite s m e => (if s then - inject_Z (Zpos m) else inject_Z (Zpos m)) * pow2 e
  | _ => 0
  end.

Definition is_finite (x : float) : bool :=
  match x with
  | S754_zero _ | S754_finite _ _ _ => true
  | _ => false
  end.

Definition sign_of (x : float) : bool :=
  match x with
  | S754_zero s | S754_infinity s | S754_finite s _ _ => s
  | S754_nan => false
  end.

(** [floor(log2 x)] of a positive rational. *)
Definition ilog2 (x : Q) : Z :=
  let d := Z.log2 (Qnum x) - Z.log2 (Zpos (Qden x)) in
  if Qle_bool (pow2 d) x then d else d - 1.

(** The exponent of the binary64 number nearest to a positive [x]: 53
    significant bits, never below the subnormal exponent -1074. *)
Definition exponent_of (x : Q) : Z := Z.max (ilog2 x - (prec - 1)) (3 - emax - prec).

(** A non-negative rational correctly rounded to binary64 (nearest, ties to
    even) with sign bit [s]; what is too large becomes an infinity. *)
Definition round_to_float (s : bool) (x : Q) : float :=
  if Qnum x <=? 0 then S754_zero s
  else
    let e := exponent_of x in
    let m := round_fraction (x / pow2 e) in
    let '(m, e) := if m =? 2 ^ prec then (2 ^ (prec - 1), e + 1) else (m, e) in
    match m with
    | Zpos p => if e <=? emax - prec then S754_finite s p e else S754_infinity s
    | _ => S754_zero s
    end.

(** [a / b] on ints: the exact quotient correctly rounded. *)
Definition int_true_div (a b : Z) : result float :=
  if b =? 0 then Raise (Builtin PyZeroDivisionError)
  else
    let negate := xorb (a <? 0) (b <? 0) in
    match round_to_float negate (Z.abs a # Z.to_pos (Z.abs b)) with
    | S754_infinity _ => Raise (Builtin PyOverflowError)
    | q => Ok q
    end.

(** [float(x)] of a Fraction is [numerator / denominator]. *)
Definition float_of_Fraction (x : Q) : result float :=
  int_true_div (Qnum x) (Zpos (Qden x)).

(** [float(n)] of a small int, exactly. *)
Definition float_of_int (n : Z) : float := binary_normalize prec emax n 0 false.

Definition is_nonzero (x : float) : bool :=
  match x with S754_zero _ => false | _ => true end.

(** C's [fmod]: the exact remainder, with the sign of [x]. *)
Definition fmod (x y : float) : float :=
  match x, y with
  | S754_nan, _ | _, S754_nan | S754_infinity _, _ | _, S754_zero _ => S754_nan
  | _, S754_infinity _ => x
  | S754_zero _, _ => x
  | S754_finite sx mx ex, S754_finite sy my ey =>
      let e := Z.min ex ey in
      let r := Z.rem (Zpos mx * 2 ^ (ex - e)) (Zpos my * 2 ^ (ey - e)) in
      binary_normalize prec emax (cond_Zopp sx r) e sx
  end.

(** C's [floor]. *)
Definition floor (x : float) : float :=
  match x with
  | S754_finite s m e =>
      if e >=? 0 then x
      else binary_normalize prec emax (cond_Zopp s (Zpos m) / 2 ^ (- e)) 0 s
  | _ => x
  end.

Definition copysign_zero (y : float) : float := S754_zero (sign_of y).

Definition lt_zero (x : float) : bool := SFltb x (S754_zero false).

(** [float_divmod] of CPython's floatobject.c, which [//] and [%] share. *)
Definition float_divmod (vx wx : float) : result (float * float) :=
  if negb (is_nonzero wx) then Raise (Builtin PyZeroDivisionError)
  else
    let mod_ := fmod vx wx in
    let div := SFdiv prec emax (SFsub prec emax vx mod_) wx in
    let '(mod_, div) :=
      if is_nonzero mod_ then
        if negb (Bool.eqb (lt_zero wx) (lt_zero mod_))
        then (SFadd prec emax mod_ wx, SFsub prec emax div (float_of_int 1))
        else (mod_, div)
      else (copysign_zero wx, div) in
    let floordiv :=
      if is_nonzero div then
        let floordiv := floor div in
        match SFcompare (SFsub prec emax div floordiv) (S754_finite false (2 ^ 52) (-53)) with
        | Some Gt => SFadd prec emax floordiv (float_of_int 1)
        | _ => floordiv
        end
      else copysign_zero (SFdiv prec emax vx wx) in
    Ok (floordiv, mod_).

Definition float_floordiv (vx wx : float) : result float :=
  dm <- float_divmod vx wx ;; Ok (fst dm).

Definition float_rem (vx wx : float) : result float :=
  dm <- float_divmod vx wx ;; Ok (snd dm).

(** [round(x)] of a float: the nearest int, ties to even. *)
Definition round_float (x : float) : result Z :=
  match x with
  | S754_nan => Raise (Builtin PyValueError)
  | S754_infinity _ => Raise (Builtin PyOverflowError)
  | _ => Ok (round_fraction (Qred (SF2Q x)))
  end.

(** ** String formatting *)

Open Scope string_scope.

(** Decimal digits of a non-negative int. *)
Definition digits (n : Z) : string := NilZero.string_of_uint (N.to_uint (Z.to_N n)).

Fixpoint zeros (n : nat) : string :=
  match n with
  | O => ""
  | S k => String "0" (zeros k)
  end.

(** Left-pads with zeros up to [width] characters. *)
Definition zfill (width : nat) (s : string) : string :=
  zeros (width - String.length s) ++ s.

(** Sign-aware zero padding: the sign comes first and counts in the width. *)
Definition pad_signed (neg : bool) (width : nat) (body : string) : string :=
  if neg then "-" ++ zfill (width - 1) body else zfill width body.

(** [format(n, '0{width}')] of an int; [width = 0] gives [str(n)]. *)
Definition format_d (width : nat) (n : Z) : string :=
  pad_signed (n <? 0)%Z width (digits (Z.abs n)).

(** [format(x, '0{width}.{precision}f')] of a float: the exact binary value
    correctly rounded to [precision] decimals. *)
Definition format_f (width precision : nat) (x : float) : string :=
  match x with
  | S754_nan => zfill width "nan"
  | S754_infinity s => pad_signed s width "inf"
  | _ =>
      let scale := (10 ^ Z.of_nat precision)%Z in
      let n := round_fraction (Qred (Qabs (SF2Q x) * inject_Z scale)) in
      let body :=
        match precision with
        | O => digits n
        | _ => digits (n / scale)%Z ++ "." ++ zfill precision (digits (n mod scale)%Z)
        end in
      pad_signed (sign_of x) width body
  end.

Close Scope string_scope.

(** ** The clip and the process state *)

(** Frame properties read by the table builder. *)
Record frame := { _DurationNum : Z; _DurationDen : Z }.

(** What the code reads of a [vs.VideoNode].  [node_id] is the identity of
    the object, on which [lru_cache] hashes and compares it. *)
Record VideoNode := {
  node_id : positive;
  num_frames : Z;
  fps : Q;
  frames : list frame
}.

(** A timecodes v2 file, line by line: what [float] makes of each line,
    [None] where it raises ValueError. *)
Definition timecodes_lines : Type := list (option float).

(** Process-wide state: the [lru_cache] of [clip_to_timecodes] (most
    recently used first), the clips whose [frames()] iterator was started,
    what was printed and the warnings issued. *)
Record world := {
  cache : list (positive * list float);
  frames_calls : list positive;
  stdout : list string;
  warnings : list string
}.

Definition empty_world : world :=
  {| cache := []; frames_calls := []; stdout := []; warnings := [] |}.

Definition M (A : Type) : Type := world -> world * result A.

Definition ret {A} (a : A) : M A := fun w => (w, Ok a).

Definition raise {A} (e : exn) : M A := fun w => (w, Raise e).

Definition lift {A} (r : result A) : M A := fun w => (w, r).

Definition bind {A B} (m : M A) (k : A -> M B) : M B :=
  fun w =>
    match m w with
    | (w', Ok a) => k a w'
    | (w', Raise e) => (w', Raise e)
    end.

Declare Scope M_scope.
Delimit Scope M_scope with M.
Notation "x <~ m ;; k" := (bind m (fun x => k))
  (at level 100, m at next level, right associativity) : M_scope.
Open Scope M_scope.

Definition print (line : string) : M unit :=
  fun w => ({| cache := cache w; frames_calls := frames_calls w;
               stdout := stdout w ++ [line]; warnings := warnings w |}, Ok tt).

Definition warn (message : string) : M unit :=
  fun w => ({| cache := cache w; frames_calls := frames_calls w;
               stdout := stdout w; warnings := warnings w ++ [message] |}, Ok tt).

Definition call_frames (src_clip : VideoNode) : M (list frame) :=
  fun w => ({| cache := cache w; frames_calls := frames_calls w ++ [node_id src_clip];
               stdout := stdout w; warnings := warnings w |}, Ok (frames src_clip)).

Definition set_cache (c : list (positive * list float)) : M unit :=
  fun w => ({| cache := c; frames_calls := frames_calls w;
               stdout := stdout w; warnings := warnings w |}, Ok tt).

Definition get_cache : M (list (positive * list float)) :=
  fun w => (w, Ok (cache w)).

Fixpoint mapM {A B} (f : A -> M B) (l : list A) : M (list B) :=
  match l with
  | [] => ret []
  | x :: rest => y <~ f x ;; ys <~ mapM f rest ;; ret (y :: ys)
  end.

Fixpoint map_result {A B} (f : A -> result B) (l : list A) : result (list B) :=
  match l with
  | [] => Ok []
  | x :: rest => y <- f x ;; ys <- map_result f rest ;; Ok (y :: ys)
  end.

(** ** Timecode table builder: [clip_to_timecodes] *)

(** [collections.deque(init, maxlen)]: keeps the last [maxlen] items. *)
Definition deque_new {A} (init : list A) (maxlen : Z) : result (list A) :=
  if maxlen <? 0 then Raise (Builtin PyValueError)
  else Ok (skipn (List.length init - Z.to_nat maxlen) init).

(** [d.append(x)] on a deque bounded by [maxlen]: a full deque drops its
    leftmost item. *)
Definition deque_append {A} (maxlen : Z) (d : list A) (x : A) : list A :=
  let d' := (d ++ [x])%list in
  if len d' >? maxlen then tl d' else d'.

Definition progress_line (percentage_done : Z) : string :=
  ("Finding timecodes for variable-framerate clip: "
     ++ format_d 0 percentage_done ++ "% done")%string.

(** [round(100 * len(timecodes) / src_clip.num_frames)] *)
Definition percentage (n_frames table_len : Z) : result Z :=
  q <- int_true_div (100 * table_len) n_frames ;;
  round_float q.

(** One iteration of the loop up to the test that decides whether to print:
    the new [curr_time], the new table and [percentage_done]. *)
Definition timecodes_step (n_frames : Z) (fr : frame)
           (timecodes : list float) (curr_time : Q)
  : result (Q * list float * Z) :=
  d <- Fraction (_DurationNum fr) (_DurationDen fr) ;;
  let curr_time := Qred (curr_time + d) in
  x <- float_of_Fraction curr_time ;;
  let timecodes := deque_append (n_frames + 1) timecodes x in
  percentage_done <- percentage n_frames (len timecodes) ;;
  Ok (curr_time, timecodes, percentage_done).

(** The [for] loop; the lines it prints come back in order, also when an
    iteration raises. *)
Fixpoint timecodes_loop (n_frames : Z) (frs : list frame)
         (timecodes : list float) (curr_time : Q) (init_percentage : Z)
  : list string * result (list float) :=
  match frs with
  | [] => ([], Ok timecodes)
  | fr :: rest =>
      match timecodes_step n_frames fr timecodes curr_time with
      | Raise e => ([], Raise e)
      | Ok (curr_time, timecodes, percentage_done) =>
          if (percentage_done mod 10 =? 0) && negb (percentage_done =? init_percentage)
          then
            let '(out, r) :=
              timecodes_loop n_frames rest timecodes curr_time percentage_done in
            (progress_line percentage_done :: out, r)
          else timecodes_loop n_frames rest timecodes curr_time init_percentage
      end
  end.

Fixpoint print_all (lines : list string) : M unit :=
  match lines with
  | [] => ret tt
  | l :: rest => _ <~ print l ;; print_all rest
  end.

(** The body of [clip_to_timecodes], without the cache. *)
Definition build_timecodes (src_clip : VideoNode) : M (list float) :=
  timecodes <~ lift (deque_new [S754_zero false] (num_frames src_clip + 1)) ;;
  frs <~ call_frames src_clip ;;
  let '(out, r) := timecodes_loop (num_frames src_clip) frs timecodes 0 0 in
  _ <~ print_all out ;;
  lift r.

(** [functools.lru_cache] used bare: [maxsize] is 128. *)
Definition lru_maxsize : nat := 128.

Fixpoint cache_find {V} (k : positive) (c : list (positive * V)) : option V :=
  match c with
  | [] => None
  | (k', v) :: rest => if Pos.eqb k' k then Some v else cache_find k rest
  end.

Definition cache_remove {V} (k : positive) (c : list (positive * V))
  : list (positive * V) :=
  filter (fun kv => negb (Pos.eqb (fst kv) k)) c.

(** A hit moves the entry to the front; a miss runs the body and, when it
    returns, stores the result in front and drops what exceeds [maxsize]
    from the least recently used end.  A body that raises stores nothing. *)
Definition clip_to_timecodes (src_clip : VideoNode) : M (list float) :=
  let key := node_id src_clip in
  c <~ get_cache ;;
  match cache_find key c with
  | Some timecodes =>
      _ <~ set_cache ((key, timecodes) :: cache_remove key c) ;;
      ret timecodes
  | None =>
      timecodes <~ build_timecodes src_clip ;;
      c <~ get_cache ;;
      _ <~ set_cache (firstn lru_maxsize ((key, timecodes) :: c)) ;;
      ret timecodes
  end.

(** ** Frame-to-timestamp translator: [f2ts] *)

(** [h, m, s] of a number of seconds: [m = s // 60; s %= 60; h = m // 60;
    m %= 60]. *)
Definition split_hms (s : float) : result (float * float * float) :=
  let sixty := float_of_int 60 in
  m <- float_floordiv s sixty ;;
  s <- float_rem s sixty ;;
  h <- float_floordiv m sixty ;;
  m <- float_rem m sixty ;;
  Ok (h, m, s).

(** The four f-strings; a precision outside 0, 3, 6, 9 never gets here. *)
Definition format_timestamp (precision : Z) (h m s : float) : result string :=
  let hm := (format_f 2 0 h ++ ":" ++ format_f 2 0 m ++ ":")%string in
  if precision =? 0 then r <- round_float s ;; Ok (hm ++ format_d 2 r)%string
  else if precision =? 3 then Ok (hm ++ format_f 6 3 s)%string
  else if precision =? 6 then Ok (hm ++ format_f 9 6 s)%string
  else Ok (hm ++ format_f 12 9 s)%string.

(** The constant-frame-rate branch: [t = round(10 ** 9 * f * fps ** -1)],
    an int, then [s = t / 10 ** 9]. *)
Definition cfr_nanoseconds (f : Z) (rate : Q) : Z :=
  round_fraction (Qred (inject_Z (10 ^ 9 * f) * / rate)).

Definition cfr_seconds (f : Z) (rate : Q) : result float :=
  int_true_div (cfr_nanoseconds f rate) (10 ^ 9).

(** [[float(x)/1000 for x in open(timecodes_file).read().splitlines()[1:]]] *)
Definition read_timecodes (lines : timecodes_lines) : result (list float) :=
  map_result (fun x => match x with
                       | Some v => Ok (SFdiv prec emax v (float_of_int 1000))
                       | None => Raise (Builtin PyValueError)
                       end)
             (tl lines).

(** The seconds of frame [f], by one of three strategies: arithmetic on a
    defined frame rate, the timecodes file when there is one, the table
    built from the clip otherwise. *)
Definition frame_seconds (f : Z) (timecodes_file : option timecodes_lines)
           (src_clip : VideoNode) : M float :=
  if negb (Qeq_bool (fps src_clip) 0)
  then lift (cfr_seconds f (fps src_clip))
  else match timecodes_file with
       | Some lines =>
           lift (timecodes <- read_timecodes lines ;; getitem timecodes f)
       | None =>
           timecodes <~ clip_to_timecodes src_clip ;;
           lift (getitem timecodes f)
       end.

Definition f2ts (f : Z) (precision : Z) (timecodes_file : option timecodes_lines)
           (src_clip : VideoNode) : M string :=
  if negb (existsb (Z.eqb precision) [0; 3; 6; 9]) then raise InvalidPrecisionError
  else
    s <~ frame_seconds f timecodes_file src_clip ;;
    lift (hms <- split_hms s ;;
          let '(h, m, s) := hms in
          format_timestamp precision h m s).

(** ** The public entry point: [eztrim] *)

(** An element of a trim tuple: an int or None, or a scalar of another type
    (a float, say), which has no [len]. *)
Inductive elem :=
| E_int (v : option Z)
| E_scalar.

(** An item of a list of trims: a tuple, or anything else. *)
Inductive item :=
| I_tuple (t : list elem)
| I_other.

(** The [trims] argument: a tuple, a list, or anything else. *)
Inductive trims_arg :=
| T_tuple (t : list elem)
| T_list (l : list item)
| T_other.

(** The dict returned in debug mode; ['s'] and ['e'] are two ints for a
    single trim and two lists for a batch. *)
Record debug_dict := {
  d_s_e : _Neg2pos_out;
  d_cut_ts_s : list string;
  d_cut_ts_e : list string
}.

Definition arg_of_elem (x : elem) : _Neg2pos_in :=
  match x with
  | E_int v => In_int v
  | E_scalar => In_scalar
  end.

(** The checks made on each trim of a list (lines 156-163): a tuple, of two
    elements, each an int or None. *)
Definition check_trim (trim : item) : result (option Z * option Z) :=
  match trim with
  | I_other => Raise (TypeShapeError PyTypeError)
  | I_tuple [x; y] =>
      match x, y with
      | E_int a, E_int b => Ok (a, b)
      | _, _ => Raise (TypeShapeError PyValueError)
      end
  | I_tuple _ => Raise (TypeShapeError PyValueError)
  end.

(** What is left of [trims] after the error checking. *)
Inductive checked_trims :=
| Single (t : list elem)
| Batch (l : list (option Z * option Z)).

Definition one_tuple_warning : string :=
  ("eztrim: using a list of one 2-tuple is not recommended; "
   ++ "for a single trim, directly use a tuple: `trims=(5,-2)` instead of `trims=[(5,-2)]`")%string.

Definition check_trims (trims : trims_arg) : M checked_trims :=
  match trims with
  | T_other => raise (TypeShapeError PyTypeError)
  | T_list [x] =>
      _ <~ warn one_tuple_warning ;;
      match x with
      | I_tuple t => ret (Single t)
      | I_other => raise (TypeShapeError PyValueError)
      end
  | T_list l => l' <~ lift (map_result check_trim l) ;; ret (Batch l')
  | T_tuple t => ret (Single t)
  end.

(** [if isinstance(trims, tuple): if len(trims) != 2: raise ValueError] *)
Definition check_arity (trims : checked_trims) : M checked_trims :=
  match trims with
  | Single t =>
      if negb (len t =? 2) then raise (TypeShapeError PyValueError)
      else ret trims
  | Batch _ => ret trims
  end.

(** Lines 170-189 up to the returns: the normalised frames, checked for
    order, and the timestamps of the cuts.  [ts] is [f2ts] with
    [timecodes_file] and [src_clip] fixed, at the default precision 3. *)
Definition cut_timestamps (clip : VideoNode) (timecodes_file : option timecodes_lines)
           (trims : checked_trims) : M (_Neg2pos_out * list string * list string) :=
  let n_frames := num_frames clip in
  let ts := fun f => f2ts f 3 timecodes_file clip in
  match trims with
  | Single t =>
      r <~ lift (_negative_to_positive n_frames
                   (arg_of_elem (nth 0 t E_scalar))
                   (arg_of_elem (nth 1 t E_scalar))) ;;
      match r with
      | Out_ints start end_ =>
          if end_ <=? start then raise IllogicalTrimError
          else
            ts_s <~ ts start ;;
            ts_e <~ ts end_ ;;
            ret (r, [ts_s], [ts_e])
      | Out_lists _ _ => raise (Builtin PyTypeError) (* not reached *)
      end
  | Batch l =>
      r <~ lift (_negative_to_positive n_frames
                   (In_list (map fst l)) (In_list (map snd l))) ;;
      match r with
      | Out_lists starts ends =>
          ordered <~ lift (_check_ordered starts ends) ;;
          if ordered then
            cut_ts_s <~ mapM ts starts ;;
            cut_ts_e <~ mapM ts ends ;;
            ret (r, cut_ts_s, cut_ts_e)
          else raise IllogicalTrimError
      | Out_ints _ _ => raise (Builtin PyTypeError) (* not reached *)
      end
  end.

Section Eztrim.

(** Outside the core: lines 90-142 check [audio_file], [outfile] and
    [ffmpeg_path] and compute what the ffmpeg runs need; lines 191-217 run
    ffmpeg on the cut timestamps. *)
Variable tail_env : Type.
Variable check_files : M tail_env.
Variable run_ffmpeg : tail_env -> list string -> list string -> M unit.

Definition eztrim (clip : VideoNode) (trims : trims_arg)
           (timecodes_file : option timecodes_lines) (debug : bool)
  : M (option debug_dict) :=
  env <~ (if debug then ret None else (x <~ check_files ;; ret (Some x))) ;;
  trims <~ check_trims trims ;;
  trims <~ check_arity trims ;;
  out <~ cut_timestamps clip timecodes_file trims ;;
  let '(r, cut_ts_s, cut_ts_e) := out in
  match env with
  | None => ret (Some {| d_s_e := r; d_cut_ts_s := cut_ts_s; d_cut_ts_e := cut_ts_e |})
  | Some env => _ <~ run_ffmpeg env cut_ts_s cut_ts_e ;; ret None
  end.

End Eztrim.

(** ** Definitions used by the statements below *)

(** An index is within bounds when its absolute value, once None is read
    as 0, does not exceed the frame count. *)
Definition in_bounds (n_frames : Z) (i : option Z) : Prop :=
  Z.abs (or0 i) <= n_frames.

(** The single-trim call of the normaliser. *)
Definition normalize1 (n_frames : Z) (a b : option Z) : result _Neg2pos_out :=
  _negative_to_positive n_frames (In_int a) (In_int b).

(** The batch call of the normaliser. *)
Definition normalize_batch (n_frames : Z) (a b : list (option Z))
  : result _Neg2pos_out :=
  _negative_to_positive n_frames (In_list a) (In_list b).

(** Exact quantities of the rounding to binary64: the integer mantissa a
    positive rational is rounded to, at the exponent chosen for it. *)
Definition mantissa_of (x : Q) : Z := round_fraction (x / pow2 (exponent_of x)).

Definition signed (s : bool) (q : Q) : Q := if s then (- q)%Q else q.

(** Floats compared by value, as [<=] does on finite floats. *)
Definition float_le (x y : float) : Prop := (SF2Q x <= SF2Q y)%Q.

(** The duration a frame contributes to the running total. *)
Definition duration (fr : frame) : Q :=
  match Fraction (_DurationNum fr) (_DurationDen fr) with
  | Ok d => d
  | Raise _ => 0
  end.

(** The values [curr_time] takes, one per frame. *)
Fixpoint running_totals (curr_time : Q) (frs : list frame) : list Q :=
  match frs with
  | [] => []
  | fr :: rest =>
      let curr_time := Qred (curr_time + duration fr) in
      curr_time :: running_totals curr_time rest
  end.

Definition total_duration (frs : list frame) : Q :=
  fold_right (fun fr acc => duration fr + acc)%Q 0%Q frs.

(** A frame whose duration is a non-negative rational. *)
Definition frame_ok (fr : frame) : Prop :=
  _DurationDen fr <> 0 /\ 0 <= _DurationNum fr * _DurationDen fr.

(** A clip of as many frames as it announces, each of non-negative
    duration, whose total duration is in the range of a float (below 2^1023
    seconds). *)
Definition clip_ok (c : VideoNode) : Prop :=
  num_frames c = len (frames c)
  /\ Forall frame_ok (frames c)
  /\ (total_duration (frames c) < pow2 (emax - 1))%Q.

(** The percentages the loop prints, given the one printed last and the
    percentages computed frame after frame. *)
Fixpoint reported (init_percentage : Z) (percentages : list Z) : list Z :=
  match percentages with
  | [] => []
  | p :: rest =>
      if (p mod 10 =? 0) && negb (p =? init_percentage)
      then p :: reported p rest
      else reported init_percentage rest
  end.

(** A clip of [n] frames of 1/24 s each, of variable frame rate. *)
Definition vfr_clip (id : positive) (n : nat) : VideoNode :=
  {| node_id := id; num_frames := Z.of_nat n; fps := 0;
     frames := repeat {| _DurationNum := 1; _DurationDen := 24 |} n |}.

(** A clip at 24000/1001 frames per second. *)
Definition ntsc_clip : VideoNode :=
  {| node_id := 1; num_frames := 100; fps := 24000 # 1001; frames := [] |}.

(** Successive calls of [clip_to_timecodes], whatever each one returns. *)
Definition run_calls (clips : list VideoNode) (w : world) : world :=
  fold_left (fun w c => fst (clip_to_timecodes c w)) clips w.

(** The entry of [key] is still cached, behind entries of pairwise distinct
    keys taken from [seen]. *)
Definition cached_behind (key : positive) (table : list float)
           (seen : list positive) (w : world) : Prop :=
  exists pre post,
    cache w = pre ++ (key, table) :: post
    /\ ~ In key (map fst pre)
    /\ NoDup (map fst pre)
    /\ incl (map fst pre) seen.

(** Structural equality of floats. *)
Definition float_eqb (x y : float) : bool :=
  match x, y with
  | S754_zero s, S754_zero s' => Bool.eqb s s'
  | S754_infinity s, S754_infinity s' => Bool.eqb s s'
  | S754_nan, S754_nan => true
  | S754_finite s m e, S754_finite s' m' e' =>
      Bool.eqb s s' && Pos.eqb m m' && Z.eqb e e'
  | _, _ => false
  end.

(** [a / b] as computed here against the IEEE division of the standard
    library on [float(a)] and [float(b)] (the two agree when both ints are
    exactly representable). *)
Definition agrees_with_SFdiv (a b : Z) : bool :=
  match int_true_div a b with
  | Ok q => float_eqb q (SFdiv prec emax (float_of_int a) (float_of_int b))
  | Raise _ => false
  end.

(** The file checks of [eztrim] followed by the warning about a list of one
    tuple. *)
Definition check_files_then_warn {tail_env} (check_files : M tail_env) : M tail_env :=
  env <~ check_files ;; _ <~ warn one_tuple_warning ;; ret env.

(** A computation that raises nothing but what the interpreter raises. *)
Definition builtin_only {A} (r : result A) : Prop :=
  forall e, r = Raise e -> exists c, e = Builtin c.

(** ** Definitions used by the further properties *)

(** Python's [slice(a, b).indices(n)] at step 1, the slicing that the
    docstring of [eztrim] says the trims follow: an absent start is 0, an
    absent stop is [n], a negative index counts from the end, and what falls
    outside is clamped. *)
Definition slice_index (n i : Z) : Z :=
  if i <? 0 then Z.max (i + n) 0 else Z.min i n.

Definition slice_indices (n : Z) (a b : option Z) : Z * Z :=
  (match a with None => 0 | Some i => slice_index n i end,
   match b with None => n | Some i => slice_index n i end).

(** A cache as [lru_cache] keeps it: one entry per key, at most [maxsize]
    entries. *)
Definition cache_ok {V} (c : list (positive * V)) : Prop :=
  NoDup (map fst c) /\ (List.length c <= lru_maxsize)%nat.

(** The debug-mode call of [eztrim]: no file is checked and ffmpeg is not
    run, whatever they are. *)
Definition eztrim_debug (clip : VideoNode) (trims : trims_arg)
           (timecodes_file : option timecodes_lines) : M (option debug_dict) :=
  eztrim unit (ret tt) (fun _ _ _ => ret tt) clip trims timecodes_file true.

(** The table of the clip is in the cache. *)
Definition is_cached (clip : VideoNode) (w : world) : Prop :=
  cache_find (node_id clip) (cache w) <> None.

(** Since the state [w0] the frames of the clip were iterated at most
    once. *)
Definition iterated_at_most_once (clip : VideoNode) (w0 w : world) : Prop :=
  frames_calls w = frames_calls w0
  \/ frames_calls w = (frames_calls w0 ++ [node_id clip])%list.

(** Since the state [w0] either nothing was iterated, or the frames of the
    clip were iterated once and its table is now cached. *)
Definition once_then_cached (clip : VideoNode) (w0 w : world) : Prop :=
  (frames_calls w = frames_calls w0 /\ (is_cached clip w0 -> is_cached clip w))
  \/ (frames_calls w = (frames_calls w0 ++ [node_id clip])%list /\ is_cached clip w).

(** ** File names: the encoder extensions and the output name *)

Open Scope string_scope.

(** [p.rfind(c)] for a single character: the last index of [c] in [p], -1
    when there is none. *)
Fixpoint rfind_from (c : ascii) (p : string) (i found : Z) : Z :=
  match p with
  | EmptyString => found
  | String a rest => rfind_from c rest (i + 1) (if Ascii.eqb a c then i else found)
  end.

Definition rfind (c : ascii) (p : string) : Z := rfind_from c p 0 (-1).

(** [p[i:j]] for [0 <= i <= j]. *)
Definition slice (p : string) (i j : Z) : string :=
  substring (Z.to_nat i) (Z.to_nat (j - i)) p.

(** [genericpath._splitext(p, sep, altsep, extsep)]: the extension starts
    at the last dot, if that dot comes after the last separator and after a
    character of the file name that is not a dot. *)
Definition _splitext (p : string) (sep : ascii) (altsep : option ascii) (extsep : ascii)
  : string * string :=
  let sepIndex := rfind sep p in
  let sepIndex := match altsep with
                  | Some a => Z.max sepIndex (rfind a p)
                  | None => sepIndex
                  end in
  let dotIndex := rfind extsep p in
  if (dotIndex >? sepIndex)
     && existsb (fun filenameIndex =>
                   negb (String.eqb (slice p filenameIndex (filenameIndex + 1))
                                    (String extsep "")))
                (map (Z.add (sepIndex + 1)) (range (dotIndex - (sepIndex + 1))))
  then (slice p 0 dotIndex, slice p dotIndex (Z.of_nat (String.length p)))
  else (p, "").

(** The flavour of [os.path]: [posixpath] or [ntpath]. *)
Inductive os_path := posixpath | ntpath.

(** [os.path.splitext] on a [str] path. *)
Definition splitext (os : os_path) (p : string) : string * string :=
  match os with
  | posixpath => _splitext p "/" None "."
  | ntpath => _splitext p "\" (Some "/"%char) "."
  end.

(** The set literal of lines 94-111 as Python reads it: with no comma
    between them, ['.oga' '.pcm'] is the one string ['.oga.pcm'], and
    ['w64'] has no dot. *)
Definition ffmpeg_valid_encoder_extensions : list string :=
  [".aac"; ".m4a"; ".adts";
   ".ac3";
   ".alac"; ".caf";
   ".dca"; ".dts";
   ".eac3";
   ".flac";
   ".gsm";
   ".mlp";
   ".mp2"; ".mp3"; ".mpga";
   ".opus"; ".spx"; ".ogg"; ".oga.pcm"; ".raw";
   ".sbc";
   ".thd";
   ".tta";
   ".wav"; "w64";
   ".wma"].

Definition unsupported_warning (audio_file_ext : string) : string :=
  audio_file_ext
  ++ " is not a supported extension by FFmpeg's audio encoders, re-encoding to WAV".

(** Lines 112-117: the extension of the output and the codec arguments. *)
Definition select_codec (audio_file_ext : string) : M (string * list string) :=
  if negb (existsb (String.eqb audio_file_ext) ffmpeg_valid_encoder_extensions)
  then (_ <~ warn (unsupported_warning audio_file_ext) ;; ret (".wav", []))%M
  else ret (audio_file_ext, ["-c:a"; "copy"; "-rf64"; "auto"]).

(** Lines 119-124: the name of the output file. *)
Definition name_outfile (os : os_path) (audio_file_name audio_file_ext : string)
           (outfile : option string) : string :=
  match outfile with
  | None => (audio_file_name ++ "_cut") ++ audio_file_ext
  | Some outfile =>
      if String.eqb (snd (splitext os outfile)) "" then outfile ++ audio_file_ext
      else if negb (String.eqb (snd (splitext os outfile)) audio_file_ext)
           then fst (splitext os outfile) ++ audio_file_ext
           else outfile
  end.

Close Scope string_scope.

(** ** The ffmpeg runs: lines 191-217 of [eztrim] *)

Open Scope string_scope.

(** The calls made to the outside, in program order.  Any of them may
    raise in the outside world; the exception then leaves [eztrim], which
    has no handler, and the calls that follow are not made. *)
Inductive action :=
| Run (args : list string)     (* subprocess.run(args) *)
| Open_w (path : string)       (* open(path, 'w') *)
| Write (text : string)        (* concat_file.write(text) *)
| Close                        (* concat_file.close() *)
| Remove (path : string).      (* os.remove(path) *)

(** How the tail ends, the outside world permitting. *)
Inductive tail_result :=
| Tail_raises (e : exn)        (* the interpreter raises before any call *)
| Tail_concat_exists           (* ValueError: the concat file already exists *)
| Tail_script (acts : list action).

Definition concat_txt : string := "_acsuite_temp_concat.txt".

(** [str(ffmpeg_path)] of a [str] path or of None. *)
Definition str_of_path (ffmpeg_path : option string) : string :=
  match ffmpeg_path with
  | Some p => p
  | None => "None"
  end.

Definition ffmpeg_silence (ffmpeg_path : option string) (quiet : bool) : list string :=
  if quiet then [str_of_path ffmpeg_path; "-hide_banner"; "-loglevel"; "16"]
  else [str_of_path ffmpeg_path; "-hide_banner"].

(** The arguments of one cut. *)
Definition cut_args (silence : list string) (audio_file : string)
           (codec_args : list string) (s e out : string) : list string :=
  (silence ++ ["-i"; audio_file; "-vn"; "-ss"; s; "-to"; e] ++ codec_args ++ [out])%list.

Definition temp_name (ext : string) (key : Z) : string :=
  "_acsuite_temp_output_" ++ digits key ++ ext.

Definition concat_line (outfile_tmp : string) : string :=
  "file " ++ outfile_tmp ++ String (ascii_of_nat 10) "".

(** The [for key, time in enumerate(times)] loop from [key] on: the calls
    it makes and what it appends to [temp_filelist]. *)
Fixpoint cut_loop (silence : list string) (audio_file : string)
         (codec_args : list string) (ext : string) (key : Z)
         (times : list (string * string)) : list action * list string :=
  match times with
  | [] => ([], [])
  | (s, e) :: rest =>
      let outfile_tmp := temp_name ext key in
      let '(acts, temp_filelist) :=
        cut_loop silence audio_file codec_args ext (key + 1) rest in
      (Write (concat_line outfile_tmp)
         :: Run (cut_args silence audio_file codec_args s e outfile_tmp) :: acts,
       outfile_tmp :: temp_filelist)
  end.

(** Lines 191-217.  [concat_exists] is the answer of
    [os.path.isfile('_acsuite_temp_concat.txt')]. *)
Definition eztrim_tail (os : os_path) (ffmpeg_path : option string) (quiet : bool)
           (audio_file outfile : string) (codec_args : list string)
           (concat_exists : bool) (cut_ts_s cut_ts_e : list string) : tail_result :=
  let silence := ffmpeg_silence ffmpeg_path quiet in
  if (len cut_ts_s =? 1)%Z then
    match getitem cut_ts_s 0, getitem cut_ts_e 0 with
    | Ok s, Ok e => Tail_script [Run (cut_args silence audio_file codec_args s e outfile)]
    | Raise e, _ => Tail_raises e
    | _, Raise e => Tail_raises e
    end
  else
    let times := combine cut_ts_s cut_ts_e in
    if concat_exists then Tail_concat_exists
    else
      let '(acts, temp_filelist) :=
        cut_loop silence audio_file codec_args (snd (splitext os outfile)) 0 times in
      Tail_script
        ([Open_w concat_txt]
           ++ acts
           ++ [Close;
               Run (silence ++ ["-f"; "concat"; "-i"; concat_txt; "-c"; "copy"; outfile]);
               Remove concat_txt]
           ++ map Remove temp_filelist)%list.

(** What a script does to files: the file each ffmpeg run writes (its last
    argument), the files removed, the lines written. *)
Definition run_outputs (acts : list action) : list string :=
  flat_map (fun a => match a with Run args => [last args ""] | _ => [] end) acts.

Definition removed_files (acts : list action) : list string :=
  flat_map (fun a => match a with Remove path => [path] | _ => [] end) acts.

Definition written_lines (acts : list action) : list string :=
  flat_map (fun a => match a with Write text => [text] | _ => [] end) acts.

Close Scope string_scope.

(** * Properties *)

(** ** Index normaliser *)

Lemma or0_Some z : or0 (Some z) = z.
Proof.
  unfold or0. destruct (Z.eqb_spec z 0); congruence.
Qed.

Lemma normalize1_eq n_frames a b :
  normalize1 n_frames a b =
  if (Z.abs (or0 a) >? n_frames) || (Z.abs (or0 b) >? n_frames)
  then Raise OutOfRangeError
  else Ok (Out_ints (positive_start n_frames (or0 a)) (positive_end n_frames (or0 b))).
Proof. reflexivity. Qed.

Lemma out_of_bounds_test n_frames a b :
  (Z.abs (or0 a) >? n_frames) || (Z.abs (or0 b) >? n_frames) = false <->
  in_bounds n_frames a /\ in_bounds n_frames b.
Proof.
  unfold in_bounds. rewrite orb_false_iff, !Z.gtb_ltb, !Z.ltb_ge. tauto.
Qed.

(** C1: in single-trim mode, with None read as 0, the normaliser returns
    [a if a >= 0 else N + a] and [b if b > 0 else N + b]: it does so on
    every pair that passes the bounds check, and whatever it returns is that
    pair; hence an end of 0 becomes N, a start of -k (0 < k <= N) becomes
    N - k, and a trim with 0 <= a < b <= N comes back unchanged. *)
Theorem C1_single_trim_rule (N : Z) (a b : option Z) :
  (in_bounds N a -> in_bounds N b ->
   normalize1 N a b =
   Ok (Out_ints (if or0 a >=? 0 then or0 a else N + or0 a)
                (if or0 b >? 0 then or0 b else N + or0 b)))
  /\ (forall s e, normalize1 N a b = Ok (Out_ints s e) ->
        s = (if or0 a >=? 0 then or0 a else N + or0 a)
        /\ e = (if or0 b >? 0 then or0 b else N + or0 b))
  /\ (forall s e, or0 b = 0 -> normalize1 N a b = Ok (Out_ints s e) -> e = N)
  /\ (in_bounds N a -> or0 b = 0 -> exists s, normalize1 N a b = Ok (Out_ints s N))
  /\ (forall k, 0 < k <= N -> a = Some (- k) -> in_bounds N b ->
        exists e, normalize1 N a b = Ok (Out_ints (N - k) e))
  /\ (forall x y, a = Some x -> b = Some y -> 0 <= x -> x < y <= N ->
        normalize1 N a b = Ok (Out_ints x y)).
Proof.
  rewrite normalize1_eq. unfold positive_start, positive_end.
  repeat split.
  - intros Ha Hb.
    rewrite (proj2 (out_of_bounds_test N a b) (conj Ha Hb)). reflexivity.
  - destruct (_ || _); [discriminate | congruence].
  - destruct (_ || _); [discriminate | congruence].
  - intros s e Hb. rewrite Hb. simpl.
    destruct (_ || _); [discriminate |]. intros [= _ <-]. lia.
  - intros Ha Hb. eexists.
    assert (Hin : in_bounds N b).
    { unfold in_bounds in *. rewrite Hb. simpl. lia. }
    rewrite (proj2 (out_of_bounds_test N a b) (conj Ha Hin)).
    rewrite Hb. simpl. do 2 f_equal. lia.
  - intros k Hk -> Hb. eexists.
    assert (Hin : in_bounds N (Some (- k))).
    { unfold in_bounds. rewrite or0_Some. lia. }
    rewrite (proj2 (out_of_bounds_test N _ b) (conj Hin Hb)).
    rewrite or0_Some.
    destruct (Z.geb_spec (- k) 0); [lia |].
    replace (N + - k) with (N - k) by lia. reflexivity.
  - intros x y -> -> Hx Hy.
    assert (Ha : in_bounds N (Some x)) by (unfold in_bounds; rewrite or0_Some; lia).
    assert (Hb : in_bounds N (Some y)) by (unfold in_bounds; rewrite or0_Some; lia).
    rewrite (proj2 (out_of_bounds_test N _ _) (conj Ha Hb)).
    rewrite !or0_Some.
    destruct (Z.geb_spec x 0); [| lia].
    destruct (Z.gtb_spec y 0); [| lia].
    reflexivity.
Qed.

Lemma C1_single_trim_rule_witness :
  normalize1 100 (Some (-10)) None = Ok (Out_ints 90 100)
  /\ normalize1 100 (Some 3) (Some 22) = Ok (Out_ints 3 22).
Proof.
  destruct (C1_single_trim_rule 100 (Some (-10)) None) as (H & _).
  destruct (C1_single_trim_rule 100 (Some 3) (Some 22)) as (_ & _ & _ & _ & _ & H').
  split.
  - apply H; unfold in_bounds; simpl; lia.
  - apply (H' 3 22); (reflexivity || lia).
Defined.

Lemma map_positive_start_id n_frames l :
  forallb (fun i => i >=? 0) l = true -> map (positive_start n_frames) l = l.
Proof.
  induction l as [| x l IH]; simpl; [reflexivity |].
  intros [Hx Hl]%andb_prop. unfold positive_start at 1. rewrite Hx, IH; auto.
Qed.

Lemma map_positive_end_id n_frames l :
  forallb (fun i => i >? 0) l = true -> map (positive_end n_frames) l = l.
Proof.
  induction l as [| x l IH]; simpl; [reflexivity |].
  intros [Hx Hl]%andb_prop. unfold positive_end at 1. rewrite Hx, IH; auto.
Qed.

(** The early return of the batch branch gives what the two comprehensions
    after it would give. *)
Lemma normalize_batch_eq n_frames a b :
  normalize_batch n_frames a b =
  if negb (len a =? len b) then Raise LengthMismatchError
  else if negb (forallb (fun i => Z.abs i <=? n_frames) (map or0 a)
                && forallb (fun i => Z.abs i <=? n_frames) (map or0 b))
  then Raise OutOfRangeError
  else Ok (Out_lists (map (positive_start n_frames) (map or0 a))
                     (map (positive_end n_frames) (map or0 b))).
Proof.
  unfold normalize_batch, _negative_to_positive. simpl.
  destruct (negb (len a =? len b)); [reflexivity |].
  destruct (negb _); [reflexivity |].
  destruct (forallb (fun i => i >=? 0) (map or0 a)) eqn:Ha; simpl; [| reflexivity].
  destruct (forallb (fun i => i >? 0) (map or0 b)) eqn:Hb; [| reflexivity].
  now rewrite map_positive_start_id, map_positive_end_id.
Qed.

Lemma len_eqb_length {A B} (a : list A) (b : list B) :
  (len a =? len b) = true <-> List.length a = List.length b.
Proof. unfold len. rewrite Z.eqb_eq. lia. Qed.

Lemma bounds_forallb n_frames l :
  forallb (fun i => Z.abs i <=? n_frames) (map or0 l) = true <->
  Forall (in_bounds n_frames) l.
Proof.
  rewrite forallb_forall, Forall_forall. unfold in_bounds. split.
  - intros H i Hi. apply Z.leb_le, H, in_map, Hi.
  - intros H z (i & <- & Hi)%in_map_iff. apply Z.leb_le, H, Hi.
Qed.

Lemma bounds_forallb_false n_frames a b :
  forallb (fun i => Z.abs i <=? n_frames) (map or0 a)
  && forallb (fun i => Z.abs i <=? n_frames) (map or0 b) = false <->
  exists i, (In i a \/ In i b) /\ ~ in_bounds n_frames i.
Proof.
  split.
  - intros H. apply andb_false_iff in H.
    assert (Hex : forall l, forallb (fun i => Z.abs i <=? n_frames) (map or0 l) = false ->
                            exists i, In i l /\ ~ in_bounds n_frames i).
    { induction l as [| x l IH]; simpl; [discriminate |].
      intros [Hx | Hl]%andb_false_iff.
      - exists x. split; [now left |]. unfold in_bounds. apply Z.leb_gt in Hx. lia.
      - destruct (IH Hl) as (i & Hi & Hb). exists i. split; [now right | exact Hb]. }
    destruct H as [H | H]; destruct (Hex _ H) as (i & Hi & Hb); exists i; tauto.
  - intros (i & Hi & Hb).
    destruct (forallb _ (map or0 a)) eqn:Ha; [| reflexivity].
    destruct (forallb _ (map or0 b)) eqn:Hb'; [| reflexivity].
    apply bounds_forallb in Ha, Hb'. rewrite Forall_forall in Ha, Hb'.
    destruct Hi as [Hi | Hi]; [destruct (Hb (Ha _ Hi)) | destruct (Hb (Hb' _ Hi))].
Qed.

(** C9: on lists of equal length whose elements are all within bounds, the
    batch call returns, position by position, what the single-trim call
    returns on the pair at that position; and the batch call raises exactly
    when the lengths differ or some element is out of bounds. *)
Theorem C9_batch_is_elementwise (N : Z) (a b : list (option Z)) :
  (List.length a = List.length b ->
   Forall (in_bounds N) a -> Forall (in_bounds N) b ->
   exists starts ends,
     normalize_batch N a b = Ok (Out_lists starts ends)
     /\ List.length starts = List.length a
     /\ List.length ends = List.length b
     /\ forall i x y, nth_error a i = Some x -> nth_error b i = Some y ->
          exists s e, nth_error starts i = Some s /\ nth_error ends i = Some e
                      /\ normalize1 N x y = Ok (Out_ints s e))
  /\ (raises (normalize_batch N a b) <->
      List.length a <> List.length b
      \/ exists i, (In i a \/ In i b) /\ ~ in_bounds N i).
Proof.
  rewrite normalize_batch_eq. split.
  - intros Hlen Ha Hb.
    rewrite (proj2 (len_eqb_length a b) Hlen).
    rewrite (proj2 (bounds_forallb N a) Ha), (proj2 (bounds_forallb N b) Hb). simpl.
    eexists _, _. split; [reflexivity |].
    rewrite !length_map. repeat split.
    intros i x y Hx Hy.
    exists (positive_start N (or0 x)), (positive_end N (or0 y)).
    rewrite !nth_error_map, Hx, Hy. simpl. repeat split.
    rewrite normalize1_eq.
    rewrite Forall_forall in Ha, Hb.
    rewrite (proj2 (out_of_bounds_test N x y)); [reflexivity |].
    split; [eapply Ha | eapply Hb]; eapply nth_error_In; eassumption.
  - destruct (len a =? len b) eqn:Hlen; simpl.
    + apply len_eqb_length in Hlen.
      destruct (_ && _) eqn:Hb; simpl.
      * split; [tauto |]. intros [H | H]; [congruence |].
        apply bounds_forallb_false in H. congruence.
      * apply bounds_forallb_false in Hb. tauto.
    + split; [| tauto]. intros _. left. intros H.
      apply len_eqb_length in H. congruence.
Qed.

Lemma C9_batch_is_elementwise_witness :
  exists starts ends,
    normalize_batch 100 [Some 3; Some (-10); None] [Some 22; Some (-5); Some 0]
    = Ok (Out_lists starts ends)
    /\ nth_error starts 1 = Some 90 /\ nth_error ends 2 = Some 100.
Proof.
  destruct (C9_batch_is_elementwise 100 [Some 3; Some (-10); None]
              [Some 22; Some (-5); Some 0]) as (H & _).
  destruct H as (starts & ends & Heq & _ & _ & _).
  - reflexivity.
  - repeat constructor; unfold in_bounds; simpl; lia.
  - repeat constructor; unfold in_bounds; simpl; lia.
  - exists starts, ends. split; [exact Heq |].
    vm_compute in Heq. injection Heq as <- <-. split; reflexivity.
Defined.

(** C5, as the claim has it for the batch call: an out-of-bounds element
    would always be reported as such.  Lists of different lengths are
    reported as a length mismatch before any bound is looked at. *)
Lemma C5_counterexample :
  ~ (normalize_batch 10 [Some 11] [] = Raise OutOfRangeError <->
     exists i, (In i [Some 11] \/ In i []) /\ ~ in_bounds 10 i)
  /\ normalize_batch 10 [Some 11] [] = Raise LengthMismatchError.
Proof.
  split; [| reflexivity].
  intros [_ H].
  assert (Hraise : normalize_batch 10 [Some 11] [] = Raise OutOfRangeError).
  { apply H. exists (Some 11). split; [left; now left |].
    unfold in_bounds. simpl. lia. }
  discriminate Hraise.
Qed.

(** C5, amended: the single-trim call raises the out-of-bounds error exactly
    when one of its two indices, None read as 0, exceeds N in absolute
    value; the batch call raises it exactly when the two lists have the same
    length and some element does.  [normalize(10, 11, 5)] raises it, and
    indices of absolute value exactly N are accepted. *)
Theorem C5_out_of_range_error (N : Z) :
  (forall a b, normalize1 N a b = Raise OutOfRangeError <->
               ~ in_bounds N a \/ ~ in_bounds N b)
  /\ (forall a b, normalize_batch N a b = Raise OutOfRangeError <->
                  List.length a = List.length b
                  /\ exists i, (In i a \/ In i b) /\ ~ in_bounds N i)
  /\ normalize1 10 (Some 11) (Some 5) = Raise OutOfRangeError
  /\ (forall a b, Z.abs a = N -> Z.abs b = N ->
                  exists s e, normalize1 N (Some a) (Some b) = Ok (Out_ints s e))
  /\ (forall a b, Z.abs a = N -> Z.abs b = N ->
                  exists s e, normalize_batch N [Some a] [Some b] = Ok (Out_lists [s] [e])).
Proof.
  repeat split.
  - rewrite normalize1_eq. destruct (_ || _) eqn:H; [| discriminate].
    intros _. unfold in_bounds.
    apply orb_prop in H. rewrite !Z.gtb_ltb, !Z.ltb_lt in H. lia.
  - rewrite normalize1_eq. intros H.
    destruct (_ || _) eqn:Hb; [reflexivity |].
    apply out_of_bounds_test in Hb. tauto.
  - rewrite normalize_batch_eq in H.
    destruct (len a =? len b) eqn:Hlen; [| discriminate].
    now apply len_eqb_length.
  - rewrite normalize_batch_eq in H.
    destruct (len a =? len b) eqn:Hlen; [| discriminate]. simpl in H.
    destruct (_ && _) eqn:Hb; [discriminate |].
    now apply bounds_forallb_false.
  - intros (Hlen & Hex). rewrite normalize_batch_eq.
    rewrite (proj2 (len_eqb_length a b) Hlen). simpl.
    now rewrite (proj2 (bounds_forallb_false N a b) Hex).
  - intros a b Ha Hb. rewrite normalize1_eq.
    rewrite (proj2 (out_of_bounds_test N (Some a) (Some b))); [eauto |].
    unfold in_bounds. rewrite !or0_Some. lia.
  - intros a b Ha Hb. rewrite normalize_batch_eq.
    change (negb (len [Some a] =? len [Some b])) with false.
    cbn [map forallb]. rewrite !or0_Some.
    destruct (Z.leb_spec (Z.abs a) N); [| lia].
    destruct (Z.leb_spec (Z.abs b) N); [| lia].
    simpl. eauto.
Qed.

(** ** Range validator *)

Lemma getitem_of_nat {A} (l : list A) (n : nat) :
  getitem l (Z.of_nat n) =
  match nth_error l n with
  | Some x => Ok x
  | None => Raise (Builtin PyIndexError)
  end.
Proof.
  assert (H : (Z.of_nat n <? 0) = false) by (apply Z.ltb_ge; lia).
  unfold getitem. cbv zeta. rewrite H, H. now rewrite Nat2Z.id.
Qed.

Lemma all_gen_seq (p : Z -> result bool) (q : nat -> bool) (k start : nat) :
  (forall n, (start <= n < start + k)%nat -> p (Z.of_nat n) = Ok (q n)) ->
  all_gen p (map Z.of_nat (seq start k)) = Ok (forallb q (seq start k)).
Proof.
  revert start. induction k as [| k IH]; intros start H; simpl; [reflexivity |].
  rewrite (H start) by lia.
  destruct (q start); simpl; [| reflexivity].
  apply IH. intros n Hn. apply H. lia.
Qed.

Lemma forallb_seq (q : nat -> bool) (k : nat) :
  forallb q (seq 0 k) = true <-> forall n, (n < k)%nat -> q n = true.
Proof.
  rewrite forallb_forall. split.
  - intros H n Hn. apply H, in_seq. lia.
  - intros H n Hn%in_seq. apply H. lia.
Qed.

Lemma range_len {A} (l : list A) : range (len l) = map Z.of_nat (seq 0 (List.length l)).
Proof. unfold range, len. now rewrite Nat2Z.id. Qed.

Lemma range_len_pred {A} (l : list A) :
  range (len l - 1) = map Z.of_nat (seq 0 (List.length l - 1)).
Proof.
  unfold range, len. f_equal. f_equal. lia.
Qed.

(** On lists of equal length no index is out of range, and the validator
    is the conjunction of its two scans. *)
Lemma check_ordered_eq (starts ends : list Z) :
  List.length starts = List.length ends ->
  _check_ordered starts ends =
  Ok (forallb (fun n => nth n starts 0 <? nth n ends 0) (seq 0 (List.length starts))
      && forallb (fun n => nth n ends 0 <? nth (S n) starts 0)
                 (seq 0 (List.length starts - 1))).
Proof.
  intros Hlen. unfold _check_ordered.
  rewrite range_len, range_len_pred.
  rewrite (all_gen_seq _ (fun n => nth n starts 0 <? nth n ends 0)).
  2:{ intros n Hn. rewrite !getitem_of_nat.
      rewrite (nth_error_nth' starts 0), (nth_error_nth' ends 0) by lia.
      reflexivity. }
  simpl. destruct (forallb _ (seq 0 (List.length starts))); simpl; [| reflexivity].
  rewrite (all_gen_seq _ (fun n => nth n ends 0 <? nth (S n) starts 0)).
  2:{ intros n Hn. replace (Z.of_nat n + 1) with (Z.of_nat (S n)) by lia.
      rewrite !getitem_of_nat.
      rewrite (nth_error_nth' starts 0), (nth_error_nth' ends 0) by lia.
      reflexivity. }
  simpl. now destruct (forallb _ _).
Qed.

(** C2: on two int lists of the same length the validator returns, and it
    returns True exactly when every start is below its end and every end is
    below the next start; touching ranges are rejected. *)
Theorem C2_check_ordered (starts ends : list Z) :
  (List.length starts = List.length ends ->
   exists ordered,
     _check_ordered starts ends = Ok ordered
     /\ (ordered = true <->
         (forall i s e, nth_error starts i = Some s -> nth_error ends i = Some e -> s < e)
         /\ (forall i e s, nth_error ends i = Some e -> nth_error starts (S i) = Some s ->
             e < s)))
  /\ _check_ordered [0] [5] = Ok true
  /\ _check_ordered [0; 5] [5; 10] = Ok false
  /\ _check_ordered [0; 6] [5; 10] = Ok true.
Proof.
  split; [| repeat split].
  intros Hlen. eexists. split; [apply check_ordered_eq, Hlen |].
  rewrite andb_true_iff, !forallb_seq. split.
  - intros [H1 H2]. split.
    + intros i s e Hs He.
      assert (Hi : (i < List.length starts)%nat) by (apply nth_error_Some; congruence).
      specialize (H1 i Hi). apply Z.ltb_lt in H1.
      now rewrite (nth_error_nth _ _ 0 Hs), (nth_error_nth _ _ 0 He) in H1.
    + intros i e s He Hs.
      assert (Hi : (S i < List.length starts)%nat) by (apply nth_error_Some; congruence).
      assert (Hi' : (i < List.length starts - 1)%nat) by lia.
      specialize (H2 i Hi'). apply Z.ltb_lt in H2.
      now rewrite (nth_error_nth _ _ 0 Hs), (nth_error_nth _ _ 0 He) in H2.
  - intros [H1 H2]. split; intros n Hn; apply Z.ltb_lt.
    + apply (H1 n); apply nth_error_nth'; lia.
    + apply (H2 n); apply nth_error_nth'; lia.
Qed.

Lemma C2_check_ordered_witness :
  exists ordered, _check_ordered [3; 23; 48] [22; 40; 49] = Ok ordered.
Proof.
  destruct (C2_check_ordered [3; 23; 48] [22; 40; 49]) as (H & _).
  destruct (H eq_refl) as (ordered & Heq & _).
  exists ordered. exact Heq.
Defined.

(** ** Rounding of exact rationals *)

Lemma round_fraction_spec (x : Q) :
  let r := round_fraction x in
  let n := Qnum x in
  let d := Zpos (Qden x) in
  - d < 2 * d * r - 2 * n < d
  \/ ((2 * d * r - 2 * n = d \/ 2 * d * r - 2 * n = - d) /\ Z.even r = true).
Proof.
  unfold round_fraction. cbv zeta.
  destruct x as [n d]. simpl Qnum. simpl Qden.
  pose proof (Z.div_mod n (Zpos d) ltac:(lia)) as Hdm.
  pose proof (Z.mod_pos_bound n (Zpos d) ltac:(lia)) as Hb.
  set (fl := n / Zpos d) in *. set (rem := n mod Zpos d) in *.
  destruct (Z.ltb_spec (rem * 2) (Zpos d)).
  - left. nia.
  - destruct (Z.gtb_spec (rem * 2) (Zpos d)).
    + left. nia.
    + right. destruct (Z.even fl) eqn:He.
      * split; [right; nia | exact He].
      * split; [left; nia |]. rewrite Z.even_add, He. reflexivity.
Qed.

Lemma round_fraction_mono (x y : Q) :
  (x <= y)%Q -> round_fraction x <= round_fraction y.
Proof.
  intros Hxy. unfold Qle in Hxy.
  pose proof (round_fraction_spec x) as Hx.
  pose proof (round_fraction_spec y) as Hy.
  cbv zeta in Hx, Hy.
  set (r1 := round_fraction x) in *. set (r2 := round_fraction y) in *.
  destruct x as [n1 d1], y as [n2 d2]. cbn [Qnum Qden] in *.
  destruct (Z.le_gt_cases r1 r2) as [| Hgt]; [assumption | exfalso].
  assert (H1 : Zpos d1 * (2 * r1 - 1) <= 2 * n1) by (destruct Hx as [? | [[?|?] ?]]; lia).
  assert (H2 : 2 * n2 <= Zpos d2 * (2 * r2 + 1)) by (destruct Hy as [? | [[?|?] ?]]; lia).
  assert (H3 : Zpos d1 * Zpos d2 * (2 * r1 - 1) <= Zpos d1 * Zpos d2 * (2 * r2 + 1)) by nia.
  assert (H4 : r1 = r2 + 1) by nia.
  assert (E1 : Zpos d1 * (2 * r1 - 1) = 2 * n1) by nia.
  assert (E2 : 2 * n2 = Zpos d2 * (2 * r2 + 1)) by nia.
  destruct Hx as [Hx | [_ Hx]]; [lia |].
  destruct Hy as [Hy | [_ Hy]]; [lia |].
  rewrite H4, Z.even_add, Hy in Hx. discriminate.
Qed.

Lemma round_fraction_proper (x y : Q) :
  (x == y)%Q -> round_fraction x = round_fraction y.
Proof.
  intros H. apply Z.le_antisymm; apply round_fraction_mono; rewrite H; apply Qle_refl.
Qed.

Lemma round_fraction_inject (z : Z) : round_fraction (inject_Z z) = z.
Proof.
  unfold round_fraction, inject_Z. simpl.
  rewrite Z.div_1_r, Z.mod_1_r. reflexivity.
Qed.

Lemma round_fraction_bounds (x : Q) :
  (inject_Z (round_fraction x) - (1#2) <= x <= inject_Z (round_fraction x) + (1#2))%Q.
Proof.
  pose proof (round_fraction_spec x) as H. cbv zeta in H.
  set (r := round_fraction x) in *.
  destruct x as [n d]. cbn [Qnum Qden] in H.
  unfold Qle, Qminus, Qplus, Qopp, inject_Z. cbn [Qnum Qden].
  split; destruct H as [? | [[?|?] ?]]; nia.
Qed.

(** ** Powers of two and binary logarithm *)

Lemma two_neq_0 : ~ (2 == 0)%Q.
Proof. discriminate. Qed.

Lemma pow2_pos e : (0 < pow2 e)%Q.
Proof. apply Qpower_0_lt. reflexivity. Qed.

Lemma pow2_add a b : (pow2 (a + b) == pow2 a * pow2 b)%Q.
Proof. apply Qpower_plus, two_neq_0. Qed.

Lemma pow2_inject z : 0 <= z -> (pow2 z == inject_Z (2 ^ z))%Q.
Proof. intros H. unfold pow2. now rewrite Zpower_Qpower. Qed.

Lemma pow2_le a b : a <= b -> (pow2 a <= pow2 b)%Q.
Proof. intros H. apply Qpower_le_compat_l; [exact H | discriminate]. Qed.

Lemma pow2_lt a b : a < b -> (pow2 a < pow2 b)%Q.
Proof. intros H. apply Qpower_lt_compat_l; [exact H | reflexivity]. Qed.

Lemma pow2_lt_inv a b : (pow2 a < pow2 b)%Q -> a < b.
Proof. intros H. eapply Qpower_lt_compat_l_inv; [exact H | reflexivity]. Qed.

Lemma pow2_succ a : (pow2 (a + 1) == 2 * pow2 a)%Q.
Proof. rewrite pow2_add. change (pow2 1) with 2%Q. ring. Qed.

Lemma Q_as_fraction (x : Q) : (x * inject_Z (Zpos (Qden x)) == inject_Z (Qnum x))%Q.
Proof.
  destruct x as [n d]. unfold Qeq, Qmult, inject_Z. cbn [Qnum Qden]. lia.
Qed.

(** [ilog2] is the integer part of the binary logarithm. *)
Lemma ilog2_spec (x : Q) :
  (0 < x)%Q -> (pow2 (ilog2 x) <= x < pow2 (ilog2 x + 1))%Q.
Proof.
  intros Hx.
  assert (Hn : 0 < Qnum x) by (destruct x; unfold Qlt in Hx; cbn in *; lia).
  pose proof (Z.log2_spec _ Hn) as [Hn1 Hn2].
  pose proof (Z.log2_spec (Zpos (Qden x)) ltac:(lia)) as [Hd1 Hd2].
  pose proof (Z.log2_nonneg (Qnum x)) as Ln.
  pose proof (Z.log2_nonneg (Zpos (Qden x))) as Ld.
  pose proof (Q_as_fraction x) as Hfrac.
  set (ln := Z.log2 (Qnum x)) in *. set (ld := Z.log2 (Zpos (Qden x))) in *.
  set (D := inject_Z (Zpos (Qden x))) in *.
  assert (HD : (0 < D)%Q) by (unfold D, Qlt, inject_Z; cbn; lia).
  assert (Hlow : (pow2 (ln - ld - 1) < x)%Q).
  { apply (Qmult_lt_r _ _ D HD). rewrite Hfrac.
    apply Qlt_le_trans with (pow2 (ln - ld - 1) * pow2 (ld + 1))%Q.
    - apply Qmult_lt_l; [apply pow2_pos |].
      unfold D. rewrite pow2_inject by lia. rewrite <- Zlt_Qlt.
      unfold Z.succ in Hd2. exact Hd2.
    - rewrite <- pow2_add. replace (ln - ld - 1 + (ld + 1)) with ln by lia.
      rewrite pow2_inject by lia. now rewrite <- Zle_Qle. }
  assert (Hhigh : (x < pow2 (ln - ld + 1))%Q).
  { apply (Qmult_lt_r _ _ D HD). rewrite Hfrac.
    apply Qlt_le_trans with (pow2 (ln - ld + 1) * pow2 ld)%Q.
    - rewrite <- pow2_add. replace (ln - ld + 1 + ld) with (ln + 1) by lia.
      rewrite pow2_inject by lia. rewrite <- Zlt_Qlt. exact Hn2.
    - apply Qmult_le_l; [apply pow2_pos |].
      unfold D. rewrite pow2_inject by lia. now rewrite <- Zle_Qle. }
  unfold ilog2. fold ln ld.
  destruct (Qle_bool (pow2 (ln - ld)) x) eqn:Hb.
  - apply Qle_bool_iff in Hb. split; assumption.
  - assert (Hlt : (x < pow2 (ln - ld))%Q).
    { apply Qnot_le_lt. intros H. apply Qle_bool_iff in H. congruence. }
    replace (ln - ld - 1 + 1) with (ln - ld) by lia.
    split; [apply Qlt_le_weak |]; assumption.
Qed.

Lemma ilog2_mono (x y : Q) : (0 < x)%Q -> (x <= y)%Q -> ilog2 x <= ilog2 y.
Proof.
  intros Hx Hxy.
  pose proof (ilog2_spec x Hx) as [Hx1 _].
  pose proof (ilog2_spec y (Qlt_le_trans _ _ _ Hx Hxy)) as [_ Hy2].
  assert (H : (pow2 (ilog2 x) < pow2 (ilog2 y + 1))%Q).
  { eapply Qle_lt_trans; [exact Hx1 |]. eapply Qle_lt_trans; eassumption. }
  apply pow2_lt_inv in H. lia.
Qed.

Lemma ilog2_lt (x : Q) (k : Z) : (0 < x)%Q -> (x < pow2 k)%Q -> ilog2 x < k.
Proof.
  intros Hx Hk. pose proof (ilog2_spec x Hx) as [H _].
  apply pow2_lt_inv. eapply Qle_lt_trans; eassumption.
Qed.

Lemma exponent_of_mono (x y : Q) : (0 < x)%Q -> (x <= y)%Q -> exponent_of x <= exponent_of y.
Proof.
  intros Hx Hxy. pose proof (ilog2_mono x y Hx Hxy). unfold exponent_of. lia.
Qed.

(** ** Correct rounding to binary64 *)

Lemma Qnum_pos (x : Q) : (0 < x)%Q <-> 0 < Qnum x.
Proof. destruct x. unfold Qlt. cbn. lia. Qed.

Lemma scaled_lt (x : Q) :
  (0 < x)%Q -> (0 < x / pow2 (exponent_of x) < inject_Z (2 ^ prec))%Q.
Proof.
  intros Hx. pose proof (pow2_pos (exponent_of x)) as He. split.
  - apply Qlt_shift_div_l; [exact He |]. now rewrite Qmult_0_l.
  - apply Qlt_shift_div_r; [exact He |].
    rewrite <- pow2_inject by (unfold prec; lia). rewrite <- pow2_add.
    eapply Qlt_le_trans; [apply ilog2_spec, Hx |].
    apply pow2_le. unfold exponent_of, prec. lia.
Qed.

Lemma mantissa_of_bounds (x : Q) : (0 < x)%Q -> 0 <= mantissa_of x <= 2 ^ prec.
Proof.
  intros Hx. destruct (scaled_lt x Hx) as [H0 H1]. unfold mantissa_of. split.
  - rewrite <- (round_fraction_inject 0). apply round_fraction_mono.
    apply Qlt_le_weak, H0.
  - rewrite <- (round_fraction_inject (2 ^ prec)). apply round_fraction_mono.
    apply Qlt_le_weak, H1.
Qed.

(** A finite result of the rounding has the value of the rounded mantissa
    at the exponent chosen for [x]. *)
Lemma round_to_float_value (s : bool) (x : Q) :
  (0 < x)%Q -> is_finite (round_to_float s x) = true ->
  (SF2Q (round_to_float s x) ==
   signed s (inject_Z (mantissa_of x) * pow2 (exponent_of x)))%Q.
Proof.
  intros Hx. pose proof (mantissa_of_bounds x Hx) as Hm.
  unfold round_to_float. fold (mantissa_of x).
  destruct (Z.leb_spec (Qnum x) 0) as [Hn | _]; [apply Qnum_pos in Hx; lia |].
  destruct (Z.eqb_spec (mantissa_of x) (2 ^ prec)) as [-> | Hne].
  - change (2 ^ (prec - 1)) with (Zpos (2 ^ 52)).
    destruct (exponent_of x + 1 <=? emax - prec); [| discriminate]. intros _.
    unfold SF2Q, signed. rewrite pow2_succ.
    change (inject_Z (2 ^ prec)) with (2 * inject_Z (Zpos (2 ^ 52)))%Q.
    destruct s; ring.
  - destruct (mantissa_of x) as [| p | p]; [| | lia].
    + intros _. unfold SF2Q, signed. change (inject_Z 0) with 0%Q. destruct s; ring.
    + destruct (exponent_of x <=? emax - prec); [| discriminate]. intros _.
      unfold SF2Q, signed. destruct s; ring.
Qed.

Lemma round_to_float_finite (s : bool) (x : Q) :
  (x < pow2 (emax - 1))%Q -> is_finite (round_to_float s x) = true.
Proof.
  intros Hb. unfold round_to_float.
  destruct (Z.leb_spec (Qnum x) 0) as [| Hn]; [reflexivity |].
  apply Qnum_pos in Hn.
  pose proof (ilog2_lt x _ Hn Hb) as Hl.
  assert (He : exponent_of x + 1 <= emax - prec).
  { unfold exponent_of, emax, prec in *. lia. }
  fold (mantissa_of x).
  destruct (Z.eqb_spec (mantissa_of x) (2 ^ prec)).
  - change (2 ^ (prec - 1)) with (Zpos (2 ^ 52)).
    destruct (Z.leb_spec (exponent_of x + 1) (emax - prec)); [reflexivity | lia].
  - destruct (mantissa_of x); try reflexivity.
    destruct (Z.leb_spec (exponent_of x) (emax - prec)); [reflexivity | lia].
Qed.

Lemma round_to_float_not_nan (s : bool) (x : Q) :
  is_finite (round_to_float s x) = true \/ round_to_float s x = S754_infinity s.
Proof.
  unfold round_to_float.
  destruct (Qnum x <=? 0); [now left |].
  destruct (_ =? _).
  - change (2 ^ (prec - 1)) with (Zpos (2 ^ 52)). destruct (_ <=? _); auto.
  - destruct (round_fraction _); auto. destruct (_ <=? _); auto.
Qed.

Lemma round_to_float_nonneg (x : Q) : (0 <= SF2Q (round_to_float false x))%Q.
Proof.
  destruct (Qlt_le_dec 0 x) as [Hx | Hx].
  - destruct (round_to_float_not_nan false x) as [Hf | ->]; [| apply Qle_refl].
    rewrite (round_to_float_value false x Hx Hf). unfold signed.
    apply Qmult_le_0_compat.
    + change 0%Q with (inject_Z 0). rewrite <- Zle_Qle.
      apply mantissa_of_bounds, Hx.
    + apply Qlt_le_weak, pow2_pos.
  - unfold round_to_float.
    destruct (Z.leb_spec (Qnum x) 0) as [| Hn]; [apply Qle_refl |].
    apply Qnum_pos in Hn. exfalso. eapply Qlt_irrefl, Qlt_le_trans; eassumption.
Qed.

(** Rounding to binary64 is monotone. *)
Lemma round_to_float_mono (x y : Q) :
  (x <= y)%Q ->
  is_finite (round_to_float false x) = true ->
  is_finite (round_to_float false y) = true ->
  (SF2Q (round_to_float false x) <= SF2Q (round_to_float false y))%Q.
Proof.
  intros Hxy Fx Fy.
  destruct (Qlt_le_dec 0 x) as [Hx | Hx].
  2:{ unfold round_to_float at 1.
      destruct (Z.leb_spec (Qnum x) 0) as [| Hn].
      - apply round_to_float_nonneg.
      - apply Qnum_pos in Hn. exfalso. eapply Qlt_irrefl, Qlt_le_trans; eassumption. }
  assert (Hy : (0 < y)%Q) by (eapply Qlt_le_trans; eassumption).
  rewrite (round_to_float_value false x Hx Fx), (round_to_float_value false y Hy Fy).
  unfold signed.
  pose proof (exponent_of_mono x y Hx Hxy) as He.
  pose proof (pow2_pos (exponent_of x)) as Px.
  pose proof (pow2_pos (exponent_of y)) as Py.
  destruct (Z.eq_dec (exponent_of x) (exponent_of y)) as [Heq | Hne].
  - rewrite <- Heq. apply Qmult_le_compat_r; [| apply Qlt_le_weak, Px].
    rewrite <- Zle_Qle. unfold mantissa_of. rewrite <- Heq.
    apply round_fraction_mono.
    apply Qle_shift_div_l; [exact Px |].
    unfold Qdiv. rewrite <- Qmult_assoc, (Qmult_comm (/ _)), Qmult_inv_r, Qmult_1_r.
    + exact Hxy.
    + intros H. rewrite H in Px. discriminate.
  - apply Qle_trans with (pow2 (exponent_of y + (prec - 1))).
    + apply Qle_trans with (inject_Z (2 ^ prec) * pow2 (exponent_of x))%Q.
      * apply Qmult_le_compat_r; [| apply Qlt_le_weak, Px].
        rewrite <- Zle_Qle. apply mantissa_of_bounds, Hx.
      * rewrite <- pow2_inject by (unfold prec; lia). rewrite <- pow2_add.
        apply pow2_le. unfold prec. lia.
    + rewrite Z.add_comm, pow2_add.
      apply Qmult_le_compat_r; [| apply Qlt_le_weak, Py].
      rewrite pow2_inject by (unfold prec; lia). rewrite <- Zle_Qle.
      unfold mantissa_of. rewrite <- (round_fraction_inject (2 ^ (prec - 1))).
      apply round_fraction_mono.
      apply Qle_shift_div_l; [exact Py |].
      rewrite <- pow2_inject by (unfold prec; lia). rewrite <- pow2_add.
      eapply Qle_trans; [| apply ilog2_spec, Hy].
      apply pow2_le. unfold exponent_of in *. lia.
Qed.


(** ** Timecode table builder *)

Lemma Fraction_frame_ok (fr : frame) :
  frame_ok fr ->
  Fraction (_DurationNum fr) (_DurationDen fr) = Ok (duration fr)
  /\ (0 <= duration fr)%Q.
Proof.
  intros [Hd Hn]. unfold duration, Fraction.
  destruct (_DurationDen fr) as [| d | d]; [congruence | |]; split; try reflexivity;
    rewrite Qred_correct; unfold Qle; cbn [Qnum Qden]; lia.
Qed.

Lemma float_of_Fraction_nonneg (q : Q) :
  (0 <= q)%Q ->
  float_of_Fraction q =
  match round_to_float false q with
  | S754_infinity _ => Raise (Builtin PyOverflowError)
  | x => Ok x
  end.
Proof.
  intros Hq. destruct q as [n d]. unfold Qle in Hq. cbn [Qnum Qden] in Hq.
  unfold float_of_Fraction, int_true_div. cbn [Qnum Qden].
  change (Zpos d =? 0) with false. cbv iota.
  replace (n <? 0) with false by (symmetry; apply Z.ltb_ge; lia).
  change (Zpos d <? 0) with false. cbn [xorb].
  rewrite (Z.abs_eq n) by lia. reflexivity.
Qed.

Lemma float_of_Fraction_finite (q : Q) :
  (0 <= q)%Q -> (q < pow2 (emax - 1))%Q ->
  float_of_Fraction q = Ok (round_to_float false q)
  /\ is_finite (round_to_float false q) = true.
Proof.
  intros H0 Hb. pose proof (round_to_float_finite false q Hb) as Hf.
  rewrite (float_of_Fraction_nonneg q H0). split; [| exact Hf].
  destruct (round_to_float false q); (reflexivity || discriminate).
Qed.

Lemma round_float_finite (x : float) :
  is_finite x = true -> round_float x = Ok (round_fraction (Qred (SF2Q x))).
Proof. destruct x; (reflexivity || discriminate). Qed.

(** The percentage computed when the table holds [k] entries. *)
Lemma percentage_value (N k : Z) :
  0 < N -> 0 <= k <= N + 1 ->
  percentage N k =
  Ok (round_fraction (Qred (SF2Q (round_to_float false (100 * k # Z.to_pos N))))).
Proof.
  intros HN Hk. unfold percentage, int_true_div.
  destruct (Z.eqb_spec N 0); [lia |].
  replace (100 * k <? 0) with false by (symmetry; apply Z.ltb_ge; lia).
  replace (N <? 0) with false by (symmetry; apply Z.ltb_ge; lia).
  cbn [xorb]. rewrite (Z.abs_eq (100 * k)), (Z.abs_eq N) by lia.
  assert (Hf : is_finite (round_to_float false (100 * k # Z.to_pos N)) = true).
  { apply round_to_float_finite.
    apply Qle_lt_trans with (inject_Z 200).
    - unfold Qle, inject_Z, Qnum, Qden. rewrite Z2Pos.id by lia. lia.
    - apply Qlt_le_trans with (pow2 8); [reflexivity |].
      apply pow2_le. unfold emax. lia. }
  destruct (round_to_float false (100 * k # Z.to_pos N)) eqn:E;
    try discriminate; reflexivity.
Qed.

Lemma percentage_mono (N k k' p p' : Z) :
  0 < N -> 0 <= k <= k' -> k' <= N + 1 ->
  percentage N k = Ok p -> percentage N k' = Ok p' -> p <= p'.
Proof.
  intros HN Hk Hk'. rewrite !percentage_value by lia.
  intros [= <-] [= <-].
  assert (Hb : forall j, 0 <= j <= N + 1 ->
                 is_finite (round_to_float false (100 * j # Z.to_pos N)) = true).
  { intros j Hj. apply round_to_float_finite.
    apply Qle_lt_trans with (inject_Z 200).
    - unfold Qle, inject_Z, Qnum, Qden. rewrite Z2Pos.id by lia. lia.
    - apply Qlt_le_trans with (pow2 8); [reflexivity |].
      apply pow2_le. unfold emax. lia. }
  apply round_fraction_mono. apply Qred_le.
  apply round_to_float_mono; [| apply Hb; lia | apply Hb; lia].
  change (100 * k * Zpos (Z.to_pos N) <= 100 * k' * Zpos (Z.to_pos N)).
  apply Z.mul_le_mono_nonneg_r; lia.
Qed.

Lemma percentage_nonneg (N k p : Z) :
  0 < N -> 0 <= k <= N + 1 -> percentage N k = Ok p -> 0 <= p.
Proof.
  intros HN Hk. rewrite percentage_value by lia. intros [= <-].
  rewrite <- (round_fraction_inject 0). apply round_fraction_mono.
  rewrite Qred_correct. apply round_to_float_nonneg.
Qed.

Lemma deque_append_room {A} (maxlen : Z) (d : list A) (x : A) :
  len d < maxlen -> deque_append maxlen d x = (d ++ [x])%list.
Proof.
  intros H. unfold deque_append.
  destruct (Z.gtb_spec (len (d ++ [x])) maxlen) as [Hgt |]; [| reflexivity].
  unfold len in *. rewrite length_app in Hgt. cbn in Hgt. lia.
Qed.

Lemma len_app {A} (l l' : list A) : len (l ++ l') = len l + len l'.
Proof. unfold len. rewrite length_app. lia. Qed.

Lemma total_duration_nonneg (frs : list frame) :
  Forall frame_ok frs -> (0 <= total_duration frs)%Q.
Proof.
  induction 1 as [| fr frs Hfr _ IH]; cbn; [apply Qle_refl |].
  destruct (Fraction_frame_ok fr Hfr) as [_ H]. 
  change 0%Q with (0 + 0)%Q at 1. apply Qplus_le_compat; assumption.
Qed.

Lemma Forall2_seq_shift {B} (R : nat -> B -> Prop) (n : nat) :
  forall (a : nat) (l : list B),
    Forall2 (fun i => R (S i)) (seq a n) l -> Forall2 R (seq (S a) n) l.
Proof.
  induction n as [| n IH]; intros a l H; cbn in *.
  - inversion H. constructor.
  - inversion H; subst. constructor; [assumption | now apply IH].
Qed.

(** The loop returns: its table is the one it was given followed by the
    float of each running total, and it prints the percentages selected by
    [reported]. *)
Lemma timecodes_loop_spec (N : Z) (frs : list frame) :
  forall (tcs : list float) (curr : Q) (init : Z),
    0 < N -> len tcs + len frs <= N + 1 -> (0 <= curr)%Q ->
    Forall frame_ok frs ->
    (curr + total_duration frs < pow2 (emax - 1))%Q ->
    exists fl pcts,
      timecodes_loop N frs tcs curr init
      = (map progress_line (reported init pcts), Ok (tcs ++ fl)%list)
      /\ Forall2 (fun q f => float_of_Fraction q = Ok f) (running_totals curr frs) fl
      /\ Forall2 (fun i p => percentage N (len tcs + Z.of_nat i) = Ok p)
                 (seq 1 (List.length frs)) pcts.
Proof.
  induction frs as [| fr frs IH]; intros tcs curr init HN Hlen Hcurr Hok Hb.
  - exists [], []. cbn. rewrite app_nil_r. repeat split; constructor.
  - inversion Hok as [| ? ? Hfr Hok']; subst.
    destruct (Fraction_frame_ok fr Hfr) as [HF Hd].
    pose proof (total_duration_nonneg frs Hok') as Ht.
    cbn [total_duration fold_right] in Hb. fold (total_duration frs) in Hb.
    set (curr' := Qred (curr + duration fr)).
    assert (Hc' : (curr' == curr + duration fr)%Q) by apply Qred_correct.
    assert (Hc0 : (0 <= curr')%Q).
    { rewrite Hc'. change 0%Q with (0 + 0)%Q. apply Qplus_le_compat; assumption. }
    assert (Hcb : (curr' + total_duration frs < pow2 (emax - 1))%Q).
    { rewrite Hc', <- Qplus_assoc. exact Hb. }
    assert (Hcb' : (curr' < pow2 (emax - 1))%Q).
    { eapply Qle_lt_trans; [| exact Hcb].
      rewrite <- (Qplus_0_r curr') at 1. apply Qplus_le_r. exact Ht. }
    destruct (float_of_Fraction_finite curr' Hc0 Hcb') as [Hfl Hfin].
    assert (Hl : len tcs < N + 1).
    { unfold len in *. cbn [List.length] in Hlen. lia. }
    pose proof (percentage_value N (len (tcs ++ [round_to_float false curr'])) HN) as Hp.
    rewrite len_app in Hp. change (len [round_to_float false curr']) with 1 in Hp.
    specialize (Hp ltac:(unfold len in *; lia)).
    set (p := round_fraction _) in Hp.
    assert (Hstep : timecodes_step N fr tcs curr
                    = Ok (curr', (tcs ++ [round_to_float false curr'])%list, p)).
    { unfold timecodes_step. rewrite HF. cbn [rbind]. fold curr'. rewrite Hfl.
      cbn [rbind]. rewrite deque_append_room by exact Hl.
      rewrite len_app. change (len [round_to_float false curr']) with 1.
      rewrite Hp. reflexivity. }
    assert (Hlen' : len (tcs ++ [round_to_float false curr']) + len frs <= N + 1).
    { rewrite len_app. unfold len in *. cbn [List.length] in *. lia. }
    cbn [timecodes_loop]. rewrite Hstep.
    destruct ((p mod 10 =? 0) && negb (p =? init)) eqn:Hprint.
    + destruct (IH _ curr' p HN Hlen' Hc0 Hok' Hcb) as (fl & pcts & Heq & Hfl2 & Hp2).
      exists (round_to_float false curr' :: fl), (p :: pcts).
      rewrite Heq. cbn [reported]. rewrite Hprint. cbn [map].
      rewrite <- app_assoc. repeat split.
      * cbn [running_totals]. fold curr'. constructor; assumption.
      * cbn [List.length seq]. constructor.
        -- exact Hp.
        -- apply Forall2_seq_shift.
           eapply Forall2_impl; [| exact Hp2].
           intros i q Hq. cbn beta in Hq. rewrite <- Hq. f_equal.
           rewrite len_app. change (len [round_to_float false curr']) with 1. lia.
    + destruct (IH _ curr' init HN Hlen' Hc0 Hok' Hcb) as (fl & pcts & Heq & Hfl2 & Hp2).
      exists (round_to_float false curr' :: fl), (p :: pcts).
      rewrite Heq. cbn [reported]. rewrite Hprint.
      rewrite <- app_assoc. repeat split.
      * cbn [running_totals]. fold curr'. constructor; assumption.
      * cbn [List.length seq]. constructor.
        -- exact Hp.
        -- apply Forall2_seq_shift.
           eapply Forall2_impl; [| exact Hp2].
           intros i q Hq. cbn beta in Hq. rewrite <- Hq. f_equal.
           rewrite len_app. change (len [round_to_float false curr']) with 1. lia.
Qed.

Lemma running_totals_bounds (frs : list frame) :
  forall curr : Q,
    Forall frame_ok frs ->
    Forall (fun q => curr <= q /\ q <= curr + total_duration frs)%Q
           (running_totals curr frs).
Proof.
  induction frs as [| fr frs IH]; intros curr Hok; cbn [running_totals]; [constructor |].
  inversion Hok as [| ? ? Hfr Hok']; subst.
  destruct (Fraction_frame_ok fr Hfr) as [_ Hd].
  pose proof (total_duration_nonneg frs Hok') as Ht.
  cbn [total_duration fold_right]. fold (total_duration frs).
  set (curr' := Qred (curr + duration fr)).
  assert (Hc' : (curr' == curr + duration fr)%Q) by apply Qred_correct.
  constructor.
  - rewrite Hc'. split; lra.
  - eapply Forall_impl; [| apply (IH curr' Hok')].
    cbn beta. intros q [H1 H2]. rewrite Hc' in H1, H2. split; lra.
Qed.

Lemma running_totals_sorted (frs : list frame) :
  forall curr : Q,
    Forall frame_ok frs -> StronglySorted Qle (running_totals curr frs).
Proof.
  induction frs as [| fr frs IH]; intros curr Hok; cbn [running_totals]; [constructor |].
  inversion Hok as [| ? ? Hfr Hok']; subst.
  constructor; [apply IH, Hok' |].
  eapply Forall_impl; [| apply running_totals_bounds, Hok'].
  cbn beta. intros q [H _]. exact H.
Qed.

Lemma length_running_totals (frs : list frame) (curr : Q) :
  List.length (running_totals curr frs) = List.length frs.
Proof.
  revert curr. induction frs as [| fr frs IH]; intros curr; cbn; [| rewrite IH]; reflexivity.
Qed.

(** Floats obtained from a non-decreasing list of non-negative rationals
    within range are finite and non-decreasing. *)
Lemma floats_of_sorted (qs : list Q) (fl : list float) :
  Forall2 (fun q f => float_of_Fraction q = Ok f) qs fl ->
  Forall (fun q => 0 <= q /\ q < pow2 (emax - 1))%Q qs ->
  StronglySorted Qle qs ->
  Forall (fun f => is_finite f = true /\ (0 <= SF2Q f)%Q) fl
  /\ StronglySorted float_le fl
  /\ Forall2 (fun q f => f = round_to_float false q) qs fl.
Proof.
  induction 1 as [| q f qs fl Hqf H2 IH]; intros Hb Hs.
  - repeat split; constructor.
  - inversion Hb as [| ? ? [Hq0 Hqb] Hb']; subst.
    inversion Hs as [| ? ? Hs' Hle]; subst.
    destruct (IH Hb' Hs') as (IHf & IHs & IHe).
    destruct (float_of_Fraction_finite q Hq0 Hqb) as [Heq Hfin].
    rewrite Heq in Hqf. injection Hqf as <-.
    repeat split.
    + constructor; [| exact IHf]. split; [exact Hfin | apply round_to_float_nonneg].
    + constructor; [exact IHs |].
      clear - H2 Hle Hb' Hfin IHe.
      induction IHe as [| q' f' qs fl He _ IH']; [constructor |].
      inversion H2; subst. inversion Hle; subst. inversion Hb' as [| ? ? [? ?] ?]; subst.
      constructor; [| now apply IH'].
      unfold float_le. apply round_to_float_mono; [assumption | assumption |].
      now apply round_to_float_finite.
    + constructor; [reflexivity | exact IHe].
Qed.

Lemma print_all_spec (out : list string) (w : world) :
  print_all out w =
  ({| cache := cache w; frames_calls := frames_calls w;
      stdout := stdout w ++ out; warnings := warnings w |}, Ok tt).
Proof.
  revert w. induction out as [| l out IH]; intros w; cbn [print_all].
  - unfold ret. rewrite app_nil_r. now destruct w.
  - unfold bind, print. rewrite IH. cbn. now rewrite <- app_assoc.
Qed.

Lemma deque_new_zero (N : Z) :
  0 <= N -> deque_new [S754_zero false] (N + 1) = Ok [S754_zero false].
Proof.
  intros HN. unfold deque_new.
  destruct (Z.ltb_spec (N + 1) 0); [lia |].
  replace (List.length [S754_zero false] - Z.to_nat (N + 1))%nat with 0%nat; [reflexivity |].
  cbn [List.length]. lia.
Qed.

(** What a build does to the process state and what it returns, on a clip
    that is [clip_ok]. *)
Lemma build_timecodes_spec (clip : VideoNode) (w : world) :
  clip_ok clip ->
  exists fl pcts,
    build_timecodes clip w =
    ({| cache := cache w;
        frames_calls := frames_calls w ++ [node_id clip];
        stdout := stdout w ++ map progress_line (reported 0 pcts);
        warnings := warnings w |},
     Ok (S754_zero false :: fl))
    /\ Forall2 (fun q f => float_of_Fraction q = Ok f) (running_totals 0 (frames clip)) fl
    /\ Forall2 (fun i p => percentage (num_frames clip) (1 + Z.of_nat i) = Ok p)
               (seq 1 (List.length (frames clip))) pcts.
Proof.
  intros (HN & Hok & Hb).
  assert (H0 : 0 <= num_frames clip) by (rewrite HN; unfold len; lia).
  unfold build_timecodes, bind, lift, call_frames.
  rewrite (deque_new_zero _ H0). cbn [cache frames_calls stdout warnings].
  destruct (frames clip) as [| fr frs] eqn:Hfrs.
  - exists [], []. cbn [timecodes_loop]. rewrite print_all_spec. cbn.
    rewrite app_nil_r. repeat split; constructor.
  - rewrite <- Hfrs in *.
    assert (HN' : 0 < num_frames clip).
    { rewrite HN, Hfrs. unfold len. cbn [List.length]. lia. }
    destruct (timecodes_loop_spec (num_frames clip) (frames clip) [S754_zero false] 0 0)
      as (fl & pcts & Heq & Hfl & Hp); try assumption.
    + rewrite HN. change (len [S754_zero false]) with 1. lia.
    + apply Qle_refl.
    + now rewrite Qplus_0_l.
    + exists fl, pcts. rewrite Heq, print_all_spec. cbn. repeat split; assumption.
Qed.

Lemma clip_to_timecodes_miss (clip : VideoNode) (w : world) :
  cache_find (node_id clip) (cache w) = None ->
  clip_to_timecodes clip w =
  match build_timecodes clip w with
  | (w', Ok table) =>
      ({| cache := firstn lru_maxsize ((node_id clip, table) :: cache w');
          frames_calls := frames_calls w'; stdout := stdout w';
          warnings := warnings w' |}, Ok table)
  | (w', Raise e) => (w', Raise e)
  end.
Proof.
  intros Hmiss. unfold clip_to_timecodes, bind at 1, get_cache. rewrite Hmiss.
  unfold bind at 1. destruct (build_timecodes clip w) as [w' [table | e]]; reflexivity.
Qed.

Lemma clip_to_timecodes_hit (clip : VideoNode) (w : world) (table : list float) :
  cache_find (node_id clip) (cache w) = Some table ->
  clip_to_timecodes clip w =
  ({| cache := (node_id clip, table) :: cache_remove (node_id clip) (cache w);
      frames_calls := frames_calls w; stdout := stdout w;
      warnings := warnings w |}, Ok table).
Proof.
  intros Hhit. unfold clip_to_timecodes, bind at 1, get_cache. now rewrite Hhit.
Qed.

(** C4: on a clip of N frames of non-negative durations (whose total is in
    the range of a float) the builder starts from the single entry 0.0 and
    returns a table of N + 1 entries: 0.0 first, then the float of each
    running total; the table is non-decreasing. *)
Theorem C4_timecode_table (clip : VideoNode) (w : world) :
  clip_ok clip ->
  deque_new [S754_zero false] (num_frames clip + 1) = Ok [S754_zero false]
  /\ exists table,
       snd (build_timecodes clip w) = Ok table
       /\ (cache_find (node_id clip) (cache w) = None ->
           snd (clip_to_timecodes clip w) = Ok table)
       /\ len table = num_frames clip + 1
       /\ nth_error table 0 = Some (S754_zero false)
       /\ Forall2 (fun q x => float_of_Fraction q = Ok x)
                  (running_totals 0 (frames clip)) (tl table)
       /\ Forall (fun x => is_finite x = true) table
       /\ StronglySorted float_le table.
Proof.
  intros Hclip. pose proof Hclip as (HN & Hok & Hb). split.
  { apply deque_new_zero. rewrite HN. unfold len. lia. }
  destruct (build_timecodes_spec clip w Hclip) as (fl & pcts & Heq & Hfl & _).
  exists (S754_zero false :: fl).
  destruct (floats_of_sorted _ _ Hfl) as (Hfin & Hsorted & _).
  { eapply Forall_impl; [| apply running_totals_bounds, Hok].
    cbn beta. intros q [H1 H2]. rewrite Qplus_0_l in H2. split; [exact H1 |].
    eapply Qle_lt_trans; eassumption. }
  { apply running_totals_sorted, Hok. }
  repeat split.
  - now rewrite Heq.
  - intros Hmiss. rewrite (clip_to_timecodes_miss clip w Hmiss), Heq. reflexivity.
  - unfold len. cbn [List.length]. rewrite <- (Forall2_length Hfl), length_running_totals.
    rewrite HN. unfold len. lia.
  - exact Hfl.
  - constructor; [reflexivity |].
    eapply Forall_impl; [| exact Hfin]. cbn beta. tauto.
  - constructor; [exact Hsorted |].
    eapply Forall_impl; [| exact Hfin]. cbn beta. intros f [_ H]. exact H.
Qed.

Lemma C4_timecode_table_witness :
  exists table,
    snd (build_timecodes (vfr_clip 2 24) empty_world) = Ok table
    /\ len table = 25
    /\ StronglySorted float_le table.
Proof.
  destruct (C4_timecode_table (vfr_clip 2 24) empty_world)
    as (_ & table & H1 & _ & H2 & _ & _ & _ & H3).
  - split; [reflexivity | split].
    + repeat constructor; cbn; lia.
    + vm_compute. reflexivity.
  - exists table. repeat split; assumption.
Defined.

(** ** Progress reports *)

Lemma reported_spec (pcts : list Z) :
  forall init : Z,
    StronglySorted Z.le (init :: pcts) ->
    StronglySorted Z.lt (init :: reported init pcts)
    /\ (forall p, In p (reported init pcts) <->
                  In p pcts /\ p mod 10 = 0 /\ p <> init).
Proof.
  induction pcts as [| p0 pcts IH]; intros init Hs.
  - cbn. split; [repeat constructor | tauto].
  - inversion Hs as [| ? ? Hs' Hall]; subst.
    inversion Hall as [| ? ? Hp0 Hall']; subst.
    inversion Hs' as [| ? ? Hs'' Hall0]; subst.
    cbn [reported].
    destruct ((p0 mod 10 =? 0) && negb (p0 =? init)) eqn:Hprint.
    + apply andb_prop in Hprint as [Hm Hne].
      apply Z.eqb_eq in Hm. apply negb_true_iff, Z.eqb_neq in Hne.
      destruct (IH p0 Hs') as [IHs IHi]. split.
      * inversion IHs as [| ? ? IHs1 IHs2]; subst.
        constructor; [exact IHs |].
        constructor; [lia |].
        eapply Forall_impl; [| exact IHs2]. cbn beta. lia.
      * intros p. cbn [In]. rewrite IHi. rewrite Forall_forall in Hall0. split.
        -- intros [<- | (Hin & Hmod & Hnp)]; [repeat split; auto |].
           specialize (Hall0 p Hin). repeat split; [tauto | exact Hmod | lia].
        -- intros ([<- | Hin] & Hmod & Hnp); [now left |].
           destruct (Z.eq_dec p0 p); [now left | right; repeat split; auto; congruence].
    + assert (Hs2 : StronglySorted Z.le (init :: pcts)).
      { constructor; assumption. }
      destruct (IH init Hs2) as [IHs IHi]. split; [exact IHs |].
      intros p. rewrite IHi. cbn [In]. split; [tauto |].
      intros ([<- | Hin] & Hmod & Hnp); [| tauto].
      exfalso. apply andb_false_iff in Hprint as [H | H].
      * apply Z.eqb_neq in H. tauto.
      * apply negb_false_iff, Z.eqb_eq in H. tauto.
Qed.

(** The percentages computed during a build never decrease. *)
Lemma percentages_sorted (N : Z) (n : nat) (pcts : list Z) :
  0 < N -> forall a : nat,
    Z.of_nat (a + n) <= N + 1 ->
    Forall2 (fun i p => percentage N (1 + Z.of_nat i) = Ok p) (seq a n) pcts ->
    StronglySorted Z.le pcts /\ Forall (fun p => 0 <= p) pcts
    /\ forall p0, percentage N (1 + Z.of_nat a - 1) = Ok p0 -> Forall (Z.le p0) pcts.
Proof.
  intros HN. revert pcts. induction n as [| n IH]; intros pcts a Ha H; cbn [seq] in H.
  - inversion H. repeat split; constructor.
  - inversion H as [| ? p ? pcts' Hp H']; subst.
    destruct (IH pcts' (S a) ltac:(lia) H') as (IHs & IHn & IHle).
    assert (Hle : Forall (Z.le p) pcts').
    { apply IHle. rewrite <- Hp. f_equal. lia. }
    repeat split.
    + constructor; assumption.
    + constructor; [| exact IHn]. eapply percentage_nonneg; [exact HN | | exact Hp]. lia.
    + intros p0 Hp0.
      assert (p0 <= p).
      { eapply (percentage_mono N _ _ p0 p HN); [| | exact Hp0 | exact Hp]; lia. }
      constructor; [assumption |].
      eapply Forall_impl; [| exact Hle]. cbn beta. lia.
Qed.

(** C7, as the claim has it: a build would report each of the ten
    boundaries 10%, ..., 100% it crosses.  On a clip of 7 frames the rounded
    percentages are 29, 43, 57, 71, 86, 100 and 114, and only the one that
    is a multiple of 10 is reported. *)
Lemma C7_counterexample :
  stdout (fst (build_timecodes (vfr_clip 2 7) empty_world)) = [progress_line 100]
  /\ stdout (fst (build_timecodes (vfr_clip 2 7) empty_world))
     <> map progress_line [10; 20; 30; 40; 50; 60; 70; 80; 90; 100].
Proof.
  assert (H : stdout (fst (build_timecodes (vfr_clip 2 7) empty_world))
              = [progress_line 100]) by (vm_compute; reflexivity).
  split; [exact H |]. rewrite H. discriminate.
Qed.

(** C7, amended: during a build a progress line is printed after a frame
    exactly when the rounded percentage [round(100 * len(table) / N)] is a
    multiple of 10 other than the one printed last (0 at the start).  The
    percentages printed are positive multiples of 10 in strictly increasing
    order, so none is reported twice, and they are those of the computed
    percentages that are non-zero multiples of 10. *)
Theorem C7_progress_reports (clip : VideoNode) (w : world) :
  clip_ok clip ->
  exists pcts,
    Forall2 (fun i p => percentage (num_frames clip) (1 + Z.of_nat i) = Ok p)
            (seq 1 (List.length (frames clip))) pcts
    /\ stdout (fst (build_timecodes clip w))
       = (stdout w ++ map progress_line (reported 0 pcts))%list
    /\ StronglySorted Z.lt (reported 0 pcts)
    /\ (forall p, In p (reported 0 pcts) <-> In p pcts /\ p mod 10 = 0 /\ p <> 0)
    /\ Forall (fun p => 0 < p) (reported 0 pcts).
Proof.
  intros Hclip. pose proof Hclip as (HN & _ & _).
  destruct (build_timecodes_spec clip w Hclip) as (fl & pcts & Heq & _ & Hp).
  exists pcts. rewrite Heq. cbn [fst stdout].
  assert (Hs : StronglySorted Z.le (0 :: pcts)).
  { destruct (frames clip) as [| fr frs] eqn:Hfrs.
    - inversion Hp. repeat constructor.
    - rewrite <- Hfrs in *.
      assert (HN' : 0 < num_frames clip).
      { rewrite HN, Hfrs. unfold len. cbn [List.length]. lia. }
      destruct (percentages_sorted (num_frames clip) (List.length (frames clip))
                  pcts HN' 1%nat) as (H1 & H2 & _).
      + rewrite HN. unfold len. lia.
      + exact Hp.
      + constructor; assumption. }
  destruct (reported_spec pcts 0 Hs) as [Hsorted Hin].
  inversion Hsorted as [| ? ? Hs1 Hs2]; subst.
  repeat split; try assumption; apply Hin; assumption.
Qed.

Lemma C7_progress_reports_witness :
  exists pcts,
    stdout (fst (build_timecodes (vfr_clip 2 24) empty_world))
    = map progress_line (reported 0 pcts)
    /\ StronglySorted Z.lt (reported 0 pcts).
Proof.
  destruct (C7_progress_reports (vfr_clip 2 24) empty_world) as (pcts & _ & H1 & H2 & _).
  - split; [reflexivity | split].
    + repeat constructor; cbn; lia.
    + vm_compute. reflexivity.
  - exists pcts. split; [exact H1 | exact H2].
Defined.

(** The percentage is computed from the length of the table, which counts
    the initial 0.0: a clip of 10 frames is reported from 20% to 110%. *)
Example progress_of_ten_frames :
  stdout (fst (build_timecodes (vfr_clip 2 10) empty_world))
  = map progress_line [20; 30; 40; 50; 60; 70; 80; 90; 100; 110].
Proof. vm_compute. reflexivity. Qed.

(** ** The cache of [clip_to_timecodes] *)

Section Cache.

Context {V : Type}.
Implicit Types (c pre post : list (positive * V)) (k : positive).

Lemma cache_find_None k c : cache_find k c = None <-> ~ In k (map fst c).
Proof.
  induction c as [| [k' v] c IH]; cbn; [tauto |].
  destruct (Pos.eqb_spec k' k); [split; [discriminate | tauto] |].
  rewrite IH. tauto.
Qed.

Lemma cache_find_middle k (v : V) pre post :
  ~ In k (map fst pre) -> cache_find k (pre ++ (k, v) :: post) = Some v.
Proof.
  induction pre as [| [k' v'] pre IH]; cbn; intros H.
  - now rewrite Pos.eqb_refl.
  - destruct (Pos.eqb_spec k' k); [tauto | apply IH; tauto].
Qed.

Lemma cache_remove_app k c c' :
  cache_remove k (c ++ c') = cache_remove k c ++ cache_remove k c'.
Proof. apply filter_app. Qed.

Lemma keys_cache_remove k c :
  map fst (cache_remove k c) = filter (fun k' => negb (Pos.eqb k' k)) (map fst c).
Proof.
  unfold cache_remove.
  induction c as [| [k' v] c IH]; cbn [filter map fst]; [reflexivity |].
  destruct (negb (Pos.eqb k' k)); cbn [map fst]; now rewrite IH.
Qed.

Lemma cache_remove_other k k' (v : V) c :
  k' <> k -> cache_remove k ((k', v) :: c) = (k', v) :: cache_remove k c.
Proof.
  intros H. cbn. destruct (Pos.eqb_spec k' k); [tauto | reflexivity].
Qed.

End Cache.

(** A build never touches the cache, and starts the iterator of its own
    clip before it returns a table. *)
Lemma build_timecodes_effects (clip : VideoNode) (w : world) :
  cache (fst (build_timecodes clip w)) = cache w
  /\ warnings (fst (build_timecodes clip w)) = warnings w
  /\ (frames_calls (fst (build_timecodes clip w)) = frames_calls w
      \/ frames_calls (fst (build_timecodes clip w)) = frames_calls w ++ [node_id clip])
  /\ (forall table, snd (build_timecodes clip w) = Ok table ->
        frames_calls (fst (build_timecodes clip w)) = frames_calls w ++ [node_id clip]).
Proof.
  unfold build_timecodes, bind, lift, call_frames.
  destruct (deque_new _ _) as [tcs | e]; cbn [fst snd].
  - destruct (timecodes_loop _ _ _ _ _) as [out r].
    rewrite print_all_spec. cbn. repeat split; auto.
  - repeat split; auto. discriminate.
Qed.

Lemma cached_behind_find key table seen w :
  cached_behind key table seen w -> cache_find key (cache w) = Some table.
Proof.
  intros (pre & post & -> & Hk & _). now apply cache_find_middle.
Qed.

(** A call for another clip keeps the entry cached as long as fewer than
    [lru_maxsize] distinct clips have been seen since it was used. *)
Lemma cached_behind_step key table seen (c : VideoNode) (w : world) :
  node_id c <> key ->
  (List.length (nodup Pos.eq_dec (node_id c :: seen)) < lru_maxsize)%nat ->
  cached_behind key table seen w ->
  cached_behind key table (node_id c :: seen) (fst (clip_to_timecodes c w)).
Proof.
  intros Hne Hlen Hcb.
  pose proof Hcb as (pre & post & Hc & Hk & Hnd & Hincl).
  destruct (cache_find (node_id c) (cache w)) as [v |] eqn:Hfind.
  - rewrite (clip_to_timecodes_hit c w v Hfind). cbn [fst cache].
    exists ((node_id c, v) :: cache_remove (node_id c) pre),
           (cache_remove (node_id c) post).
    rewrite Hc, cache_remove_app, (cache_remove_other _ _ _ _ (not_eq_sym Hne)).
    cbn [map fst]. rewrite keys_cache_remove. repeat split.
    + cbn [In]. intros [H | H%filter_In]; [congruence | tauto].
    + constructor.
      * intros [_ H]%filter_In. now rewrite Pos.eqb_refl in H.
      * now apply NoDup_filter.
    + intros k [<- | [H _]%filter_In]; [now left | right; now apply Hincl].
  - rewrite (clip_to_timecodes_miss c w Hfind).
    destruct (build_timecodes_effects c w) as (Hcache & _).
    destruct (build_timecodes c w) as [w' [v | e]]; cbn [fst] in *.
    + cbn [cache]. rewrite Hcache, Hc.
      assert (Hfresh : ~ In (node_id c) (map fst pre)).
      { apply cache_find_None in Hfind. rewrite Hc, map_app, in_app_iff in Hfind. tauto. }
      assert (Hnd' : NoDup (node_id c :: map fst pre)) by (constructor; assumption).
      assert (Hincl' : incl (node_id c :: map fst pre) (node_id c :: seen)).
      { intros k [<- | H]; [now left | right; now apply Hincl]. }
      assert (Hl : (S (List.length pre) < lru_maxsize)%nat).
      { eapply Nat.le_lt_trans; [| exact Hlen].
        rewrite <- (length_map fst pre).
        change (S (List.length (map fst pre))) with (List.length (node_id c :: map fst pre)).
        apply NoDup_incl_length; [exact Hnd' |].
        intros k Hk'. apply nodup_In, Hincl', Hk'. }
      exists ((node_id c, v) :: pre), (firstn (lru_maxsize - S (S (List.length pre))) post).
      repeat split.
      * change ((node_id c, v) :: pre ++ (key, table) :: post)
          with (((node_id c, v) :: pre) ++ (key, table) :: post).
        rewrite firstn_app.
        rewrite firstn_all2 by (cbn [List.length]; lia).
        f_equal. cbn [List.length].
        replace (lru_maxsize - S (List.length pre))%nat
          with (S (lru_maxsize - S (S (List.length pre)))) by lia.
        reflexivity.
      * cbn [map fst In]. intros [H | H]; [congruence | tauto].
      * exact Hnd'.
      * exact Hincl'.
    + exists pre, post. rewrite Hcache. repeat split; try assumption.
      intros k H. right. now apply Hincl.
Qed.

Lemma nodup_length_cons (k : positive) (l : list positive) :
  (List.length (nodup Pos.eq_dec l) <= List.length (nodup Pos.eq_dec (k :: l)))%nat.
Proof.
  cbn [nodup]. destruct (in_dec Pos.eq_dec k l); cbn [List.length]; lia.
Qed.

Lemma nodup_length_app (l l' : list positive) :
  (List.length (nodup Pos.eq_dec l') <= List.length (nodup Pos.eq_dec (l ++ l')))%nat.
Proof.
  induction l as [| k l IH]; [apply Nat.le_refl |].
  etransitivity; [exact IH | apply nodup_length_cons].
Qed.

Lemma nodup_length_rev (l : list positive) :
  List.length (nodup Pos.eq_dec (rev l)) = List.length (nodup Pos.eq_dec l).
Proof.
  apply Nat.le_antisymm; apply NoDup_incl_length; try apply NoDup_nodup;
    intros x Hx%nodup_In; apply nodup_In; now apply in_rev in Hx || apply in_rev.
Qed.

(** A call that returns leaves its table in front of the cache. *)
Lemma call_caches (clip : VideoNode) (w : world) (table : list float) :
  snd (clip_to_timecodes clip w) = Ok table ->
  cached_behind (node_id clip) table [] (fst (clip_to_timecodes clip w)).
Proof.
  destruct (cache_find (node_id clip) (cache w)) as [v |] eqn:Hfind.
  - rewrite (clip_to_timecodes_hit clip w v Hfind). cbn [fst snd cache].
    intros [= ->]. exists [], (cache_remove (node_id clip) (cache w)).
    repeat split; [tauto | constructor | intros k []].
  - rewrite (clip_to_timecodes_miss clip w Hfind).
    destruct (build_timecodes clip w) as [w' [v | e]]; cbn [fst snd]; [| discriminate].
    intros [= ->]. cbn [cache].
    exists [], (firstn (pred lru_maxsize) (cache w')).
    repeat split; [tauto | constructor | intros k []].
Qed.

Lemma run_calls_cons (c : VideoNode) (rest : list VideoNode) (w : world) :
  run_calls (c :: rest) w = run_calls rest (fst (clip_to_timecodes c w)).
Proof. reflexivity. Qed.

Lemma run_calls_cached key table (others : list VideoNode) :
  forall (seen : list positive) (w : world),
    Forall (fun c => node_id c <> key) others ->
    (List.length (nodup Pos.eq_dec (rev (map node_id others) ++ seen)) < lru_maxsize)%nat ->
    cached_behind key table seen w ->
    cached_behind key table (rev (map node_id others) ++ seen) (run_calls others w).
Proof.
  induction others as [| c rest IH]; intros seen w Hne Hlen Hcb; [exact Hcb |].
  inversion Hne as [| ? ? Hc Hrest]; subst.
  cbn [map rev] in *. rewrite <- app_assoc in *. cbn [app] in *.
  rewrite run_calls_cons. apply IH; [exact Hrest | exact Hlen |].
  apply cached_behind_step; [exact Hc | | exact Hcb].
  eapply Nat.le_lt_trans; [apply nodup_length_app | exact Hlen].
Qed.

(** A call starts the iterator of its own clip at most once, and not at all
    when the table is cached. *)
Lemma call_frames_calls (c : VideoNode) (w : world) :
  frames_calls (fst (clip_to_timecodes c w)) = frames_calls w
  \/ frames_calls (fst (clip_to_timecodes c w)) = frames_calls w ++ [node_id c].
Proof.
  destruct (cache_find (node_id c) (cache w)) as [v |] eqn:Hfind.
  - rewrite (clip_to_timecodes_hit c w v Hfind). now left.
  - rewrite (clip_to_timecodes_miss c w Hfind).
    destruct (build_timecodes_effects c w) as (_ & _ & H & _).
    destruct (build_timecodes c w) as [w' [v | e]]; exact H.
Qed.

Lemma run_calls_frames_calls (others : list VideoNode) :
  forall w : world,
  exists extra,
    frames_calls (run_calls others w) = frames_calls w ++ extra
    /\ incl extra (map node_id others).
Proof.
  induction others as [| c rest IH]; intros w.
  - exists []. split; [now rewrite app_nil_r | intros k []].
  - rewrite run_calls_cons.
    destruct (IH (fst (clip_to_timecodes c w))) as (extra & Heq & Hincl).
    destruct (call_frames_calls c w) as [H | H]; rewrite H in Heq.
    + exists extra. split; [exact Heq |]. intros k Hk. right. now apply Hincl.
    + exists (node_id c :: extra). rewrite <- app_assoc in Heq. split; [exact Heq |].
      intros k [<- | Hk]; [now left | right; now apply Hincl].
Qed.

(** C8, as the claim has it: once built, the table of a clip would stay
    cached for good.  The cache keeps 128 clips: after 128 other clips the
    first one is built again. *)
Lemma C8_counterexample :
  let first := vfr_clip 1 1 in
  let others := map (fun i => vfr_clip (Pos.of_nat i) 1) (seq 2 128) in
  let w1 := fst (clip_to_timecodes first empty_world) in
  let w2 := run_calls others w1 in
  let w3 := fst (clip_to_timecodes first w2) in
  cache_find 1%positive (cache w1) <> None
  /\ cache_find 1%positive (cache w2) = None
  /\ frames_calls w3 = frames_calls w2 ++ [1%positive]
  /\ count_occ Pos.eq_dec (frames_calls w3) 1%positive = 2%nat.
Proof.
  vm_compute. repeat split. discriminate.
Qed.

(** C8, amended: a call that returns a table leaves it cached, and as long
    as fewer than 128 distinct other clips are requested in between, a later
    call with the same clip returns that table without iterating the frames
    of the clip again and without printing; a first call (nothing cached
    for the clip) does iterate the frames. *)
Theorem C8_cached_table (clip : VideoNode) (others : list VideoNode)
        (w : world) (table : list float) :
  snd (clip_to_timecodes clip w) = Ok table ->
  Forall (fun c => node_id c <> node_id clip) others ->
  (List.length (nodup Pos.eq_dec (map node_id others)) < lru_maxsize)%nat ->
  let w1 := fst (clip_to_timecodes clip w) in
  let w2 := run_calls others w1 in
  let w3 := fst (clip_to_timecodes clip w2) in
  (cache_find (node_id clip) (cache w) = None ->
   frames_calls w1 = frames_calls w ++ [node_id clip])
  /\ snd (clip_to_timecodes clip w2) = Ok table
  /\ frames_calls w3 = frames_calls w2
  /\ stdout w3 = stdout w2
  /\ count_occ Pos.eq_dec (frames_calls w3) (node_id clip)
     = count_occ Pos.eq_dec (frames_calls w1) (node_id clip).
Proof.
  intros Hcall Hne Hlen w1 w2 w3.
  assert (Hhit : cache_find (node_id clip) (cache w2) = Some table).
  { apply (cached_behind_find _ _ (rev (map node_id others) ++ [])).
    apply run_calls_cached; [exact Hne | | apply call_caches, Hcall].
    now rewrite app_nil_r, nodup_length_rev. }
  assert (H3 : clip_to_timecodes clip w2
               = ({| cache := (node_id clip, table) :: cache_remove (node_id clip) (cache w2);
                     frames_calls := frames_calls w2; stdout := stdout w2;
                     warnings := warnings w2 |}, Ok table))
    by (apply clip_to_timecodes_hit, Hhit).
  repeat split.
  - intros Hmiss. subst w1. rewrite (clip_to_timecodes_miss clip w Hmiss) in *.
    destruct (build_timecodes_effects clip w) as (_ & _ & _ & H).
    destruct (build_timecodes clip w) as [w' [v | e]]; cbn [fst snd] in *; [| discriminate].
    cbn [frames_calls]. now apply (H v).
  - now rewrite H3.
  - subst w3. now rewrite H3.
  - subst w3. now rewrite H3.
  - subst w3. rewrite H3. cbn [fst frames_calls]. subst w2.
    destruct (run_calls_frames_calls others w1) as (extra & -> & Hincl).
    rewrite count_occ_app.
    assert (Hnot : ~ In (node_id clip) extra).
    { intros Hin%Hincl. apply in_map_iff in Hin as (c & Hid & Hc).
      rewrite Forall_forall in Hne. now apply (Hne c Hc). }
    apply (count_occ_not_In Pos.eq_dec) in Hnot. rewrite Hnot. lia.
Qed.

Lemma C8_cached_table_witness :
  let clip := vfr_clip 1 3 in
  let others := [vfr_clip 2 1; vfr_clip 3 2; vfr_clip 2 1] in
  let w2 := run_calls others (fst (clip_to_timecodes clip empty_world)) in
  snd (clip_to_timecodes clip w2) = snd (clip_to_timecodes clip empty_world)
  /\ frames_calls (fst (clip_to_timecodes clip w2)) = frames_calls w2.
Proof.
  intros clip others w2.
  destruct (snd (clip_to_timecodes clip empty_world)) as [table |] eqn:Hcall;
    [| vm_compute in Hcall; discriminate].
  destruct (C8_cached_table clip others empty_world table Hcall)
    as (_ & H1 & H2 & _).
  - repeat constructor; discriminate.
  - vm_compute. lia.
  - split; [exact H1 | exact H2].
Defined.

(** ** Nearest integer, nearest float *)

(** [round_fraction] picks an integer nearest to its argument. *)
Lemma round_fraction_nearest (x : Q) (z : Z) :
  (Qabs (inject_Z (round_fraction x) - x) <= Qabs (inject_Z z - x))%Q.
Proof.
  pose proof (round_fraction_bounds x) as [H1 H2].
  set (r := round_fraction x) in *.
  destruct (Z.eq_dec z r) as [-> | Hne]; [apply Qle_refl |].
  apply Qle_trans with (1 # 2)%Q.
  - apply Qabs_Qle_condition. split; lra.
  - assert (Hz : (inject_Z z <= inject_Z r - 1 \/ inject_Z r + 1 <= inject_Z z)%Q).
    { destruct (Z_lt_le_dec z r); [left | right].
      - change 1%Q with (inject_Z 1). unfold Qminus.
        change (- inject_Z 1)%Q with (inject_Z (-1)).
        rewrite <- inject_Z_plus, <- Zle_Qle. lia.
      - change 1%Q with (inject_Z 1). rewrite <- inject_Z_plus, <- Zle_Qle. lia. }
    destruct Hz as [Hz | Hz].
    + rewrite Qabs_neg by lra. lra.
    + rewrite Qabs_pos by lra. lra.
Qed.

(** Halfway between two integers it picks the even one. *)
Lemma round_fraction_tie (x : Q) :
  (Qabs (inject_Z (round_fraction x) - x) == 1 # 2)%Q ->
  Z.even (round_fraction x) = true.
Proof.
  intros Habs.
  pose proof (round_fraction_spec x) as H. cbv zeta in H.
  set (r := round_fraction x) in *.
  destruct H as [H | [_ H]]; [exfalso | exact H].
  destruct x as [n d]. cbn [Qnum Qden] in H.
  assert (Hlt : (Qabs (inject_Z r - (n # d)) < 1 # 2)%Q).
  { apply Qabs_Qlt_condition.
    unfold Qlt, Qminus, Qplus, Qopp, inject_Z. cbn [Qnum Qden]. split; nia. }
  rewrite Habs in Hlt. discriminate.
Qed.

Lemma signed_division (a b : Z) :
  b <> 0 ->
  (inject_Z a / inject_Z b ==
   signed (xorb (a <? 0) (b <? 0)) (Z.abs a # Z.to_pos (Z.abs b)))%Q.
Proof.
  intros Hb.
  assert (Hnz : ~ (inject_Z b == 0)%Q).
  { unfold Qeq, inject_Z. cbn. lia. }
  unfold signed.
  destruct (Z.ltb_spec a 0), (Z.ltb_spec b 0); cbn [xorb];
    rewrite (Qmake_Qdiv (Z.abs a)), Z2Pos.id by lia.
  - rewrite (Z.abs_neq a), (Z.abs_neq b) by lia. rewrite !inject_Z_opp. now field.
  - rewrite (Z.abs_neq a), (Z.abs_eq b) by lia. rewrite !inject_Z_opp. now field.
  - rewrite (Z.abs_eq a), (Z.abs_neq b) by lia. rewrite !inject_Z_opp. now field.
  - rewrite (Z.abs_eq a), (Z.abs_eq b) by lia. now field.
Qed.

Lemma Qabs_signed (s : bool) (q : Q) : (Qabs (signed s q) == Qabs q)%Q.
Proof. destruct s; cbn [signed]; [apply Qabs_opp | reflexivity]. Qed.

(** Int true division returns a finite float within half a unit in the last
    place of the exact quotient. *)
Lemma int_true_div_spec (a b : Z) (s : float) :
  int_true_div a b = Ok s ->
  b <> 0 /\ is_finite s = true
  /\ (Qabs (SF2Q s - inject_Z a / inject_Z b)
      <= pow2 (exponent_of (Z.abs a # Z.to_pos (Z.abs b)) - 1))%Q.
Proof.
  unfold int_true_div. destruct (Z.eqb_spec b 0) as [| Hb]; [discriminate |].
  set (neg := xorb (a <? 0) (b <? 0)). set (x := (Z.abs a # Z.to_pos (Z.abs b))%Q).
  intros Hs.
  assert (Hr : round_to_float neg x = s /\ is_finite s = true).
  { destruct (round_to_float_not_nan neg x) as [Hf | Hi].
    - destruct (round_to_float neg x); inversion Hs; subst; auto; discriminate.
    - rewrite Hi in Hs. discriminate. }
  destruct Hr as [Hr Hfin]. repeat split; [exact Hb | exact Hfin |].
  rewrite (signed_division a b Hb). fold neg x.
  destruct (Z.eq_dec a 0) as [-> | Ha].
  - assert (E : (Qabs (SF2Q s - signed neg x) == 0)%Q).
    { subst s. unfold round_to_float, x. cbn [Z.abs Qnum Z.leb Z.compare SF2Q].
      assert (Hx0 : (0 # Z.to_pos (Z.abs b) == 0)%Q) by reflexivity.
      unfold signed. destruct neg; rewrite Hx0; reflexivity. }
    rewrite E. apply Qlt_le_weak, pow2_pos.
  - assert (Hx : (0 < x)%Q) by (apply Qnum_pos; unfold x; cbn [Qnum]; lia).
    rewrite <- Hr in Hfin |- *.
    rewrite (round_to_float_value neg x Hx Hfin).
    set (e := exponent_of x). set (m := inject_Z (mantissa_of x)).
    pose proof (round_fraction_bounds (x / pow2 e)) as [H1 H2].
    fold e (mantissa_of x) m in H1, H2.
    pose proof (pow2_pos e) as Pe. pose proof (pow2_pos (e - 1)) as Ph.
    assert (HP : (pow2 e == 2 * pow2 (e - 1))%Q).
    { rewrite <- pow2_succ. now replace (e - 1 + 1) with e by lia. }
    assert (Hq : (x == (x / pow2 e) * pow2 e)%Q).
    { field. intros H. rewrite H in Pe. discriminate. }
    set (q := (x / pow2 e)%Q) in *.
    change (inject_Z (round_fraction q)) with m in H1, H2.
    assert (Hd : (signed neg (m * pow2 e) - signed neg x
                  == signed neg ((m - q) * pow2 e))%Q).
    { unfold signed. destruct neg; lra. }
    rewrite Hd, Qabs_signed. apply Qabs_Qle_condition.
    assert (Hup : ((m - q) * pow2 e <= (1 # 2) * pow2 e)%Q).
    { apply Qmult_le_compat_r; lra. }
    assert (Hlo : ((- (1 # 2)) * pow2 e <= (m - q) * pow2 e)%Q).
    { apply Qmult_le_compat_r; lra. }
    split; lra.
Qed.

(** The rounding defined here against the division of the standard
    library's IEEE specification, on a grid of small quotients and on a few
    quotients that are subnormal, halfway cases or close to a power of two. *)
Example int_true_div_agrees_on_grid :
  forallb (fun a => forallb (agrees_with_SFdiv a) (map (Z.add 1) (range 150)))
          (map (Z.add (-75)) (range 300)) = true.
Proof. vm_compute. reflexivity. Qed.

Example int_true_div_agrees_on_samples :
  forallb (fun ab => agrees_with_SFdiv (fst ab) (snd ab))
          [(1001000000, 10 ^ 9); (2 ^ 53 - 1, 3); (2 ^ 53 - 1, 2 ^ 53 - 2);
           (1, 2 ^ 53 - 1); (- (2 ^ 52 + 1), 2 ^ 30); (2 ^ 53 - 1, 2 ^ 52);
           (3, 2 ^ 52 + 7); (987654321987654, 123456789); (1, 1000)] = true
  /\ int_true_div 5 (10 ^ 323) = Ok (S754_finite false 10 (-1074))
  /\ int_true_div (2 ^ 1024 - 2 ^ 970) 1 = Raise (Builtin PyOverflowError)
  /\ int_true_div (2 ^ 1024 - 2 ^ 970 - 1) 1
     = Ok (S754_finite false (2 ^ 53 - 1) 971)
  /\ int_true_div 0 (-5) = Ok (S754_zero true)
  /\ int_true_div 1 0 = Raise (Builtin PyZeroDivisionError).
Proof. vm_compute. repeat split. Qed.

(** [//] and [%] on floats. *)
Example float_divmod_samples :
  float_divmod (float_of_int 125) (float_of_int 60)
  = Ok (float_of_int 2, float_of_int 5)
  /\ float_divmod (float_of_int (-125)) (float_of_int 60)
     = Ok (float_of_int (-3), float_of_int 55)
  /\ float_divmod (S754_zero false) (float_of_int 60)
     = Ok (S754_zero false, S754_zero false).
Proof. vm_compute. repeat split. Qed.

(** The four precisions, and a negative frame number. *)
Example f2ts_samples :
  snd (f2ts 24 0 None ntsc_clip empty_world) = Ok "00:00:01"%string
  /\ snd (f2ts 24 6 None ntsc_clip empty_world) = Ok "00:00:01.001000"%string
  /\ snd (f2ts 24 9 None ntsc_clip empty_world) = Ok "00:00:01.001000000"%string
  /\ snd (f2ts 100000 3 None ntsc_clip empty_world) = Ok "01:09:30.833"%string
  /\ snd (f2ts (-24) 3 None ntsc_clip empty_world) = Ok "-1:59:58.999"%string
  /\ snd (f2ts 24 3 None (vfr_clip 2 24) empty_world) = Ok "00:00:01.000"%string
  /\ snd (f2ts 25 3 None (vfr_clip 2 24) empty_world) = Raise (Builtin PyIndexError)
  /\ snd (f2ts 2 3 (Some [None; Some (float_of_int 0); Some (float_of_int 42);
                          Some (float_of_int 83000)]) (vfr_clip 2 24) empty_world)
     = Ok "00:01:23.000"%string.
Proof. vm_compute. repeat split. Qed.

(** ** Frame-to-timestamp translator *)

Lemma builtin_only_Ok {A} (a : A) : builtin_only (Ok a).
Proof. intros e H. discriminate. Qed.

Lemma builtin_only_Raise {A} (c : pyclass) : builtin_only (@Raise A (Builtin c)).
Proof. intros e [= <-]. now exists c. Qed.

Lemma builtin_only_retype {A B} (e : exn) :
  builtin_only (@Raise A e) -> builtin_only (@Raise B e).
Proof. intros H e0 [= <-]. exact (H e eq_refl). Qed.

Lemma builtin_only_rbind {A B} (r : result A) (k : A -> result B) :
  builtin_only r -> (forall a, builtin_only (k a)) -> builtin_only (rbind r k).
Proof.
  intros Hr Hk e. destruct r as [a | e']; cbn [rbind].
  - apply Hk.
  - intros [= <-]. now apply Hr.
Qed.

Create HintDb builtin.
#[local] Hint Resolve builtin_only_Ok builtin_only_Raise : builtin.

Lemma builtin_only_int_true_div (a b : Z) : builtin_only (int_true_div a b).
Proof.
  unfold int_true_div. destruct (b =? 0); auto with builtin.
  destruct (round_to_float _ _); auto with builtin.
Qed.

Lemma builtin_only_round_float (x : float) : builtin_only (round_float x).
Proof. destruct x; cbn; auto with builtin. Qed.

Lemma builtin_only_getitem {A} (l : list A) (i : Z) : builtin_only (getitem l i).
Proof.
  unfold getitem. destruct (_ <? 0); auto with builtin.
  destruct (nth_error _ _); auto with builtin.
Qed.

Lemma builtin_only_map_result {A B} (f : A -> result B) (l : list A) :
  (forall a, builtin_only (f a)) -> builtin_only (map_result f l).
Proof.
  intros Hf. induction l as [| a l IH]; cbn [map_result]; auto with builtin.
  apply builtin_only_rbind; [apply Hf |]. intros b.
  apply builtin_only_rbind; [exact IH |]. auto with builtin.
Qed.

Lemma builtin_only_float_divmod (vx wx : float) : builtin_only (float_divmod vx wx).
Proof.
  unfold float_divmod. destruct (negb _); auto with builtin.
  destruct (if is_nonzero _ then _ else _). auto with builtin.
Qed.

Lemma builtin_only_float_floordiv (vx wx : float) : builtin_only (float_floordiv vx wx).
Proof.
  unfold float_floordiv.
  apply builtin_only_rbind; [apply builtin_only_float_divmod | auto with builtin].
Qed.

Lemma builtin_only_float_rem (vx wx : float) : builtin_only (float_rem vx wx).
Proof.
  unfold float_rem.
  apply builtin_only_rbind; [apply builtin_only_float_divmod | auto with builtin].
Qed.

Lemma builtin_only_split_hms (s : float) : builtin_only (split_hms s).
Proof.
  unfold split_hms.
  apply builtin_only_rbind; [apply builtin_only_float_floordiv | intros m].
  apply builtin_only_rbind; [apply builtin_only_float_rem | intros s'].
  apply builtin_only_rbind; [apply builtin_only_float_floordiv | intros h].
  apply builtin_only_rbind; [apply builtin_only_float_rem | intros m'].
  auto with builtin.
Qed.

Lemma builtin_only_format_timestamp (precision : Z) (h m s : float) :
  builtin_only (format_timestamp precision h m s).
Proof.
  unfold format_timestamp. destruct (precision =? 0).
  - apply builtin_only_rbind; [apply builtin_only_round_float | auto with builtin].
  - repeat destruct (precision =? _); auto with builtin.
Qed.

Lemma builtin_only_timecodes_step N fr tcs curr :
  builtin_only (timecodes_step N fr tcs curr).
Proof.
  unfold timecodes_step, float_of_Fraction, percentage.
  apply builtin_only_rbind.
  { unfold Fraction. destruct (_DurationDen fr); auto with builtin. }
  intros d. apply builtin_only_rbind; [apply builtin_only_int_true_div |].
  intros x. apply builtin_only_rbind; [| auto with builtin].
  apply builtin_only_rbind; [apply builtin_only_int_true_div |].
  intros q. apply builtin_only_round_float.
Qed.

Lemma builtin_only_timecodes_loop N frs :
  forall tcs curr init, builtin_only (snd (timecodes_loop N frs tcs curr init)).
Proof.
  induction frs as [| fr frs IH]; intros tcs curr init; cbn [timecodes_loop].
  - cbn. auto with builtin.
  - pose proof (builtin_only_timecodes_step N fr tcs curr) as Hs.
    destruct (timecodes_step N fr tcs curr) as [[[c t] p] | e];
      [| exact (builtin_only_retype e Hs)].
    destruct (_ && _).
    + specialize (IH t c p). destruct (timecodes_loop N frs t c p). exact IH.
    + apply IH.
Qed.

Lemma builtin_only_build_timecodes (clip : VideoNode) (w : world) :
  builtin_only (snd (build_timecodes clip w)).
Proof.
  unfold build_timecodes, bind, lift, call_frames, deque_new.
  destruct (_ <? 0); cbn [snd]; auto with builtin.
  pose proof (builtin_only_timecodes_loop (num_frames clip) (frames clip)
                (skipn (List.length [S754_zero false] - Z.to_nat (num_frames clip + 1))
                       [S754_zero false]) 0 0) as H.
  destruct (timecodes_loop _ _ _ _ _) as [out r].
  rewrite print_all_spec. exact H.
Qed.

Lemma builtin_only_clip_to_timecodes (clip : VideoNode) (w : world) :
  builtin_only (snd (clip_to_timecodes clip w)).
Proof.
  destruct (cache_find (node_id clip) (cache w)) as [v |] eqn:Hfind.
  - rewrite (clip_to_timecodes_hit clip w v Hfind). cbn. auto with builtin.
  - rewrite (clip_to_timecodes_miss clip w Hfind).
    pose proof (builtin_only_build_timecodes clip w) as H.
    destruct (build_timecodes clip w) as [w' [v | e]]; cbn [snd] in *; auto with builtin.
Qed.

Lemma precision_test (precision : Z) :
  existsb (Z.eqb precision) [0; 3; 6; 9] = true <-> In precision [0; 3; 6; 9].
Proof.
  rewrite existsb_exists. split.
  - intros (x & Hx & ->%Z.eqb_eq). exact Hx.
  - intros H. exists precision. split; [exact H | apply Z.eqb_refl].
Qed.

Lemma builtin_only_frame_seconds f tf clip w :
  builtin_only (snd (frame_seconds f tf clip w)).
Proof.
  unfold frame_seconds. destruct (negb _).
  - cbn [lift snd]. apply builtin_only_int_true_div.
  - destruct tf as [lines |].
    + cbn [lift snd]. apply builtin_only_rbind; [| intros; apply builtin_only_getitem].
      apply builtin_only_map_result. intros [v |]; auto with builtin.
    + unfold bind. pose proof (builtin_only_clip_to_timecodes clip w) as H.
      destruct (clip_to_timecodes clip w) as [w1 [t | e]]; cbn [snd] in *.
      * apply builtin_only_getitem.
      * exact (builtin_only_retype e H).
Qed.

(** With a valid precision, whatever [f2ts] raises comes from the
    interpreter. *)
Lemma builtin_only_f2ts f precision tf clip w :
  In precision [0; 3; 6; 9] -> builtin_only (snd (f2ts f precision tf clip w)).
Proof.
  intros Hp%precision_test. unfold f2ts. rewrite Hp. cbn [negb].
  unfold bind. pose proof (builtin_only_frame_seconds f tf clip w) as Hs.
  destruct (frame_seconds f tf clip w) as [w1 [s | e]]; cbn [snd] in *;
    [| exact (builtin_only_retype e Hs)].
  apply builtin_only_rbind; [apply builtin_only_split_hms |].
  intros [[h m] s']. apply builtin_only_format_timestamp.
Qed.

(** C6: [f2ts] raises the precision error exactly when the precision is not
    one of 0, 3, 6, 9; precision 4 raises it, a precision of the four never
    does. *)
Theorem C6_invalid_precision (f precision : Z) (timecodes_file : option timecodes_lines)
        (src_clip : VideoNode) (w : world) :
  (snd (f2ts f precision timecodes_file src_clip w) = Raise InvalidPrecisionError
   <-> ~ In precision [0; 3; 6; 9])
  /\ snd (f2ts f 4 timecodes_file src_clip w) = Raise InvalidPrecisionError.
Proof.
  split; [| reflexivity]. split.
  - intros Hraise Hin.
    destruct (builtin_only_f2ts f precision timecodes_file src_clip w Hin _ Hraise)
      as [c Hc].
    discriminate Hc.
  - intros Hnot. unfold f2ts.
    destruct (existsb (Z.eqb precision) [0; 3; 6; 9]) eqn:Hp; [| reflexivity].
    apply precision_test in Hp. contradiction.
Qed.

Lemma cfr_nanoseconds_eq (f : Z) (rate : Q) :
  cfr_nanoseconds f rate = round_fraction (inject_Z (10 ^ 9 * f) / rate).
Proof.
  unfold cfr_nanoseconds. apply round_fraction_proper. apply Qred_correct.
Qed.

Lemma frame_seconds_cfr f tf clip w :
  ~ (fps clip == 0)%Q ->
  frame_seconds f tf clip w = (w, cfr_seconds f (fps clip)).
Proof.
  intros Hfps. unfold frame_seconds.
  destruct (Qeq_bool (fps clip) 0) eqn:E; [| reflexivity].
  apply Qeq_bool_iff in E. contradiction.
Qed.

Lemma int_true_div_returns (a b : Z) :
  0 < b -> Z.abs a < b * 2 ^ (emax - 1) -> exists s, int_true_div a b = Ok s.
Proof.
  intros Hb Ha. unfold int_true_div.
  destruct (Z.eqb_spec b 0); [lia |].
  assert (Hf : is_finite (round_to_float (xorb (a <? 0) (b <? 0))
                                         (Z.abs a # Z.to_pos (Z.abs b))) = true).
  { apply round_to_float_finite.
    rewrite pow2_inject by (unfold emax; lia).
    set (P := 2 ^ (emax - 1)) in *.
    unfold Qlt, inject_Z, Qnum, Qden.
    rewrite Z2Pos.id, (Z.abs_eq b) by lia. lia. }
  destruct (round_to_float _ _); try discriminate; eauto.
Qed.

Lemma split_hms_returns (s : float) : exists hms, split_hms s = Ok hms.
Proof.
  unfold split_hms, float_floordiv, float_rem, float_divmod.
  change (negb (is_nonzero (float_of_int 60))) with false. cbv iota.
  repeat (match goal with
          | |- context [let '(_, _) := ?x in _] => destruct x
          end; cbn [rbind fst snd]).
  eauto.
Qed.

(** C3: on a clip of defined frame rate [f2ts] formats the float nearest to
    t / 10^9 seconds, where the int t is 10^9 * f / fps rounded to the
    nearest integer, ties to even: the table and the timecodes file are not
    consulted, and the process state is as before.  At 24000/1001 frames
    per second, frame 0 gives 00:00:00.000 and frame 24, for which t is
    1001000000, gives 00:00:01.001. *)
Theorem C3_cfr_timestamp :
  (forall (f precision : Z) (timecodes_file : option timecodes_lines)
          (src_clip : VideoNode) (w : world),
      ~ (fps src_clip == 0)%Q -> In precision [0; 3; 6; 9] ->
      let exact := (inject_Z (10 ^ 9 * f) / fps src_clip)%Q in
      let t := cfr_nanoseconds f (fps src_clip) in
      (forall z, Qabs (inject_Z t - exact) <= Qabs (inject_Z z - exact))%Q
      /\ ((Qabs (inject_Z t - exact) == 1 # 2)%Q -> Z.even t = true)
      /\ frame_seconds f timecodes_file src_clip w = (w, int_true_div t (10 ^ 9))
      /\ (forall s, int_true_div t (10 ^ 9) = Ok s ->
            is_finite s = true
            /\ (Qabs (SF2Q s - inject_Z t / inject_Z (10 ^ 9))
                <= pow2 (exponent_of (Z.abs t # Z.to_pos (10 ^ 9)) - 1))%Q)
      /\ f2ts f precision timecodes_file src_clip w =
         (w, s <- int_true_div t (10 ^ 9) ;;
             hms <- split_hms s ;;
             let '(h, m, s) := hms in format_timestamp precision h m s)
      /\ (precision <> 0 -> Z.abs t < 10 ^ 9 * 2 ^ (emax - 1) ->
          exists ts, snd (f2ts f precision timecodes_file src_clip w) = Ok ts))
  /\ snd (f2ts 0 3 None ntsc_clip empty_world) = Ok "00:00:00.000"%string
  /\ cfr_nanoseconds 24 (24000 # 1001) = 1001000000
  /\ snd (f2ts 24 3 None ntsc_clip empty_world) = Ok "00:00:01.001"%string.
Proof.
  split; [| repeat split].
  intros f precision tf clip w Hfps Hp exact t.
  assert (Ht : t = round_fraction exact) by apply cfr_nanoseconds_eq.
  assert (Hf2ts : f2ts f precision tf clip w =
                  (w, s <- int_true_div t (10 ^ 9) ;;
                      hms <- split_hms s ;;
                      let '(h, m, s) := hms in format_timestamp precision h m s)).
  { unfold f2ts. rewrite (proj2 (precision_test precision) Hp). cbn [negb].
    unfold bind. rewrite (frame_seconds_cfr f tf clip w Hfps).
    unfold cfr_seconds. fold t. destruct (int_true_div t (10 ^ 9)); reflexivity. }
  repeat split.
  - intros z. rewrite Ht. apply round_fraction_nearest.
  - rewrite Ht. apply round_fraction_tie.
  - apply frame_seconds_cfr, Hfps.
  - now destruct (int_true_div_spec _ _ _ H) as (_ & Hfin & _).
  - now destruct (int_true_div_spec _ _ _ H) as (_ & _ & Herr).
  - exact Hf2ts.
  - intros Hp0 Hb. rewrite Hf2ts. cbn [snd].
    destruct (int_true_div_returns t (10 ^ 9) ltac:(lia) Hb) as [s ->]. cbn [rbind].
    destruct (split_hms_returns s) as [[[h m] s'] ->]. cbn [rbind].
    unfold format_timestamp.
    destruct (Z.eqb_spec precision 0); [contradiction |].
    repeat destruct (precision =? _); eauto.
Qed.

Lemma C3_cfr_timestamp_witness :
  f2ts 100000 3 None ntsc_clip empty_world
  = (empty_world, Ok "01:09:30.833"%string).
Proof.
  destruct C3_cfr_timestamp as (H & _).
  destruct (H 100000 3 None ntsc_clip empty_world) as (_ & _ & _ & _ & Heq & _).
  - discriminate.
  - cbn. tauto.
  - rewrite Heq. vm_compute. reflexivity.
Defined.

(** ** The public entry point *)

Lemma bind_Ok {A B} (m : M A) (k : A -> M B) (w w' : world) (b : B) :
  bind m k w = (w', Ok b) ->
  exists w1 a, m w = (w1, Ok a) /\ k a w1 = (w', Ok b).
Proof.
  unfold bind. destruct (m w) as [w1 [a | e]]; [eauto | discriminate].
Qed.

Section EztrimFacts.

Variable tail_env : Type.
Variable check_files : M tail_env.
Variable run_ffmpeg : tail_env -> list string -> list string -> M unit.
Variable clip : VideoNode.
Variable timecodes_file : option timecodes_lines.

Lemma eztrim_unwraps_debug (t : list elem) (w : world) :
  eztrim tail_env check_files run_ffmpeg clip (T_list [I_tuple t]) timecodes_file true w
  = eztrim tail_env check_files run_ffmpeg clip (T_tuple t) timecodes_file true (fst (warn one_tuple_warning w)).
Proof. reflexivity. Qed.

Lemma eztrim_unwraps (t : list elem) (w : world) :
  eztrim tail_env check_files run_ffmpeg clip (T_list [I_tuple t]) timecodes_file false w
  = eztrim tail_env (check_files_then_warn check_files) run_ffmpeg clip
           (T_tuple t) timecodes_file false w.
Proof.
  unfold check_files_then_warn, eztrim, bind.
  destruct (check_files w) as [w' [env | e]]; reflexivity.
Qed.

Lemma eztrim_not_a_tuple_debug (w : world) :
  eztrim tail_env check_files run_ffmpeg clip (T_list [I_other]) timecodes_file true w
  = (fst (warn one_tuple_warning w), Raise (TypeShapeError PyValueError)).
Proof. reflexivity. Qed.

Lemma eztrim_not_a_tuple (w w' : world) (env : tail_env) :
  check_files w = (w', Ok env) ->
  eztrim tail_env check_files run_ffmpeg clip (T_list [I_other]) timecodes_file false w
  = (fst (warn one_tuple_warning w'), Raise (TypeShapeError PyValueError)).
Proof.
  intros H. unfold eztrim, bind. rewrite H. reflexivity.
Qed.

(** In debug mode a single tuple, bare or unwrapped, returns the
    single-trim shape: two ints and two lists of one timestamp. *)
Lemma eztrim_single_shape (t : list elem) (w : world) (d : debug_dict) :
  snd (eztrim tail_env check_files run_ffmpeg clip (T_tuple t) timecodes_file true w) = Ok (Some d) ->
  exists a b s e ts_s ts_e,
    t = [a; b]
    /\ _negative_to_positive (num_frames clip) (arg_of_elem a) (arg_of_elem b)
       = Ok (Out_ints s e)
    /\ s < e
    /\ d = {| d_s_e := Out_ints s e; d_cut_ts_s := [ts_s]; d_cut_ts_e := [ts_e] |}.
Proof.
  destruct (eztrim tail_env check_files run_ffmpeg clip (T_tuple t) timecodes_file true w)
  as [w' r] eqn:Hcall.
  cbn [snd]. intros ->. unfold eztrim in Hcall.
  apply bind_Ok in Hcall as (w1 & env & [= <- <-] & Hcall).
  apply bind_Ok in Hcall as (w2 & trims & [= <- <-] & Hcall).
  apply bind_Ok in Hcall as (w3 & trims' & Harity & Hcall).
  apply bind_Ok in Hcall as (w4 & [[r cut_s] cut_e] & Hcut & [= <- <-]).
  cbn [check_arity] in Harity.
  destruct t as [| a [| b [| c t]]]; try discriminate.
  2:{ replace (len (a :: b :: c :: t) =? 2) with false in Harity; [discriminate |].
      symmetry. apply Z.eqb_neq. unfold len. cbn [List.length]. lia. }
  injection Harity as <- <-. cbn [cut_timestamps nth] in Hcut.
  apply bind_Ok in Hcut as (w5 & r' & Hn & Hcut).
  unfold lift in Hn. injection Hn as <- Hn.
  destruct r' as [s e | ss es]; [| discriminate].
  destruct (Z.leb_spec e s) as [| Hlt]; [discriminate |].
  apply bind_Ok in Hcut as (w6 & ts_s & _ & Hcut).
  apply bind_Ok in Hcut as (w7 & ts_e & _ & [= <- <- <- <-]).
  exists a, b, s, e, ts_s, ts_e. auto.
Qed.

End EztrimFacts.

(** C10: a list holding a single element that is not a tuple raises a
    ValueError, after the warning.  A list holding a single tuple is
    unwrapped: the call is the call on the bare tuple, made once the warning
    has been issued (right away in debug mode, after the file checks
    otherwise); and what debug mode then returns has the shape of a single
    trim, two ints and two lists of one timestamp each. *)
Theorem C10_list_of_one_tuple (tail_env : Type) (check_files : M tail_env)
        (run_ffmpeg : tail_env -> list string -> list string -> M unit)
        (clip : VideoNode) (timecodes_file : option timecodes_lines) (w : world) :
  let call := eztrim tail_env check_files run_ffmpeg clip in
  let warned := fun w => fst (warn one_tuple_warning w) in
  (exists e, call (T_list [I_other]) timecodes_file true w = (warned w, Raise e)
             /\ class_of e = PyValueError)
  /\ (forall w' env, check_files w = (w', Ok env) ->
      exists e, call (T_list [I_other]) timecodes_file false w = (warned w', Raise e)
                /\ class_of e = PyValueError)
  /\ (forall t, call (T_list [I_tuple t]) timecodes_file true w
                = call (T_tuple t) timecodes_file true (warned w))
  /\ (forall t, call (T_list [I_tuple t]) timecodes_file false w
                = eztrim tail_env (check_files_then_warn check_files)
                         run_ffmpeg clip (T_tuple t) timecodes_file false w)
  /\ (forall t d, snd (call (T_list [I_tuple t]) timecodes_file true w) = Ok (Some d) ->
      exists a b s e ts_s ts_e,
        t = [a; b]
        /\ _negative_to_positive (num_frames clip) (arg_of_elem a) (arg_of_elem b)
           = Ok (Out_ints s e)
        /\ d = {| d_s_e := Out_ints s e; d_cut_ts_s := [ts_s]; d_cut_ts_e := [ts_e] |})
  /\ warnings (warned w) = (warnings w ++ [one_tuple_warning])%list
  /\ cache (warned w) = cache w
  /\ stdout (warned w) = stdout w
  /\ frames_calls (warned w) = frames_calls w.
Proof.
  intros call warned.
  split; [| split; [| split; [| split; [| split; [| repeat split]]]]].
  - exists (TypeShapeError PyValueError). split; [| reflexivity].
    apply eztrim_not_a_tuple_debug.
  - intros w' env Hfiles. exists (TypeShapeError PyValueError). split; [| reflexivity].
    eapply eztrim_not_a_tuple, Hfiles.
  - intros t. apply eztrim_unwraps_debug.
  - intros t. apply eztrim_unwraps.
  - intros t d Hd. unfold call in Hd. rewrite eztrim_unwraps_debug in Hd.
    destruct (eztrim_single_shape _ _ _ _ _ _ _ _ Hd)
      as (a & b & s & e & ts_s & ts_e & Ht & Hn & _ & Hdict).
    exists a, b, s, e, ts_s, ts_e. auto.
Qed.

Lemma C10_list_of_one_tuple_witness :
  snd (eztrim unit (ret tt) (fun _ _ _ => ret tt) ntsc_clip
              (T_list [I_tuple [E_int (Some 5); E_int (Some (-2))]]) None true
              empty_world)
  = Ok (Some {| d_s_e := Out_ints 5 98;
                d_cut_ts_s := ["00:00:00.209"%string];
                d_cut_ts_e := ["00:00:04.087"%string] |}).
Proof.
  destruct (C10_list_of_one_tuple unit (ret tt) (fun _ _ _ => ret tt) ntsc_clip None
                                  empty_world) as (_ & _ & H & _).
  rewrite (H [E_int (Some 5); E_int (Some (-2))]). vm_compute. reflexivity.
Defined.


(** * Further properties *)

(** ** Index normaliser: range, slices, idempotence *)

Lemma normalize1_Ok (N : Z) (a b : option Z) (s e : Z) :
  normalize1 N a b = Ok (Out_ints s e) ->
  in_bounds N a /\ in_bounds N b
  /\ s = positive_start N (or0 a) /\ e = positive_end N (or0 b).
Proof.
  rewrite normalize1_eq. destruct (_ || _) eqn:Hb; [discriminate |].
  apply out_of_bounds_test in Hb. intros [= <- <-]. tauto.
Qed.

Lemma normalize_batch_Ok (N : Z) (a b : list (option Z)) (ss es : list Z) :
  normalize_batch N a b = Ok (Out_lists ss es) ->
  List.length a = List.length b
  /\ Forall (in_bounds N) a /\ Forall (in_bounds N) b
  /\ ss = map (positive_start N) (map or0 a)
  /\ es = map (positive_end N) (map or0 b).
Proof.
  rewrite normalize_batch_eq.
  destruct (len a =? len b) eqn:Hlen; [| discriminate]. cbn [negb].
  destruct (forallb _ (map or0 a)) eqn:Ha; [| discriminate].
  destruct (forallb _ (map or0 b)) eqn:Hb; [| discriminate].
  cbn [andb negb]. intros [= <- <-].
  apply len_eqb_length in Hlen. apply bounds_forallb in Ha, Hb. tauto.
Qed.

Lemma positive_start_range (N x : Z) :
  Z.abs x <= N -> 0 <= positive_start N x <= N /\ (positive_start N x = N -> x = N).
Proof. unfold positive_start. destruct (Z.geb_spec x 0); lia. Qed.

Lemma positive_end_range (N y : Z) :
  Z.abs y <= N -> 0 <= positive_end N y <= N /\ (positive_end N y = 0 -> y = - N).
Proof. unfold positive_end. destruct (Z.gtb_spec y 0); lia. Qed.

Lemma normalize_batch_range (N : Z) (a b : list (option Z)) (ss es : list Z) :
  normalize_batch N a b = Ok (Out_lists ss es) ->
  Forall (fun s => 0 <= s <= N) ss /\ Forall (fun e => 0 <= e <= N) es.
Proof.
  intros (_ & Ha & Hb & -> & ->)%normalize_batch_Ok.
  rewrite !Forall_map. split; (eapply Forall_impl; [| eassumption]); cbn beta;
    intros i Hi.
  - apply positive_start_range, Hi.
  - apply positive_end_range, Hi.
Qed.

(** X1: whatever the normaliser returns lies in the clip: every start and
    every end is between 0 and N; a start is N only if N itself was given,
    an end is 0 only if -N was given. *)
Theorem normalized_indices_in_clip (N : Z) :
  (forall a b s e,
      normalize1 N a b = Ok (Out_ints s e) ->
      0 <= s <= N /\ 0 <= e <= N
      /\ (s = N -> or0 a = N) /\ (e = 0 -> or0 b = - N))
  /\ (forall a b ss es,
        normalize_batch N a b = Ok (Out_lists ss es) ->
        Forall (fun s => 0 <= s <= N) ss /\ Forall (fun e => 0 <= e <= N) es).
Proof.
  split.
  - intros a b s e (Ha & Hb & -> & ->)%normalize1_Ok.
    destruct (positive_start_range N (or0 a) Ha), (positive_end_range N (or0 b) Hb).
    tauto.
  - intros a b ss es. apply normalize_batch_range.
Qed.

Lemma normalized_indices_in_clip_witness :
  normalize1 100 (Some (-10)) (Some (-5)) = Ok (Out_ints 90 95)
  /\ 0 <= 90 <= 100 /\ 0 <= 95 <= 100.
Proof.
  destruct (normalized_indices_in_clip 100) as (H & _).
  destruct (H (Some (-10)) (Some (-5)) 90 95 eq_refl) as (Hs & He & _).
  split; [reflexivity | split; assumption].
Defined.

(** X2: within bounds the normaliser computes the indices of the Python
    slice [a:b] on a sequence of N items, except for an end given as 0,
    which it reads as the end of the clip where the slice stops at 0. *)
Theorem normalize_follows_slicing (N : Z) (a b : option Z) (s e : Z) :
  normalize1 N a b = Ok (Out_ints s e) ->
  s = fst (slice_indices N a b)
  /\ (b <> Some 0 -> e = snd (slice_indices N a b))
  /\ (b = Some 0 -> e = N /\ snd (slice_indices N a b) = 0).
Proof.
  intros (Ha & Hb & -> & ->)%normalize1_Ok.
  unfold in_bounds in *. unfold slice_indices, slice_index, positive_start, positive_end.
  cbn [fst snd]. split; [| split].
  - destruct a as [x |]; [rewrite or0_Some in * |]; cbn.
    + destruct (Z.geb_spec x 0), (Z.ltb_spec x 0); lia.
    + reflexivity.
  - intros Hb0. destruct b as [y |]; [rewrite or0_Some in * |]; cbn.
    + assert (y <> 0) by congruence.
      destruct (Z.gtb_spec y 0), (Z.ltb_spec y 0); lia.
    + lia.
  - intros ->. cbn in *. lia.
Qed.

Lemma normalize_follows_slicing_witness :
  fst (slice_indices 100 (Some 50) (Some (-20))) = 50
  /\ snd (slice_indices 100 (Some 50) (Some (-20))) = 80.
Proof.
  destruct (normalize_follows_slicing 100 (Some 50) (Some (-20)) 50 80 eq_refl)
    as (Hs & He & _).
  split; [symmetry; exact Hs | symmetry; apply He; discriminate].
Defined.

(** X3: normalising twice changes nothing, unless the end came out as 0
    (from -N), which a second pass reads as the end of the clip. *)
Theorem normalize_idempotent (N : Z) (a b : option Z) (s e : Z) :
  normalize1 N a b = Ok (Out_ints s e) ->
  (e <> 0 -> normalize1 N (Some s) (Some e) = Ok (Out_ints s e))
  /\ (e = 0 -> normalize1 N (Some s) (Some e) = Ok (Out_ints s N)).
Proof.
  intros Hn.
  pose proof Hn as (Ha & Hb & Es & Ee)%normalize1_Ok.
  destruct (positive_start_range _ _ Ha) as [Hs _].
  destruct (positive_end_range _ _ Hb) as [He _].
  rewrite <- Es in Hs. rewrite <- Ee in He. clear Es Ee.
  rewrite normalize1_eq.
  rewrite (proj2 (out_of_bounds_test N (Some s) (Some e)))
    by (unfold in_bounds; rewrite !or0_Some; lia).
  rewrite !or0_Some. unfold positive_start, positive_end.
  destruct (Z.geb_spec s 0); [| lia].
  split; intros H0.
  - destruct (Z.gtb_spec e 0); [reflexivity | lia].
  - subst e. cbn. do 2 f_equal. lia.
Qed.

Lemma normalize_idempotent_witness :
  normalize1 100 (Some 90) (Some 95) = Ok (Out_ints 90 95).
Proof.
  destruct (normalize_idempotent 100 (Some (-10)) (Some (-5)) 90 95 eq_refl) as (H & _).
  apply H. lia.
Defined.

(** ** Range validator: all pairs, ragged lists *)

Lemma all_gen_true {A} (p : A -> result bool) (xs : list A) :
  all_gen p xs = Ok true -> forall x, In x xs -> p x = Ok true.
Proof.
  induction xs as [| y xs IH]; cbn [all_gen]; [intros _ x [] |].
  destruct (p y) as [[|] | e] eqn:Hy; try discriminate.
  intros H x [<- | Hx]; [exact Hy | now apply IH].
Qed.

Lemma all_gen_raise {A} (p : A -> result bool) (xs : list A) (e : exn) :
  all_gen p xs = Raise e -> exists x, In x xs /\ p x = Raise e.
Proof.
  induction xs as [| y xs IH]; cbn [all_gen]; [discriminate |].
  destruct (p y) as [[|] | e'] eqn:Hy; try discriminate.
  - intros (x & Hx & Hp)%IH. exists x. split; [now right | exact Hp].
  - intros [= ->]. exists y. split; [now left | exact Hy].
Qed.

Lemma all_gen_ext {A} (p p' : A -> result bool) (xs : list A) :
  (forall x, In x xs -> p x = p' x) -> all_gen p xs = all_gen p' xs.
Proof.
  induction xs as [| y xs IH]; intros H; cbn [all_gen]; [reflexivity |].
  rewrite <- (H y) by now left.
  destruct (p y) as [[|] | e]; try reflexivity.
  apply IH. intros x Hx. apply H. now right.
Qed.

Lemma getitem_raise {A} (l : list A) (i : Z) (e : exn) :
  getitem l i = Raise e -> e = Builtin PyIndexError.
Proof.
  unfold getitem. destruct (_ <? 0); [congruence |].
  destruct (nth_error _ _); congruence.
Qed.

Lemma in_range (n : nat) (i : Z) :
  In i (map Z.of_nat (seq 0 n)) <-> exists k, i = Z.of_nat k /\ (k < n)%nat.
Proof.
  rewrite in_map_iff. split.
  - intros (k & <- & Hk%in_seq). exists k. split; [reflexivity | lia].
  - intros (k & -> & Hk). exists k. split; [reflexivity | apply in_seq; lia].
Qed.

(** What a True answer of the validator implies, position by position. *)
Lemma check_ordered_true (starts ends : list Z) :
  _check_ordered starts ends = Ok true ->
  (List.length starts <= List.length ends)%nat
  /\ (forall n, (n < List.length starts)%nat -> nth n starts 0 < nth n ends 0)
  /\ (forall n, (S n < List.length starts)%nat -> nth n ends 0 < nth (S n) starts 0).
Proof.
  unfold _check_ordered. rewrite range_len, range_len_pred.
  destruct (all_gen _ (map Z.of_nat (seq 0 (List.length starts))))
    as [[|] | e] eqn:H1; try discriminate.
  cbn [rbind negb].
  destruct (all_gen _ (map Z.of_nat (seq 0 (List.length starts - 1))))
    as [[|] | e] eqn:H2; try discriminate.
  intros _.
  pose proof (all_gen_true _ _ H1) as P1. pose proof (all_gen_true _ _ H2) as P2.
  assert (Hpair : forall n, (n < List.length starts)%nat ->
                    (n < List.length ends)%nat /\ nth n starts 0 < nth n ends 0).
  { intros n Hn. specialize (P1 (Z.of_nat n)). cbn beta in P1.
    rewrite !getitem_of_nat in P1.
    rewrite (nth_error_nth' starts 0 Hn) in P1. cbn [rbind] in P1.
    destruct (nth_error ends n) as [e |] eqn:He.
    - split; [apply nth_error_Some; congruence |].
      rewrite (nth_error_nth _ _ 0 He).
      specialize (P1 ltac:(apply in_range; eauto)). cbn [rbind] in P1.
      injection P1 as P1. now apply Z.ltb_lt.
    - specialize (P1 ltac:(apply in_range; eauto)). discriminate. }
  repeat split.
  - destruct (List.length starts) as [| L] eqn:HL; [lia |].
    destruct (Hpair L ltac:(lia)). lia.
  - intros n Hn. apply Hpair, Hn.
  - intros n Hn. specialize (P2 (Z.of_nat n) ltac:(apply in_range; exists n; split; [reflexivity | lia])).
    cbn beta in P2.
    replace (Z.of_nat n + 1) with (Z.of_nat (S n)) in P2 by lia.
    rewrite !getitem_of_nat in P2.
    destruct (Hpair n ltac:(lia)) as [Hne _].
    rewrite (nth_error_nth' ends 0 Hne), (nth_error_nth' starts 0 Hn) in P2.
    cbn [rbind] in P2. injection P2 as P2. now apply Z.ltb_lt.
Qed.

(** An end is below the start of every later range, by the chain of
    neighbours in between. *)
Lemma check_ordered_chain (starts ends : list Z) (i j : nat) :
  _check_ordered starts ends = Ok true ->
  (i < j < List.length starts)%nat -> nth i ends 0 < nth j starts 0.
Proof.
  intros (Hlen & Hpair & Hgap)%check_ordered_true Hij.
  assert (Hchain : forall d, (S (i + d) < List.length starts)%nat ->
                     nth i ends 0 < nth (S (i + d)) starts 0).
  { induction d as [| d IH]; intros Hd.
    - rewrite Nat.add_0_r in *. apply Hgap, Hd.
    - specialize (IH ltac:(lia)).
      pose proof (Hpair (S (i + d)) ltac:(lia)).
      pose proof (Hgap (S (i + d)) ltac:(lia)).
      replace (i + S d)%nat with (S (i + d)) by lia. lia. }
  replace j with (S (i + (j - i - 1)))%nat by lia. apply Hchain. lia.
Qed.



Lemma check_ordered_raise (starts ends : list Z) (e : exn) :
  _check_ordered starts ends = Raise e -> e = Builtin PyIndexError.
Proof.
  unfold _check_ordered.
  assert (Hp : forall (p : Z -> result bool) xs,
             (forall x e', p x = Raise e' -> e' = Builtin PyIndexError) ->
             all_gen p xs = Raise e -> e = Builtin PyIndexError).
  { intros p xs Hp (x & _ & Hx)%all_gen_raise. eapply Hp, Hx. }
  assert (Hitem : forall (l l' : list Z) i i' (c : Z -> Z -> bool) e',
             (a <- getitem l i ;; b <- getitem l' i' ;; Ok (c a b)) = Raise e' ->
             e' = Builtin PyIndexError).
  { intros l l' i i' c e'.
    destruct (getitem l i) eqn:H1; cbn [rbind]; [| intros [= <-]; eapply getitem_raise, H1].
    destruct (getitem l' i') eqn:H2; cbn [rbind]; [discriminate |].
    intros [= <-]. eapply getitem_raise, H2. }
  destruct (all_gen _ (range (len starts))) as [[|] | e1] eqn:H1; cbn [rbind negb].
  - destruct (all_gen _ (range (len starts - 1))) as [[|] | e2] eqn:H2;
      cbn [rbind negb]; try discriminate.
    intros [= <-]. eapply Hp, H2. intros x e'. apply Hitem.
  - discriminate.
  - intros [= <-]. eapply Hp, H1. intros x e'. apply Hitem.
Qed.

(** X5: ragged lists.  With fewer ends than starts the validator never
    answers True: it answers False or raises IndexError.  Ends beyond the
    number of starts are never looked at. *)
Theorem check_ordered_ragged (starts ends : list Z) :
  ((List.length ends < List.length starts)%nat ->
   _check_ordered starts ends = Ok false
   \/ _check_ordered starts ends = Raise (Builtin PyIndexError))
  /\ ((List.length starts <= List.length ends)%nat ->
      _check_ordered starts ends
      = _check_ordered starts (firstn (List.length starts) ends)).
Proof.
  split.
  - intros Hlen. destruct (_check_ordered starts ends) as [[|] | e] eqn:H.
    + apply check_ordered_true in H. lia.
    + now left.
    + right. f_equal. eapply check_ordered_raise, H.
  - intros Hlen. unfold _check_ordered. rewrite range_len, range_len_pred.
    assert (Hget : forall n, (n < List.length starts)%nat ->
                     getitem ends (Z.of_nat n)
                     = getitem (firstn (List.length starts) ends) (Z.of_nat n)).
    { intros n Hn. rewrite !getitem_of_nat, nth_error_firstn.
      destruct (Nat.ltb_spec n (List.length starts)); [reflexivity | lia]. }
    rewrite (all_gen_ext _ (fun i => s <- getitem starts i ;;
                                     e <- getitem (firstn (List.length starts) ends) i ;;
                                     Ok (s <? e))
                         (map Z.of_nat (seq 0 (List.length starts)))).
    2:{ intros x (n & -> & Hn)%in_range. now rewrite Hget. }
    destruct (all_gen _ _) as [[|] | e]; cbn [rbind negb]; try reflexivity.
    rewrite (all_gen_ext _ (fun i => e <- getitem (firstn (List.length starts) ends) i ;;
                                     s <- getitem starts (i + 1) ;;
                                     Ok (e <? s))
                         (map Z.of_nat (seq 0 (List.length starts - 1)))).
    2:{ intros x (n & -> & Hn)%in_range. rewrite Hget by lia. reflexivity. }
    reflexivity.
Qed.

Lemma check_ordered_ragged_witness :
  _check_ordered [0; 6] [5] = Raise (Builtin PyIndexError)
  /\ _check_ordered [0; 6] [5; 10; 3] = _check_ordered [0; 6] [5; 10].
Proof.
  destruct (check_ordered_ragged [0; 6] [5]) as (H1 & _).
  destruct (check_ordered_ragged [0; 6] [5; 10; 3]) as (_ & H2).
  split.
  - destruct (H1 ltac:(cbn; lia)) as [H | H]; [discriminate H | exact H].
  - apply H2. cbn. lia.
Defined.

(** ** The public entry point: results and errors *)

Lemma bind_Raise {A B} (m : M A) (k : A -> M B) (w w' : world) (e : exn) :
  bind m k w = (w', Raise e) ->
  m w = (w', Raise e) \/ exists w1 a, m w = (w1, Ok a) /\ k a w1 = (w', Raise e).
Proof.
  unfold bind. destruct (m w) as [w1 [a | e']].
  - intros H. right. eauto.
  - intros [= <- <-]. now left.
Qed.

Lemma map_result_length {A B} (f : A -> result B) (l : list A) (l' : list B) :
  map_result f l = Ok l' -> List.length l' = List.length l.
Proof.
  revert l'. induction l as [| x l IH]; intros l'; cbn [map_result].
  - intros [= <-]. reflexivity.
  - destruct (f x); [| discriminate]. cbn [rbind].
    destruct (map_result f l); [| discriminate]. cbn [rbind].
    intros [= <-]. cbn. f_equal. now apply IH.
Qed.

Lemma map_result_raise {A B} (f : A -> result B) (l : list A) (e : exn) :
  map_result f l = Raise e -> exists x, In x l /\ f x = Raise e.
Proof.
  induction l as [| x l IH]; cbn [map_result]; [discriminate |].
  destruct (f x) eqn:Hx; cbn [rbind].
  - destruct (map_result f l); cbn [rbind]; [discriminate |].
    intros [= <-]. destruct (IH eq_refl) as (y & Hy & Hf). exists y. split; [now right | exact Hf].
  - intros [= <-]. exists x. split; [now left | exact Hx].
Qed.

Lemma mapM_length {A B} (f : A -> M B) (l : list A) :
  forall (w w' : world) (ys : list B),
    mapM f l w = (w', Ok ys) -> List.length ys = List.length l.
Proof.
  induction l as [| x l IH]; intros w w' ys; cbn [mapM].
  - intros [= <- <-]. reflexivity.
  - intros (w1 & y & _ & H)%bind_Ok.
    apply bind_Ok in H as (w2 & ys' & Hys & [= <- <-]).
    cbn. f_equal. eapply IH, Hys.
Qed.

(** The parts of the state that timestamps can touch. *)
Lemma check_trims_effects (trims : trims_arg) (w : world) :
  cache (fst (check_trims trims w)) = cache w
  /\ stdout (fst (check_trims trims w)) = stdout w
  /\ frames_calls (fst (check_trims trims w)) = frames_calls w.
Proof.
  destruct trims as [t | [| x [| y l]] |]; cbn [check_trims];
    try (cbn; tauto).
  - unfold bind, warn. destruct x; cbn; tauto.
  - unfold bind, lift. destruct (map_result _ _); cbn; tauto.
Qed.

Lemma check_trims_raise (trims : trims_arg) (w w' : world) (e : exn) :
  check_trims trims w = (w', Raise e) -> exists c, e = TypeShapeError c.
Proof.
  destruct trims as [t | l |]; cbn [check_trims].
  - discriminate.
  - assert (Hl : forall w0 w1, (l' <~ lift (map_result check_trim l) ;; ret (Batch l')) w0
                               = (w1, Raise e) -> exists c, e = TypeShapeError c).
    { intros w0 w1. unfold bind, lift.
      destruct (map_result check_trim l) eqn:Hm; [discriminate |].
      intros [= <- <-]. apply map_result_raise in Hm as (x & _ & Hx).
      destruct x as [[| a [| b [| c t]]] |]; cbn in Hx; try (injection Hx as <-; eauto).
      destruct a, b; try discriminate; injection Hx as <-; eauto. }
    destruct l as [| x [| y l]]; try apply Hl.
    unfold bind, warn. destruct x; cbn; [discriminate |]. intros [= <- <-]. eauto.
  - intros [= <- <-]. eauto.
Qed.

Lemma check_arity_spec (trims : checked_trims) (w w' : world) (r : result checked_trims) :
  check_arity trims w = (w', r) ->
  w' = w /\ (r = Ok trims \/ r = Raise (TypeShapeError PyValueError)).
Proof.
  destruct trims as [t | l]; cbn [check_arity].
  - destruct (negb _); intros [= <- <-]; auto.
  - intros [= <- <-]. auto.
Qed.

(** The normaliser as [eztrim] calls it never reports a length mismatch:
    the two arguments are both scalars or two lists made from the same
    pairs. *)
Lemma normalize_elems_raise (N : Z) (a b : elem) (e : exn) :
  _negative_to_positive N (arg_of_elem a) (arg_of_elem b) = Raise e ->
  e = OutOfRangeError \/ e = Builtin PyTypeError.
Proof.
  destruct a as [x |], b as [y |]; cbn [arg_of_elem];
    try (cbn; intros [= <-]; now right).
  fold (normalize1 N x y). rewrite normalize1_eq.
  destruct (_ || _); [| discriminate]. intros [= <-]. now left.
Qed.

Lemma normalize_pairs_raise (N : Z) (l : list (option Z * option Z)) (e : exn) :
  _negative_to_positive N (In_list (map fst l)) (In_list (map snd l)) = Raise e ->
  e = OutOfRangeError.
Proof.
  fold (normalize_batch N (map fst l) (map snd l)). rewrite normalize_batch_eq.
  rewrite (proj2 (len_eqb_length (map fst l) (map snd l))) by now rewrite !length_map.
  cbn [negb]. destruct (negb _); [| discriminate]. now intros [= <-].
Qed.

Lemma mapM_f2ts_raise (tf : option timecodes_lines) (clip : VideoNode) (fs : list Z) :
  forall (w w' : world) (e : exn),
    mapM (fun f => f2ts f 3 tf clip) fs w = (w', Raise e) -> exists c, e = Builtin c.
Proof.
  induction fs as [| f fs IH]; intros w w' e; cbn [mapM]; [discriminate |].
  intros [H | (w1 & y & _ & H)]%bind_Raise.
  - eapply (builtin_only_f2ts f 3 tf clip w); [cbn; tauto |]. now rewrite H.
  - apply bind_Raise in H as [H | (w2 & ys & _ & H)]; [eapply IH, H | discriminate].
Qed.

(** What [cut_timestamps] does when it raises: a validation error (out of
    bounds, not logical) comes before any timestamp is computed, with the
    state untouched; anything else comes from the interpreter. *)
Lemma cut_timestamps_raise (clip : VideoNode) (tf : option timecodes_lines)
      (trims : checked_trims) (w w' : world) (e : exn) :
  cut_timestamps clip tf trims w = (w', Raise e) ->
  ((e = OutOfRangeError \/ e = IllogicalTrimError) /\ w' = w)
  \/ exists c, e = Builtin c.
Proof.
  destruct trims as [t | l]; cbn [cut_timestamps].
  - intros [H | (w1 & r & Hn & H)]%bind_Raise.
    + unfold lift in H. injection H as <- H.
      apply normalize_elems_raise in H as [-> | ->]; [left; auto | right; eauto].
    + unfold lift in Hn. injection Hn as <- _.
      destruct r as [s e0 | ss es]; [| injection H as <- <-; right; eauto].
      destruct (e0 <=? s); [injection H as <- <-; left; auto |].
      right.
      apply bind_Raise in H as [H | (w2 & ts_s & _ & H)].
      * eapply (builtin_only_f2ts s 3 tf clip w); [cbn; tauto |]. now rewrite H.
      * apply bind_Raise in H as [H | (w3 & ts_e & _ & H)]; [| discriminate].
        eapply (builtin_only_f2ts e0 3 tf clip w2); [cbn; tauto |]. now rewrite H.
  - intros [H | (w1 & r & Hn & H)]%bind_Raise.
    + unfold lift in H. injection H as <- H.
      apply normalize_pairs_raise in H as ->. left; auto.
    + unfold lift in Hn. injection Hn as <- _.
      destruct r as [s e0 | ss es]; [injection H as <- <-; right; eauto |].
      apply bind_Raise in H as [H | (w2 & ordered & Ho & H)].
      * unfold lift in H. injection H as <- H.
        apply check_ordered_raise in H as ->. right; eauto.
      * unfold lift in Ho. injection Ho as <- _.
        destruct ordered; [| injection H as <- <-; left; auto].
        right.
        apply bind_Raise in H as [H | (w3 & cs & _ & H)]; [eapply mapM_f2ts_raise, H |].
        apply bind_Raise in H as [H | (w4 & ce & _ & H)]; [eapply mapM_f2ts_raise, H |].
        discriminate.
Qed.

(** X6: errors of a debug-mode call.  It never reports a length mismatch
    or an invalid precision.  A shape, bounds or logic error is raised
    before any timestamp is computed: nothing is cached, printed or
    iterated. *)
Theorem eztrim_debug_errors (clip : VideoNode) (trims : trims_arg)
        (timecodes_file : option timecodes_lines) (w : world) (e : exn) :
  snd (eztrim_debug clip trims timecodes_file w) = Raise e ->
  e <> LengthMismatchError /\ e <> InvalidPrecisionError
  /\ ((forall c, e <> Builtin c) ->
      let w' := fst (eztrim_debug clip trims timecodes_file w) in
      cache w' = cache w /\ stdout w' = stdout w /\ frames_calls w' = frames_calls w).
Proof.
  destruct (eztrim_debug clip trims timecodes_file w) as [w' r] eqn:Hcall.
  cbn [fst snd]. intros ->. unfold eztrim_debug, eztrim in Hcall.
  apply bind_Raise in Hcall as [H | (w0 & env & [= <- <-] & Hcall)]; [discriminate |].
  destruct (check_trims_effects trims w) as (E1 & E2 & E3).
  apply bind_Raise in Hcall as [H | (w1 & t1 & Ht & Hcall)].
  { destruct (check_trims_raise _ _ _ _ H) as [c ->]. rewrite H in *. cbn [fst] in *.
    repeat split; try discriminate; assumption. }
  rewrite Ht in *. cbn [fst] in *.
  apply bind_Raise in Hcall as [H | (w2 & t2 & Ha & Hcall)].
  { destruct (check_arity_spec _ _ _ _ H) as [-> [? | [= ->]]]; [discriminate |].
    repeat split; try discriminate; assumption. }
  destruct (check_arity_spec _ _ _ _ Ha) as [-> _].
  apply bind_Raise in Hcall as [H | (w3 & [[r cs] ce] & _ & H)]; [| discriminate].
  destruct (cut_timestamps_raise _ _ _ _ _ _ H) as [[[-> | ->] ->] | [c ->]].
  - repeat split; try discriminate; assumption.
  - repeat split; try discriminate; assumption.
  - split; [discriminate | split; [discriminate |]].
    intros Hc. now destruct (Hc c).
Qed.

Lemma eztrim_debug_errors_witness :
  snd (eztrim_debug ntsc_clip (T_tuple [E_int (Some 5); E_int (Some 101)]) None
                    empty_world) = Raise OutOfRangeError
  /\ OutOfRangeError <> LengthMismatchError.
Proof.
  assert (H : snd (eztrim_debug ntsc_clip (T_tuple [E_int (Some 5); E_int (Some 101)])
                                None empty_world) = Raise OutOfRangeError)
    by reflexivity.
  split; [exact H |].
  exact (proj1 (eztrim_debug_errors _ _ _ _ _ H)).
Defined.

Lemma cut_timestamps_Ok (clip : VideoNode) (tf : option timecodes_lines)
      (trims : checked_trims) (w w' : world)
      (r : _Neg2pos_out) (cs ce : list string) :
  cut_timestamps clip tf trims w = (w', Ok (r, cs, ce)) ->
  match trims with
  | Single t =>
      exists s e,
        r = Out_ints s e
        /\ _negative_to_positive (num_frames clip) (arg_of_elem (nth 0 t E_scalar))
                                 (arg_of_elem (nth 1 t E_scalar)) = Ok r
        /\ s < e /\ List.length cs = 1%nat /\ List.length ce = 1%nat
  | Batch l =>
      exists ss es,
        r = Out_lists ss es
        /\ normalize_batch (num_frames clip) (map fst l) (map snd l) = Ok r
        /\ _check_ordered ss es = Ok true
        /\ List.length cs = List.length ss /\ List.length ce = List.length es
  end.
Proof.
  destruct trims as [t | l]; cbn [cut_timestamps].
  - intros (w1 & r' & Hn & H)%bind_Ok. unfold lift in Hn. injection Hn as <- Hn.
    destruct r' as [s e | ss es]; [| discriminate].
    destruct (Z.leb_spec e s) as [| Hlt]; [discriminate |].
    apply bind_Ok in H as (w2 & ts_s & _ & H).
    apply bind_Ok in H as (w3 & ts_e & _ & [= <- <- <- <-]).
    exists s, e. auto.
  - intros (w1 & r' & Hn & H)%bind_Ok. unfold lift in Hn. injection Hn as <- Hn.
    destruct r' as [s e | ss es]; [discriminate |].
    apply bind_Ok in H as (w2 & ordered & Ho & H).
    unfold lift in Ho. injection Ho as <- Ho.
    destruct ordered; [| discriminate].
    apply bind_Ok in H as (w3 & cs' & Hcs & H).
    apply bind_Ok in H as (w4 & ce' & Hce & [= <- <- <- <-]).
    exists ss, es. repeat split; try assumption.
    + eapply mapM_length, Hcs.
    + eapply mapM_length, Hce.
Qed.

Lemma check_trims_Ok (trims : trims_arg) (w w' : world) (c : checked_trims) :
  check_trims trims w = (w', Ok c) ->
  match c with
  | Single t => trims = T_tuple t \/ trims = T_list [I_tuple t]
  | Batch l' =>
      exists l, trims = T_list l /\ List.length l <> 1%nat
                /\ map_result check_trim l = Ok l'
  end.
Proof.
  destruct trims as [t | l |]; cbn [check_trims].
  - intros [= <- <-]. now left.
  - assert (Hl : List.length l <> 1%nat ->
                 (l' <~ lift (map_result check_trim l) ;; ret (Batch l')) w = (w', Ok c) ->
                 match c with
                 | Single t => T_list l = T_tuple t \/ T_list l = T_list [I_tuple t]
                 | Batch l' =>
                     exists l0, T_list l = T_list l0 /\ List.length l0 <> 1%nat
                                /\ map_result check_trim l0 = Ok l'
                 end).
    { intros Hlen (w1 & l' & Hm & [= <- <-])%bind_Ok.
      unfold lift in Hm. injection Hm as _ Hm. eauto. }
    destruct l as [| x [| y l]]; try (apply Hl; cbn; lia).
    intros (w1 & u & _ & H)%bind_Ok. destruct x; [| discriminate].
    injection H as <- <-. now right.
  - discriminate.
Qed.

(** X7: what a debug-mode call returns.  For a single trim: two frame
    numbers with 0 <= s < e <= N and one timestamp for each.  For a list of
    trims: as many starts, ends and timestamps as trims, every range inside
    the clip and not empty, and every range before all later ones. *)
Theorem eztrim_debug_result (clip : VideoNode) (trims : trims_arg)
        (timecodes_file : option timecodes_lines) (w : world) (d : debug_dict) :
  snd (eztrim_debug clip trims timecodes_file w) = Ok (Some d) ->
  match d_s_e d with
  | Out_ints s e =>
      0 <= s < e /\ e <= num_frames clip
      /\ List.length (d_cut_ts_s d) = 1%nat /\ List.length (d_cut_ts_e d) = 1%nat
  | Out_lists starts ends =>
      exists l,
        trims = T_list l
        /\ List.length starts = List.length l /\ List.length ends = List.length l
        /\ List.length (d_cut_ts_s d) = List.length l
        /\ List.length (d_cut_ts_e d) = List.length l
        /\ (forall i s e, nth_error starts i = Some s -> nth_error ends i = Some e ->
                          0 <= s < e /\ e <= num_frames clip)
        /\ (forall i j e s, (i < j)%nat -> nth_error ends i = Some e ->
                            nth_error starts j = Some s -> e < s)
  end.
Proof.
  destruct (eztrim_debug clip trims timecodes_file w) as [w' r] eqn:Hcall.
  cbn [snd]. intros ->. unfold eztrim_debug, eztrim in Hcall.
  apply bind_Ok in Hcall as (w0 & env & [= <- <-] & Hcall).
  apply bind_Ok in Hcall as (w1 & t1 & Ht & Hcall).
  apply bind_Ok in Hcall as (w2 & t2 & Ha & Hcall).
  apply bind_Ok in Hcall as (w3 & [[r cs] ce] & Hcut & [= <- <-]).
  destruct (check_arity_spec _ _ _ _ Ha) as [-> [[= ->] | ?]]; [| discriminate].
  apply check_trims_Ok in Ht. apply cut_timestamps_Ok in Hcut.
  cbn [d_s_e d_cut_ts_s d_cut_ts_e].
  destruct t1 as [t | l'].
  - destruct Hcut as (s & e & -> & Hn & Hlt & Hcs & Hce).
    destruct (nth 0 t E_scalar) as [a |] eqn:E0; [| discriminate].
    destruct (nth 1 t E_scalar) as [b |] eqn:E1;
      [| cbn in Hn; discriminate].
    pose proof Hn as (Hba & Hbb & Es & Ee)%normalize1_Ok.
    destruct (positive_start_range _ _ Hba) as [Hs _].
    destruct (positive_end_range _ _ Hbb) as [He _].
    rewrite <- Es in Hs. rewrite <- Ee in He.
    repeat split; (lia || assumption).
  - destruct Hcut as (ss & es & -> & Hn & Hord & Hcs & Hce).
    destruct Ht as (l & -> & _ & Hm).
    apply map_result_length in Hm.
    pose proof Hn as (Hlen & _ & _ & Ess & Ees)%normalize_batch_Ok.
    destruct (normalize_batch_range _ _ _ _ _ Hn) as (Fs & Fe).
    assert (Lss : List.length ss = List.length l) by now rewrite Ess, !length_map.
    assert (Les : List.length es = List.length l) by now rewrite Ees, !length_map.
    exists l.
    split; [reflexivity |]. split; [exact Lss |]. split; [exact Les |].
    split; [congruence |]. split; [congruence |]. split.
    + intros i s e Hs He.
      rewrite Forall_forall in Fs, Fe.
      pose proof (Fs s (nth_error_In _ _ Hs)).
      pose proof (Fe e (nth_error_In _ _ He)).
      pose proof (check_ordered_true _ _ Hord) as (_ & Hp & _).
      assert (Hi : (i < List.length ss)%nat) by (apply nth_error_Some; congruence).
      specialize (Hp i Hi).
      rewrite (nth_error_nth _ _ 0 Hs), (nth_error_nth _ _ 0 He) in Hp. lia.
    + intros i j e s Hij He Hs.
      assert (Hi : (i < List.length ss)%nat).
      { rewrite Lss, <- Les. apply nth_error_Some. congruence. }
      assert (Hj : (j < List.length ss)%nat) by (apply nth_error_Some; congruence).
      rewrite <- (nth_error_nth _ _ 0 He), <- (nth_error_nth _ _ 0 Hs).
      apply check_ordered_chain; [exact Hord | lia].
Qed.

Lemma eztrim_debug_result_witness :
  exists d,
    snd (eztrim_debug ntsc_clip
           (T_list [I_tuple [E_int (Some 3); E_int (Some 22)];
                    I_tuple [E_int (Some 23); E_int (Some (-20))];
                    I_tuple [E_int (Some (-10)); E_int None]]) None empty_world)
    = Ok (Some d)
    /\ d_s_e d = Out_lists [3; 23; 90] [22; 80; 100]
    /\ List.length (d_cut_ts_s d) = 3%nat.
Proof.
  eexists. split; [vm_compute; reflexivity |].
  split; [reflexivity |].
  match goal with
  | |- List.length (d_cut_ts_s ?d) = _ =>
      pose proof (eztrim_debug_result ntsc_clip
                    (T_list [I_tuple [E_int (Some 3); E_int (Some 22)];
                             I_tuple [E_int (Some 23); E_int (Some (-20))];
                             I_tuple [E_int (Some (-10)); E_int None]])
                    None empty_world d ltac:(vm_compute; reflexivity)) as H
  end.
  cbn [d_s_e] in H. destruct H as (l & [= <-] & _ & _ & H & _). exact H.
Defined.

(** X8: debug mode runs neither the file checks nor ffmpeg, whatever they
    are; and a call outside debug mode is the file checks, then the
    debug-mode computation, then ffmpeg on the very timestamps that debug
    mode returns. *)
Theorem eztrim_debug_shows_the_cuts (tail_env : Type) (check_files : M tail_env)
        (run_ffmpeg : tail_env -> list string -> list string -> M unit)
        (clip : VideoNode) (trims : trims_arg)
        (timecodes_file : option timecodes_lines) (w : world) :
  eztrim tail_env check_files run_ffmpeg clip trims timecodes_file true w
  = eztrim_debug clip trims timecodes_file w
  /\ eztrim tail_env check_files run_ffmpeg clip trims timecodes_file false w
     = (env <~ check_files ;;
        d <~ eztrim_debug clip trims timecodes_file ;;
        match d with
        | Some d => _ <~ run_ffmpeg env (d_cut_ts_s d) (d_cut_ts_e d) ;; ret None
        | None => ret None
        end) w.
Proof.
  split; [reflexivity |].
  unfold eztrim_debug, eztrim, bind, ret.
  destruct (check_files w) as [w1 [env | e]]; [| reflexivity].
  destruct (check_trims trims w1) as [w2 [t1 | e]]; [| reflexivity].
  destruct (check_arity t1 w2) as [w3 [t2 | e]]; [| reflexivity].
  destruct (cut_timestamps clip timecodes_file t2 w3) as [w4 [[[r cs] ce] | e]];
    reflexivity.
Qed.


(** ** Frame-to-timestamp translator: order, origin, timecodes file *)

Lemma int_true_div_nonneg (a b : Z) :
  0 <= a -> 0 < b ->
  int_true_div a b =
  match round_to_float false (a # Z.to_pos b) with
  | S754_infinity _ => Raise (Builtin PyOverflowError)
  | q => Ok q
  end.
Proof.
  intros Ha Hb. unfold int_true_div.
  destruct (Z.eqb_spec b 0); [lia |].
  replace (a <? 0) with false by (symmetry; apply Z.ltb_ge; lia).
  replace (b <? 0) with false by (symmetry; apply Z.ltb_ge; lia).
  cbn [xorb]. now rewrite (Z.abs_eq a), (Z.abs_eq b) by lia.
Qed.

Lemma int_true_div_nonneg_Ok (a b : Z) (s : float) :
  0 <= a -> 0 < b -> int_true_div a b = Ok s ->
  s = round_to_float false (a # Z.to_pos b) /\ is_finite s = true.
Proof.
  intros Ha Hb. rewrite (int_true_div_nonneg a b Ha Hb).
  destruct (round_to_float_not_nan false (a # Z.to_pos b)) as [Hf | Hi].
  - destruct (round_to_float false (a # Z.to_pos b)); try discriminate;
      intros [= <-]; auto.
  - rewrite Hi. discriminate.
Qed.

Lemma cfr_nanoseconds_mono (rate : Q) (f f' : Z) :
  (0 < rate)%Q -> f <= f' -> cfr_nanoseconds f rate <= cfr_nanoseconds f' rate.
Proof.
  intros Hr Hf. rewrite !cfr_nanoseconds_eq. apply round_fraction_mono.
  unfold Qdiv. apply Qmult_le_compat_r.
  - rewrite <- Zle_Qle. lia.
  - apply Qlt_le_weak, Qinv_lt_0_compat, Hr.
Qed.

Lemma cfr_nanoseconds_0 (rate : Q) : cfr_nanoseconds 0 rate = 0.
Proof.
  rewrite cfr_nanoseconds_eq. rewrite <- (round_fraction_inject 0) at 2.
  apply round_fraction_proper. unfold Qdiv. cbn [Z.mul]. 
  change (inject_Z (10 ^ 9 * 0)) with 0%Q. change (inject_Z 0) with 0%Q. ring.
Qed.

(** X9: at a positive constant frame rate time never runs backwards: for
    frames 0 <= f <= f' the nanosecond counts and the seconds computed for
    them are in the same order. *)
Theorem cfr_seconds_monotone (rate : Q) (f f' : Z) (s s' : float) :
  (0 < rate)%Q -> 0 <= f <= f' ->
  cfr_seconds f rate = Ok s -> cfr_seconds f' rate = Ok s' ->
  0 <= cfr_nanoseconds f rate <= cfr_nanoseconds f' rate
  /\ float_le s s'.
Proof.
  intros Hr Hf. unfold cfr_seconds.
  pose proof (cfr_nanoseconds_mono rate 0 f Hr ltac:(lia)) as H0.
  rewrite cfr_nanoseconds_0 in H0.
  pose proof (cfr_nanoseconds_mono rate f f' Hr ltac:(lia)) as H1.
  set (t := cfr_nanoseconds f rate) in *. set (t' := cfr_nanoseconds f' rate) in *.
  intros (-> & Hfin)%int_true_div_nonneg_Ok (-> & Hfin')%int_true_div_nonneg_Ok; try lia.
  split; [lia |]. unfold float_le.
  apply round_to_float_mono; try assumption.
  unfold Qle. cbn [Qnum Qden]. apply Z.mul_le_mono_nonneg_r; lia.
Qed.

Lemma cfr_seconds_monotone_witness :
  exists s s',
    cfr_seconds 24 (24000 # 1001) = Ok s /\ cfr_seconds 100000 (24000 # 1001) = Ok s'
    /\ float_le s s'.
Proof.
  destruct (cfr_seconds 24 (24000 # 1001)) as [s |] eqn:Hs;
    [| vm_compute in Hs; discriminate].
  destruct (cfr_seconds 100000 (24000 # 1001)) as [s' |] eqn:Hs';
    [| vm_compute in Hs'; discriminate].
  exists s, s'. repeat split.
  apply (cfr_seconds_monotone (24000 # 1001) 24 100000 s s');
    [reflexivity | lia | exact Hs | exact Hs'].
Defined.

(** X10: frame 0 is the origin of time whatever the frame rate: at every
    defined frame rate and every valid precision its timestamp is all
    zeros, and the process state is left as it was. *)
Theorem f2ts_frame_zero (timecodes_file : option timecodes_lines)
        (src_clip : VideoNode) (w : world) :
  ~ (fps src_clip == 0)%Q ->
  f2ts 0 0 timecodes_file src_clip w = (w, Ok "00:00:00"%string)
  /\ f2ts 0 3 timecodes_file src_clip w = (w, Ok "00:00:00.000"%string)
  /\ f2ts 0 6 timecodes_file src_clip w = (w, Ok "00:00:00.000000"%string)
  /\ f2ts 0 9 timecodes_file src_clip w = (w, Ok "00:00:00.000000000"%string).
Proof.
  intros Hfps.
  assert (H : forall precision,
             In precision [0; 3; 6; 9] ->
             f2ts 0 precision timecodes_file src_clip w
             = (w, s <- int_true_div 0 (10 ^ 9) ;;
                   hms <- split_hms s ;;
                   let '(h, m, s) := hms in format_timestamp precision h m s)).
  { intros precision Hp. unfold f2ts.
    rewrite (proj2 (precision_test precision) Hp). cbn [negb].
    unfold bind. rewrite (frame_seconds_cfr 0 timecodes_file src_clip w Hfps).
    unfold cfr_seconds. rewrite cfr_nanoseconds_0.
    destruct (int_true_div 0 (10 ^ 9)); reflexivity. }
  repeat split; (rewrite H by (cbn; tauto)); vm_compute; reflexivity.
Qed.

Lemma f2ts_frame_zero_witness :
  f2ts 0 3 None ntsc_clip empty_world = (empty_world, Ok "00:00:00.000"%string).
Proof.
  destruct (f2ts_frame_zero None ntsc_clip empty_world) as (_ & H & _).
  - discriminate.
  - exact H.
Defined.

Lemma read_timecodes_all (header : option float) (data : list float) :
  read_timecodes (header :: map Some data)
  = Ok (map (fun v => SFdiv prec emax v (float_of_int 1000)) data).
Proof.
  unfold read_timecodes. cbn [tl].
  induction data as [| v data IH]; cbn [map map_result]; [reflexivity |].
  cbn [rbind]. rewrite IH. reflexivity.
Qed.

Lemma read_timecodes_malformed (lines : timecodes_lines) :
  In None (tl lines) -> read_timecodes lines = Raise (Builtin PyValueError).
Proof.
  unfold read_timecodes.
  induction (tl lines) as [| x l IH]; [intros [] |].
  cbn [map_result]. destruct x as [v |].
  - intros [H | H]; [discriminate |]. cbn [rbind]. now rewrite IH.
  - reflexivity.
Qed.

(** X11: on a clip of undefined frame rate with a timecodes file, the time
    of frame f is line f + 1 of the file (the first line, the header, is
    dropped) divided by 1000; a frame past the last line raises IndexError;
    a line that is not a number makes every lookup raise ValueError, also
    for other frames; and the table of the clip is never built: the process
    state stays as it was. *)
Theorem f2ts_reads_the_timecodes_file (f precision : Z) (lines : timecodes_lines)
        (src_clip : VideoNode) (w : world) :
  (fps src_clip == 0)%Q ->
  fst (f2ts f precision (Some lines) src_clip w) = w
  /\ (In precision [0; 3; 6; 9] -> In None (tl lines) ->
      snd (f2ts f precision (Some lines) src_clip w) = Raise (Builtin PyValueError))
  /\ (forall header data,
        lines = header :: map Some data ->
        (forall v, 0 <= f -> nth_error data (Z.to_nat f) = Some v ->
                   frame_seconds f (Some lines) src_clip w
                   = (w, Ok (SFdiv prec emax v (float_of_int 1000))))
        /\ (len data <= f -> In precision [0; 3; 6; 9] ->
            snd (f2ts f precision (Some lines) src_clip w)
            = Raise (Builtin PyIndexError))).
Proof.
  intros Hfps.
  assert (Hsec : frame_seconds f (Some lines) src_clip w
                 = (w, timecodes <- read_timecodes lines ;; getitem timecodes f)).
  { unfold frame_seconds. apply Qeq_bool_iff in Hfps. now rewrite Hfps. }
  assert (Hf2ts : In precision [0; 3; 6; 9] -> forall e,
             (timecodes <- read_timecodes lines ;; getitem timecodes f) = Raise e ->
             snd (f2ts f precision (Some lines) src_clip w) = Raise e).
  { intros Hp e He. unfold f2ts.
    rewrite (proj2 (precision_test precision) Hp). cbn [negb].
    unfold bind. rewrite Hsec, He. reflexivity. }
  split; [| split].
  - unfold f2ts. destruct (negb _); [reflexivity |].
    unfold bind. rewrite Hsec.
    destruct (timecodes <- read_timecodes lines ;; getitem timecodes f); reflexivity.
  - intros Hp Hin. apply (Hf2ts Hp). now rewrite (read_timecodes_malformed lines Hin).
  - intros header data ->. split.
    + intros v Hf Hv. rewrite Hsec, read_timecodes_all. cbn [rbind].
      rewrite <- (Z2Nat.id f Hf), getitem_of_nat, nth_error_map.
      unfold float in Hv. rewrite Hv.
      reflexivity.
    + intros Hf Hp. apply (Hf2ts Hp). rewrite read_timecodes_all. cbn [rbind].
      assert (H0 : 0 <= f) by (unfold len in Hf; lia).
      rewrite <- (Z2Nat.id f H0), getitem_of_nat, nth_error_map.
      assert (Hn : nth_error data (Z.to_nat f) = None)
        by (apply nth_error_None; unfold len in Hf; lia).
      unfold float in Hn. rewrite Hn. reflexivity.
Qed.

Lemma f2ts_reads_the_timecodes_file_witness :
  frame_seconds 1 (Some [None; Some (float_of_int 0); Some (float_of_int 42)])
                (vfr_clip 2 24) empty_world
  = (empty_world, Ok (SFdiv prec emax (float_of_int 42) (float_of_int 1000))).
Proof.
  destruct (f2ts_reads_the_timecodes_file
              1 3 [None; Some (float_of_int 0); Some (float_of_int 42)]
              (vfr_clip 2 24) empty_world) as (_ & _ & H).
  - reflexivity.
  - destruct (H None [float_of_int 0; float_of_int 42] eq_refl) as (H1 & _).
    apply H1; [lia | reflexivity].
Defined.


(** ** Timecode table builder: accuracy, length, errors *)

Lemma running_totals_nth (frs : list frame) :
  forall (curr : Q) (k : nat) (q : Q),
    nth_error (running_totals curr frs) k = Some q ->
    (q == curr + total_duration (firstn (S k) frs))%Q.
Proof.
  induction frs as [| fr frs IH]; intros curr k q; cbn [running_totals].
  - destruct k; discriminate.
  - destruct k as [| k]; cbn [nth_error].
    + intros H. assert (Hq : q = Qred (curr + duration fr)) by congruence.
      rewrite Hq. etransitivity; [apply Qred_correct |].
      cbn [firstn total_duration fold_right]. ring.
    + intros H%IH. etransitivity; [exact H |].
      change (firstn (S (S k)) (fr :: frs)) with (fr :: firstn (S k) frs).
      cbn [total_duration fold_right]. fold (total_duration (firstn (S k) frs)).
      assert (Hr : (Qred (curr + duration fr) == curr + duration fr)%Q)
        by apply Qred_correct.
      lra.
Qed.

(** The float of a non-negative Fraction is within half a unit in the last
    place: a relative error of 2^-53, or 2^-1075 among the subnormals. *)
Lemma float_of_Fraction_error (q : Q) (f : float) :
  (0 <= q)%Q -> float_of_Fraction q = Ok f ->
  (Qabs (SF2Q f - q) <= q * pow2 (-53) + pow2 (-1075))%Q.
Proof.
  intros Hq Hf.
  pose proof (pow2_pos (-53)) as P53. pose proof (pow2_pos (-1075)) as P1075.
  destruct (Qlt_le_dec 0 q) as [Hpos | Hle].
  - destruct (int_true_div_spec _ _ _ Hf) as (_ & _ & Hb).
    assert (Hn : 0 < Qnum q) by now apply Qnum_pos.
    rewrite (Z.abs_eq (Qnum q)) in Hb by lia.
    change (Z.to_pos (Z.abs (Zpos (Qden q)))) with (Qden q) in Hb.
    rewrite <- Qmake_Qdiv in Hb.
    assert (Hqq : (Qnum q # Qden q) = q) by now destruct q.
    rewrite Hqq in Hb.
    eapply Qle_trans; [exact Hb |].
    pose proof (ilog2_spec q Hpos) as [Hl _].
    unfold exponent_of, prec, emax.
    destruct (Z.max_spec (ilog2 q - (53 - 1)) (3 - 1024 - 53)) as [[_ ->] | [_ ->]].
    + change (3 - 1024 - 53 - 1) with (-1075).
      assert (0 <= q * pow2 (-53))%Q by (apply Qmult_le_0_compat; lra).
      lra.
    + replace (ilog2 q - (53 - 1) - 1) with (ilog2 q + -53) by lia.
      rewrite pow2_add.
      assert (pow2 (ilog2 q) * pow2 (-53) <= q * pow2 (-53))%Q
        by (apply Qmult_le_compat_r; lra).
      lra.
  - assert (Hq0 : (q == 0)%Q) by lra.
    rewrite (float_of_Fraction_nonneg q Hq) in Hf.
    assert (Hz : round_to_float false q = S754_zero false).
    { unfold round_to_float.
      destruct (Z.leb_spec (Qnum q) 0) as [| Hn]; [reflexivity |].
      apply Qnum_pos in Hn. lra. }
    rewrite Hz in Hf. injection Hf as <-. cbn [SF2Q]. rewrite Hq0.
    change (Qabs (0 - 0)) with 0%Q. lra.
Qed.

(** X12: the table has no drift.  On a clip of non-negative durations every
    entry k of the table is the exact sum of the first k durations rounded
    once: it is off by at most 2^-53 of that sum (2^-1075 among the
    subnormals), however many frames came before. *)
Theorem table_has_no_drift (clip : VideoNode) (w : world) (table : list float)
        (k : nat) (x : float) :
  clip_ok clip ->
  snd (build_timecodes clip w) = Ok table ->
  nth_error table k = Some x ->
  let t := total_duration (firstn k (frames clip)) in
  (Qabs (SF2Q x - t) <= t * pow2 (-53) + pow2 (-1075))%Q.
Proof.
  intros Hclip Hb Hk t. pose proof Hclip as (HN & Hok & Hbound).
  destruct (build_timecodes_spec clip w Hclip) as (fl & pcts & Heq & Hfl & _).
  rewrite Heq in Hb. cbn [snd] in Hb. injection Hb as <-.
  pose proof (pow2_pos (-1075)) as P1075.
  destruct k as [| k]; cbn [nth_error] in Hk.
  - injection Hk as <-. subst t. cbn [firstn total_duration fold_right SF2Q].
    change (Qabs (0 - 0)) with 0%Q. lra.
  - destruct (nth_error (running_totals 0 (frames clip)) k) as [q |] eqn:Hq.
    + assert (Hfq : float_of_Fraction q = Ok x).
      { clear - Hfl Hq Hk. revert k Hq Hk.
        induction Hfl as [| q0 f0 qs fs H0 _ IH]; intros [| k]; cbn [nth_error];
          try discriminate.
        - intros [= <-] [= <-]. exact H0.
        - apply IH. }
      pose proof (running_totals_nth _ _ _ _ Hq) as Hsum.
      rewrite Qplus_0_l in Hsum. fold t in Hsum.
      assert (H0 : (0 <= q)%Q).
      { pose proof (running_totals_bounds (frames clip) 0 Hok) as Hall.
        rewrite Forall_forall in Hall.
        apply (Hall q (nth_error_In _ _ Hq)). }
      pose proof (float_of_Fraction_error q x H0 Hfq) as He.
      rewrite Hsum in He. exact He.
    + exfalso. apply nth_error_None in Hq.
      pose proof (Forall2_length Hfl) as Hl.
      assert (k < List.length fl)%nat by (apply nth_error_Some; unfold float in *; congruence).
      unfold float in *. lia.
Qed.

Lemma table_has_no_drift_witness :
  exists table x,
    snd (build_timecodes (vfr_clip 2 24) empty_world) = Ok table
    /\ nth_error table 24 = Some x
    /\ (Qabs (SF2Q x - 1) <= pow2 (-53) + pow2 (-1075))%Q.
Proof.
  destruct (snd (build_timecodes (vfr_clip 2 24) empty_world)) as [table |] eqn:Hb;
    [| vm_compute in Hb; discriminate].
  destruct (nth_error table 24) as [x |] eqn:Hx;
    [| vm_compute in Hb; injection Hb as <-; discriminate].
  exists table, x. split; [reflexivity | split; [exact Hx |]].
  assert (Hclip : clip_ok (vfr_clip 2 24)).
  { split; [reflexivity | split].
    - repeat constructor; cbn; lia.
    - vm_compute. reflexivity. }
  pose proof (table_has_no_drift (vfr_clip 2 24) empty_world table 24 x Hclip Hb Hx) as H.
  cbv zeta in H.
  assert (Ht : (total_duration (firstn 24 (frames (vfr_clip 2 24))) == 1)%Q)
    by (vm_compute; reflexivity).
  rewrite Ht in H. rewrite Qmult_1_l in H. exact H.
Defined.

Lemma deque_append_len {A} (maxlen : Z) (d : list A) (x : A) :
  len d <= maxlen -> len (deque_append maxlen d x) = Z.min (len d + 1) maxlen.
Proof.
  intros H. unfold deque_append.
  assert (Hl : len (d ++ [x]) = len d + 1) by (rewrite len_app; reflexivity).
  destruct (Z.gtb_spec (len (d ++ [x])) maxlen) as [Hgt | Hle].
  - destruct (d ++ [x])%list as [| y l] eqn:E.
    + unfold len in Hl. cbn in Hl. lia.
    + cbn [tl]. unfold len in *. cbn [List.length] in *. lia.
  - lia.
Qed.

Lemma deque_new_len (N : Z) (tcs : list float) :
  deque_new [S754_zero false] (N + 1) = Ok tcs ->
  -1 <= N /\ len tcs = Z.min 1 (N + 1).
Proof.
  unfold deque_new. destruct (Z.ltb_spec (N + 1) 0); [discriminate |].
  intros [= <-]. split; [lia |].
  destruct (Z.eq_dec N (-1)) as [-> | Hne]; [reflexivity |].
  destruct (Z.to_nat (N + 1)) eqn:E; [exfalso; lia |].
  cbn [skipn]. change (len [S754_zero false]) with 1. lia.
Qed.

Lemma timecodes_step_Ok (N : Z) (fr : frame) (tcs : list float) (curr : Q)
      (curr' : Q) (tcs' : list float) (p : Z) :
  timecodes_step N fr tcs curr = Ok (curr', tcs', p) ->
  _DurationDen fr <> 0
  /\ curr' = Qred (curr + duration fr)
  /\ exists x, float_of_Fraction curr' = Ok x
               /\ tcs' = deque_append (N + 1) tcs x
               /\ percentage N (len tcs') = Ok p.
Proof.
  unfold timecodes_step, duration.
  destruct (Fraction (_DurationNum fr) (_DurationDen fr)) as [d | e] eqn:HF;
    cbn [rbind]; [| discriminate].
  assert (Hden : _DurationDen fr <> 0).
  { intros H0. rewrite H0 in HF. discriminate. }
  destruct (float_of_Fraction (Qred (curr + d))) as [x | e] eqn:Hx;
    cbn [rbind]; [| discriminate].
  destruct (percentage N (len (deque_append (N + 1) tcs x))) as [p' | e] eqn:Hp;
    cbn [rbind]; [| discriminate].
  intros [= <- <- <-]. split; [exact Hden |]. split; [reflexivity |].
  exists x. repeat split; assumption.
Qed.

Lemma percentage_raise (N k : Z) (e : exn) :
  -1 <= N -> 0 <= k <= N + 1 -> percentage N k = Raise e ->
  e = Builtin PyZeroDivisionError /\ N = 0.
Proof.
  intros HN Hk H.
  destruct (Z.eq_dec N 0) as [-> | H0].
  - unfold percentage, int_true_div in H. cbn [Z.eqb rbind] in H.
    injection H as <-. split; reflexivity.
  - exfalso. destruct (Z.eq_dec N (-1)) as [-> | H1].
    + replace k with 0 in H by lia. vm_compute in H. discriminate.
    + rewrite percentage_value in H by lia. discriminate.
Qed.

Lemma float_of_Fraction_raise (q : Q) (e : exn) :
  float_of_Fraction q = Raise e ->
  e = Builtin PyOverflowError /\ (pow2 (emax - 1) <= Qabs q)%Q.
Proof.
  unfold float_of_Fraction, int_true_div. change (Zpos (Qden q) =? 0) with false.
  cbv iota zeta. change (Z.to_pos (Z.abs (Zpos (Qden q)))) with (Qden q).
  set (neg := xorb _ _).
  destruct (round_to_float neg (Z.abs (Qnum q) # Qden q)) eqn:E; try discriminate.
  intros [= <-]. split; [reflexivity |].
  apply Qnot_lt_le. intros Hlt.
  assert (Hq : Qabs q = (Z.abs (Qnum q) # Qden q)%Q) by now destruct q.
  rewrite Hq in Hlt.
  pose proof (round_to_float_finite neg _ Hlt) as Hf. rewrite E in Hf. discriminate.
Qed.

Lemma timecodes_step_Raise (N : Z) (fr : frame) (tcs : list float) (curr : Q)
      (e : exn) :
  -1 <= N -> len tcs <= N + 1 ->
  timecodes_step N fr tcs curr = Raise e ->
  (e = Builtin PyZeroDivisionError /\ (_DurationDen fr = 0 \/ N = 0))
  \/ (e = Builtin PyOverflowError /\ _DurationDen fr <> 0
      /\ (pow2 (emax - 1) <= Qabs (curr + duration fr))%Q).
Proof.
  intros HN Hlen. unfold timecodes_step, duration.
  destruct (Fraction (_DurationNum fr) (_DurationDen fr)) as [d | e'] eqn:HF;
    cbn [rbind].
  - assert (Hden : _DurationDen fr <> 0).
    { intros H0. rewrite H0 in HF. discriminate. }
    destruct (float_of_Fraction (Qred (curr + d))) as [x | e'] eqn:Hx; cbn [rbind].
    + destruct (percentage N (len (deque_append (N + 1) tcs x))) as [p | e'] eqn:Hp;
        cbn [rbind]; [discriminate |].
      intros [= <-]. left.
      apply percentage_raise in Hp as [-> ->]; [auto | lia |].
      rewrite deque_append_len by lia. unfold len. lia.
    + intros [= <-]. right.
      apply float_of_Fraction_raise in Hx as [-> Hx]. repeat split; [exact Hden |].
      assert (Hr : (Qred (curr + d) == curr + d)%Q) by apply Qred_correct.
      rewrite Hr in Hx. exact Hx.
  - intros [= <-]. left. unfold Fraction in HF.
    destruct (_DurationDen fr); try discriminate. injection HF as <-. auto.
Qed.

Lemma timecodes_loop_Ok (N : Z) (frs : list frame) :
  forall (tcs : list float) (curr : Q) (init : Z) (out : list string)
         (table : list float),
    -1 <= N -> len tcs <= N + 1 ->
    timecodes_loop N frs tcs curr init = (out, Ok table) ->
    Forall (fun fr => _DurationDen fr <> 0) frs
    /\ (frs <> [] -> N <> 0)
    /\ len table = Z.min (len tcs + len frs) (N + 1).
Proof.
  induction frs as [| fr frs IH]; intros tcs curr init out table HN Hlen;
    cbn [timecodes_loop].
  - intros [= _ <-]. repeat split; [constructor | congruence |].
    change (len (@nil frame)) with 0. lia.
  - destruct (timecodes_step N fr tcs curr) as [[[curr' tcs'] p] | e] eqn:Hstep;
      [| discriminate].
    apply timecodes_step_Ok in Hstep as (Hden & _ & x & _ & -> & Hp).
    assert (Hl' : len (deque_append (N + 1) tcs x) = Z.min (len tcs + 1) (N + 1))
      by (apply deque_append_len; lia).
    assert (HN0 : N <> 0).
    { intros ->. unfold percentage, int_true_div in Hp. discriminate. }
    assert (Hrec : forall init' out',
               timecodes_loop N frs (deque_append (N + 1) tcs x) curr' init'
               = (out', Ok table) ->
               Forall (fun fr => _DurationDen fr <> 0) (fr :: frs)
               /\ (fr :: frs <> [] -> N <> 0)
               /\ len table = Z.min (len tcs + len (fr :: frs)) (N + 1)).
    { intros init' out' H. apply IH in H as (H1 & _ & H3); [| lia | lia].
      repeat split; [constructor; assumption | auto |].
      rewrite H3, Hl'. unfold len. cbn [List.length]. lia. }
    destruct (_ && _).
    + destruct (timecodes_loop N frs _ curr' p) as [out' r] eqn:Hloop.
      intros [= _ ->]. eapply Hrec, Hloop.
    + intros H. eapply Hrec, H.
Qed.

Lemma timecodes_loop_Raise (N : Z) (frs : list frame) :
  forall (tcs : list float) (curr : Q) (init : Z) (out : list string) (e : exn),
    -1 <= N -> len tcs <= N + 1 ->
    timecodes_loop N frs tcs curr init = (out, Raise e) ->
    (e = Builtin PyZeroDivisionError
     /\ ((exists fr, In fr frs /\ _DurationDen fr = 0) \/ (N = 0 /\ frs <> [])))
    \/ (e = Builtin PyOverflowError
        /\ exists k, (k <= List.length frs)%nat
                     /\ Forall (fun fr => _DurationDen fr <> 0) (firstn k frs)
                     /\ (pow2 (emax - 1) <= Qabs (curr + total_duration (firstn k frs)))%Q).
Proof.
  induction frs as [| fr frs IH]; intros tcs curr init out e HN Hlen;
    cbn [timecodes_loop]; [discriminate |].
  destruct (timecodes_step N fr tcs curr) as [[[curr' tcs'] p] | e'] eqn:Hstep.
  - apply timecodes_step_Ok in Hstep as (Hden & -> & x & _ & -> & Hp).
    assert (Hl' : len (deque_append (N + 1) tcs x) = Z.min (len tcs + 1) (N + 1))
      by (apply deque_append_len; lia).
    assert (Hrec : forall init' out',
               timecodes_loop N frs (deque_append (N + 1) tcs x)
                              (Qred (curr + duration fr)) init'
               = (out', Raise e) ->
               (e = Builtin PyZeroDivisionError
                /\ ((exists fr0, In fr0 (fr :: frs) /\ _DurationDen fr0 = 0)
                    \/ (N = 0 /\ fr :: frs <> [])))
               \/ (e = Builtin PyOverflowError
                   /\ exists k, (k <= List.length (fr :: frs))%nat
                        /\ Forall (fun fr => _DurationDen fr <> 0) (firstn k (fr :: frs))
                        /\ (pow2 (emax - 1)
                            <= Qabs (curr + total_duration (firstn k (fr :: frs))))%Q)).
    { intros init' out' H. apply IH in H; [| lia | lia].
      destruct H as [(-> & [(fr0 & Hin & H0) | (-> & _)]) | (-> & k & Hk & Hall & Hb)].
      - left. split; [reflexivity |]. left. exists fr0. split; [now right | exact H0].
      - left. split; [reflexivity |]. right. split; [reflexivity | discriminate].
      - right. split; [reflexivity |]. exists (S k). cbn [List.length firstn].
        repeat split; [lia | constructor; assumption |].
        cbn [total_duration fold_right]. fold (total_duration (firstn k frs)).
        assert (Hr : (Qred (curr + duration fr) + total_duration (firstn k frs)
                      == curr + (duration fr + total_duration (firstn k frs)))%Q).
        { rewrite Qred_correct. ring. }
        rewrite <- Hr. exact Hb. }
    destruct (_ && _).
    + destruct (timecodes_loop N frs _ _ p) as [out' r] eqn:Hloop.
      intros [= _ ->]. eapply Hrec, Hloop.
    + intros H. eapply Hrec, H.
  - intros [= _ <-].
    apply timecodes_step_Raise in Hstep; [| lia | lia].
    destruct Hstep as [(-> & [H0 | ->]) | (-> & Hden & Hb)].
    + left. split; [reflexivity |]. left. exists fr. split; [now left | exact H0].
    + left. split; [reflexivity |]. right. split; [reflexivity | discriminate].
    + right. split; [reflexivity |]. exists 1%nat. cbn [List.length firstn].
      repeat split; [lia | repeat constructor; assumption |].
      cbn [total_duration fold_right].
      assert (Hr : (curr + (duration fr + 0) == curr + duration fr)%Q) by ring.
      rewrite Hr. exact Hb.
Qed.

(** X13: what a build that returns tells about the clip, whatever the
    clip: every frame had a non-zero duration denominator, the clip does
    not announce zero frames while having some, and the table holds one
    entry more than the frames read, capped at [num_frames + 1] entries by
    the deque. *)
Theorem build_returns_only_if (clip : VideoNode) (w : world) (table : list float) :
  snd (build_timecodes clip w) = Ok table ->
  Forall (fun fr => _DurationDen fr <> 0) (frames clip)
  /\ (frames clip <> [] -> num_frames clip <> 0)
  /\ -1 <= num_frames clip
  /\ len table = Z.min (len (frames clip)) (num_frames clip) + 1.
Proof.
  unfold build_timecodes, bind, lift, call_frames.
  destruct (deque_new _ _) as [tcs | e] eqn:Hnew; cbn [fst snd]; [| discriminate].
  apply deque_new_len in Hnew as [HN Htcs].
  destruct (timecodes_loop _ _ _ _ _) as [out r] eqn:Hloop.
  rewrite print_all_spec. cbn [snd]. intros ->.
  apply timecodes_loop_Ok in Hloop as (H1 & H2 & H3); [| lia | lia].
  repeat split; try assumption.
  rewrite H3, Htcs. destruct (frames clip) as [| fr frs].
  - change (len (@nil frame)) with 0. lia.
  - assert (num_frames clip <> 0) by (apply H2; discriminate).
    unfold len. cbn [List.length]. lia.
Qed.

Lemma build_returns_only_if_witness :
  exists table,
    snd (build_timecodes (vfr_clip 2 24) empty_world) = Ok table /\ len table = 25.
Proof.
  destruct (snd (build_timecodes (vfr_clip 2 24) empty_world)) as [table |] eqn:Hb;
    [| vm_compute in Hb; discriminate].
  exists table. split; [reflexivity |].
  destruct (build_returns_only_if (vfr_clip 2 24) empty_world table Hb) as (_ & _ & _ & H).
  exact H.
Defined.

(** X14: the only exceptions a build raises, and why: ValueError when the
    clip announces fewer than -1 frames (the deque refuses a negative
    maxlen), ZeroDivisionError when a frame has a zero duration denominator
    or the clip announces zero frames while having some, OverflowError when
    a running total of the durations reaches 2^1023 in magnitude. *)
Theorem build_raises_only (clip : VideoNode) (w : world) (e : exn) :
  snd (build_timecodes clip w) = Raise e ->
  (e = Builtin PyValueError /\ num_frames clip < -1)
  \/ (e = Builtin PyZeroDivisionError
      /\ ((exists fr, In fr (frames clip) /\ _DurationDen fr = 0)
          \/ (num_frames clip = 0 /\ frames clip <> [])))
  \/ (e = Builtin PyOverflowError
      /\ exists k, (k <= List.length (frames clip))%nat
                   /\ Forall (fun fr => _DurationDen fr <> 0) (firstn k (frames clip))
                   /\ (pow2 (emax - 1)
                       <= Qabs (total_duration (firstn k (frames clip))))%Q).
Proof.
  unfold build_timecodes, bind, lift, call_frames.
  destruct (deque_new _ _) as [tcs | e'] eqn:Hnew; cbn [fst snd].
  - apply deque_new_len in Hnew as [HN Htcs].
    destruct (timecodes_loop _ _ _ _ _) as [out r] eqn:Hloop.
    rewrite print_all_spec. cbn [snd]. intros ->. right.
    apply timecodes_loop_Raise in Hloop; [| lia | lia].
    destruct Hloop as [H | (-> & k & Hk & Hall & Hb)]; [now left | right].
    split; [reflexivity |]. exists k. repeat split; try assumption.
    rewrite Qplus_0_l in Hb. exact Hb.
  - intros [= <-]. left. unfold deque_new in Hnew.
    destruct (Z.ltb_spec (num_frames clip + 1) 0); [| discriminate].
    injection Hnew as <-. split; [reflexivity | lia].
Qed.

Lemma build_raises_only_witness :
  let clip := {| node_id := 1; num_frames := 2; fps := 0;
                 frames := [{| _DurationNum := 1; _DurationDen := 24 |};
                            {| _DurationNum := 1; _DurationDen := 0 |}] |} in
  snd (build_timecodes clip empty_world) = Raise (Builtin PyZeroDivisionError)
  /\ exists fr, In fr (frames clip) /\ _DurationDen fr = 0.
Proof.
  intros clip.
  assert (Hb : snd (build_timecodes clip empty_world)
               = Raise (Builtin PyZeroDivisionError)) by (vm_compute; reflexivity).
  split; [exact Hb |].
  destruct (build_raises_only clip empty_world _ Hb)
    as [(H & _) | [(_ & [H | (H & _)]) | (H & _)]];
    [discriminate | exact H | discriminate | discriminate].
Defined.

(** ** The cache: failed calls, well-formedness *)

(** What a build does to the process state does not depend on the state:
    it starts the iterator of its clip (unless the deque could not be
    made), prints its lines and returns or raises. *)
Lemma build_timecodes_eq (clip : VideoNode) :
  exists (d : list positive) (out : list string) (r : result (list float)),
    ((d = [] /\ r = Raise (Builtin PyValueError)) \/ d = [node_id clip])
    /\ forall w : world,
        build_timecodes clip w =
        ({| cache := cache w; frames_calls := frames_calls w ++ d;
            stdout := stdout w ++ out; warnings := warnings w |}, r).
Proof.
  unfold build_timecodes, bind, lift, call_frames.
  destruct (deque_new _ _) as [tcs | e] eqn:Hnew.
  - cbn [frames_calls cache stdout warnings].
    destruct (timecodes_loop _ _ _ _ _) as [out r].
    exists [node_id clip], out, r. split; [now right |].
    intros w. rewrite print_all_spec. reflexivity.
  - exists [], [], (Raise e). split.
    + left. split; [reflexivity |]. unfold deque_new in Hnew.
      destruct (_ <? _); [| discriminate]. now injection Hnew as <-.
    + intros w. rewrite !app_nil_r. now destruct w.
Qed.

(** X15: a call that raises is not remembered.  The cache is left as it
    was, with no entry for the clip, so the next call with the same clip
    does all the work again: it iterates the frames again and raises the
    same exception. *)
Theorem failed_call_is_not_cached (clip : VideoNode) (w : world) (e : exn) :
  snd (clip_to_timecodes clip w) = Raise e ->
  let w1 := fst (clip_to_timecodes clip w) in
  let w2 := fst (clip_to_timecodes clip w1) in
  cache w1 = cache w
  /\ cache_find (node_id clip) (cache w1) = None
  /\ snd (clip_to_timecodes clip w1) = Raise e
  /\ exists d,
       ((d = [] /\ e = Builtin PyValueError) \/ d = [node_id clip])
       /\ frames_calls w1 = frames_calls w ++ d
       /\ frames_calls w2 = frames_calls w1 ++ d.
Proof.
  intros Hcall w1 w2.
  destruct (cache_find (node_id clip) (cache w)) as [v |] eqn:Hfind.
  { rewrite (clip_to_timecodes_hit clip w v Hfind) in Hcall. discriminate. }
  destruct (build_timecodes_eq clip) as (d & out & r & Hd & Hbuild).
  assert (H1 : clip_to_timecodes clip w
               = ({| cache := cache w; frames_calls := frames_calls w ++ d;
                     stdout := stdout w ++ out; warnings := warnings w |}, Raise e)).
  { rewrite (clip_to_timecodes_miss clip w Hfind) in Hcall |- *.
    rewrite Hbuild in Hcall |- *. destruct r; [discriminate |].
    cbn [snd] in Hcall. now injection Hcall as ->. }
  assert (Hr : r = Raise e).
  { rewrite (clip_to_timecodes_miss clip w Hfind), Hbuild in H1.
    destruct r; [discriminate |]. now injection H1 as ->. }
  subst w2 w1. rewrite H1. cbn [fst].
  set (w1 := {| cache := cache w; frames_calls := frames_calls w ++ d;
                stdout := stdout w ++ out; warnings := warnings w |}).
  rewrite (clip_to_timecodes_miss clip w1 Hfind), Hbuild, Hr.
  cbn [fst snd cache frames_calls w1].
  repeat split; try assumption.
  exists d. repeat split.
  destruct Hd as [[-> Hv] | ->]; [left | now right].
  split; [reflexivity | congruence].
Qed.

Lemma failed_call_is_not_cached_witness :
  let clip := {| node_id := 1; num_frames := 2; fps := 0;
                 frames := [{| _DurationNum := 1; _DurationDen := 24 |};
                            {| _DurationNum := 1; _DurationDen := 0 |}] |} in
  let w1 := fst (clip_to_timecodes clip empty_world) in
  cache w1 = [] /\ snd (clip_to_timecodes clip w1) = Raise (Builtin PyZeroDivisionError).
Proof.
  intros clip w1.
  destruct (failed_call_is_not_cached clip empty_world (Builtin PyZeroDivisionError))
    as (H1 & _ & H2 & _).
  - vm_compute. reflexivity.
  - split; [exact H1 | exact H2].
Defined.

Lemma cache_remove_length {V} (k : positive) (c : list (positive * V)) (v : V) :
  cache_find k c = Some v ->
  (List.length (cache_remove k c) < List.length c)%nat.
Proof.
  unfold cache_remove.
  induction c as [| [k' v'] c IH]; cbn [cache_find filter fst]; [discriminate |].
  destruct (Pos.eqb_spec k' k); cbn [negb List.length].
  - intros _. pose proof (filter_length_le (fun kv => negb (Pos.eqb (fst kv) k)) c). lia.
  - intros H. apply IH in H. lia.
Qed.

Lemma cache_find_remove_other {V} (k k' : positive) (c : list (positive * V)) :
  k' <> k -> cache_find k' (cache_remove k c) = cache_find k' c.
Proof.
  intros Hne. unfold cache_remove.
  induction c as [| [k0 v0] c IH]; cbn [cache_find filter fst]; [reflexivity |].
  destruct (Pos.eqb_spec k0 k) as [-> | H0]; cbn [negb cache_find].
  - destruct (Pos.eqb_spec k k'); [congruence | exact IH].
  - destruct (Pos.eqb_spec k0 k'); [reflexivity | exact IH].
Qed.

Lemma cache_find_firstn {V} (k : positive) (n : nat) (c : list (positive * V)) (v : V) :
  cache_find k (firstn n c) = Some v -> cache_find k c = Some v.
Proof.
  revert n. induction c as [| [k0 v0] c IH]; intros [| n]; cbn [firstn cache_find];
    try discriminate.
  destruct (Pos.eqb_spec k0 k); [trivial | apply IH].
Qed.

Lemma firstn_incl {A} (n : nat) (l : list A) : incl (firstn n l) l.
Proof.
  revert n. induction l as [| x l IH]; intros [| n]; cbn [firstn];
    intros y Hy; try contradiction.
  destruct Hy as [<- | H]; [now left | right; now apply (IH n)].
Qed.

Lemma NoDup_firstn_keys {A} (n : nat) (l : list A) : NoDup l -> NoDup (firstn n l).
Proof.
  revert n. induction l as [| x l IH]; intros [| n] H; cbn [firstn];
    try constructor.
  - inversion H as [| ? ? Hx Hl]; subst. intros Hin. apply Hx.
    eapply firstn_incl, Hin.
  - inversion H; subst. now apply IH.
Qed.

(** X16: the cache stays as [lru_cache] keeps it.  If it holds one entry
    per clip and at most 128 entries before a call, so it does after it;
    a call adds no key but its own clip's, never alters the table of
    another clip, and a call that returns leaves its table in front. *)
Theorem cache_stays_well_formed (clip : VideoNode) (w : world) :
  cache_ok (cache w) ->
  let w1 := fst (clip_to_timecodes clip w) in
  cache_ok (cache w1)
  /\ incl (map fst (cache w1)) (node_id clip :: map fst (cache w))
  /\ (forall k v, k <> node_id clip ->
                  cache_find k (cache w1) = Some v -> cache_find k (cache w) = Some v)
  /\ (forall table, snd (clip_to_timecodes clip w) = Ok table ->
                    hd_error (cache w1) = Some (node_id clip, table)).
Proof.
  intros [Hnd Hlen] w1. subst w1.
  destruct (cache_find (node_id clip) (cache w)) as [v |] eqn:Hfind.
  - rewrite (clip_to_timecodes_hit clip w v Hfind). cbn [fst snd cache].
    split; [split |]; [| | split; [| split]].
    + cbn [map fst]. rewrite keys_cache_remove. constructor.
      * intros [_ H]%filter_In. now rewrite Pos.eqb_refl in H.
      * now apply NoDup_filter.
    + pose proof (cache_remove_length _ _ _ Hfind). cbn [List.length]. lia.
    + cbn [map fst]. rewrite keys_cache_remove.
      intros k [<- | [H _]%filter_In]; [now left | now right].
    + intros k v' Hk. cbn [cache_find].
      destruct (Pos.eqb_spec (node_id clip) k); [congruence |].
      now rewrite cache_find_remove_other.
    + now intros table [= <-].
  - rewrite (clip_to_timecodes_miss clip w Hfind).
    destruct (build_timecodes_effects clip w) as (Hcache & _).
    destruct (build_timecodes clip w) as [w' [table | e]]; cbn [fst snd cache] in *.
    + rewrite Hcache.
      assert (Hnd' : NoDup (map fst ((node_id clip, table) :: cache w))).
      { cbn [map fst]. constructor; [now apply cache_find_None | exact Hnd]. }
      split; [split |]; [| | split; [| split]].
      * rewrite <- firstn_map. now apply NoDup_firstn_keys.
      * rewrite length_firstn. lia.
      * rewrite <- firstn_map. apply firstn_incl.
      * intros k v Hk H%cache_find_firstn. cbn [cache_find] in H.
        destruct (Pos.eqb_spec (node_id clip) k); [congruence | exact H].
      * intros t [= <-]. reflexivity.
    + rewrite Hcache. split; [split; assumption |].
      split; [intros k Hk; now right |]. split; [auto | discriminate].
Qed.

Lemma cache_stays_well_formed_witness :
  cache_ok (cache (fst (clip_to_timecodes (vfr_clip 2 24) empty_world))).
Proof.
  apply (cache_stays_well_formed (vfr_clip 2 24) empty_world).
  split; [constructor | cbn; unfold lru_maxsize; lia].
Defined.

(** ** Variable frame rate: lookups in the table, one iteration per call *)

Lemma frame_seconds_vfr (f : Z) (clip : VideoNode) (w : world) :
  (fps clip == 0)%Q ->
  frame_seconds f None clip w
  = (fst (clip_to_timecodes clip w),
     timecodes <- snd (clip_to_timecodes clip w) ;; getitem timecodes f).
Proof.
  intros Hfps%Qeq_bool_iff. unfold frame_seconds. rewrite Hfps. cbn [negb].
  unfold bind, lift. destruct (clip_to_timecodes clip w) as [w1 [t | e]]; reflexivity.
Qed.

Lemma getitem_in_range {A} (l : list A) (f : Z) :
  0 <= f < len l -> exists x, nth_error l (Z.to_nat f) = Some x /\ getitem l f = Ok x.
Proof.
  intros Hf. unfold len in Hf.
  destruct (nth_error l (Z.to_nat f)) as [x |] eqn:Hx.
  - exists x. split; [reflexivity |].
    rewrite <- (Z2Nat.id f) by lia. rewrite getitem_of_nat. now rewrite Hx.
  - apply nth_error_None in Hx. lia.
Qed.

Lemma getitem_negative {A} (l : list A) (f : Z) :
  - len l <= f < 0 -> getitem l f = getitem l (f + len l).
Proof.
  intros Hf. unfold getitem. cbv zeta.
  replace (f <? 0) with true by (symmetry; apply Z.ltb_lt; lia).
  replace (f + len l <? 0) with false by (symmetry; apply Z.ltb_ge; lia).
  cbv iota.
  replace (f + len l <? 0) with false by (symmetry; apply Z.ltb_ge; lia).
  reflexivity.
Qed.

Lemma getitem_out_of_range {A} (l : list A) (f : Z) :
  f < - len l \/ len l <= f -> getitem l f = Raise (Builtin PyIndexError).
Proof.
  intros Hf. unfold getitem. cbv zeta.
  destruct (Z.ltb_spec f 0) as [Hneg | Hpos].
  - replace (f <? 0) with true by (symmetry; apply Z.ltb_lt; lia).
    replace (f + len l <? 0) with true by (symmetry; apply Z.ltb_lt; lia).
    reflexivity.
  - replace (f <? 0) with false by (symmetry; apply Z.ltb_ge; lia).
    replace (nth_error l (Z.to_nat f)) with (@None A); [reflexivity |].
    symmetry. apply nth_error_None. unfold len in Hf. lia.
Qed.

(** X17: frame numbers on a clip of variable frame rate, without a
    timecodes file.  The seconds of frame f are entry f of the table; a
    negative f counts from the end of the table, as list indexing does; a
    frame outside the table raises IndexError.  The table of a well-formed
    clip has N + 1 entries, so frame N, the end of the last frame, has a
    time; and every frame inside the table gets a timestamp at precisions
    3, 6 and 9. *)
Theorem vfr_frame_lookup (clip : VideoNode) (w : world) (table : list float) (f : Z) :
  (fps clip == 0)%Q ->
  snd (clip_to_timecodes clip w) = Ok table ->
  let n := len table in
  let seconds := fun f => snd (frame_seconds f None clip w) in
  (0 <= f < n ->
   exists x, nth_error table (Z.to_nat f) = Some x /\ seconds f = Ok x)
  /\ (- n <= f < 0 -> seconds f = seconds (f + n))
  /\ (f < - n \/ n <= f -> seconds f = Raise (Builtin PyIndexError))
  /\ (clip_ok clip -> cache_find (node_id clip) (cache w) = None ->
      n = num_frames clip + 1)
  /\ (0 <= f < n -> forall precision, In precision [3; 6; 9] ->
      exists ts, snd (f2ts f precision None clip w) = Ok ts).
Proof.
  intros Hfps Hcall n seconds.
  assert (Hsec : forall g, seconds g = getitem table g).
  { intros g. unfold seconds. rewrite (frame_seconds_vfr g clip w Hfps).
    cbn [snd]. now rewrite Hcall. }
  split; [| split; [| split; [| split]]].
  - intros Hf. rewrite Hsec. now apply getitem_in_range.
  - intros Hf. rewrite !Hsec. now apply getitem_negative.
  - intros Hf. rewrite Hsec. now apply getitem_out_of_range.
  - intros Hclip Hmiss. pose proof Hclip as (HN & _ & _).
    destruct (build_timecodes_spec clip w Hclip) as (fl & pcts & Heq & Hfl & _).
    rewrite (clip_to_timecodes_miss clip w Hmiss), Heq in Hcall.
    cbn [snd] in Hcall. injection Hcall as <-.
    subst n. unfold len. cbn [List.length].
    rewrite <- (Forall2_length Hfl), length_running_totals, HN. unfold len. lia.
  - intros Hf precision Hp.
    destruct (getitem_in_range table f Hf) as (x & _ & Hx).
    unfold f2ts.
    assert (Hp' : In precision [0; 3; 6; 9]) by (cbn in *; tauto).
    rewrite (proj2 (precision_test precision) Hp'). cbn [negb].
    unfold bind. rewrite (frame_seconds_vfr f clip w Hfps), Hcall.
    cbn [rbind]. rewrite Hx. unfold lift. cbn [snd].
    destruct (split_hms_returns x) as [[[h m] s] ->]. cbn [rbind].
    unfold format_timestamp.
    assert (H0 : (precision =? 0) = false) by (apply Z.eqb_neq; cbn in Hp; lia).
    rewrite H0. repeat destruct (precision =? _); eauto.
Qed.

Lemma vfr_frame_lookup_witness :
  snd (frame_seconds (-1) None (vfr_clip 2 24) empty_world)
  = snd (frame_seconds 24 None (vfr_clip 2 24) empty_world).
Proof.
  destruct (snd (clip_to_timecodes (vfr_clip 2 24) empty_world)) as [table |] eqn:Hcall;
    [| vm_compute in Hcall; discriminate].
  destruct (vfr_frame_lookup (vfr_clip 2 24) empty_world table (-1))
    as (_ & H & _ & Hn & _); [reflexivity | exact Hcall |].
  rewrite Hn in H.
  - apply H. cbn. lia.
  - split; [reflexivity | split].
    + repeat constructor; cbn; lia.
    + vm_compute. reflexivity.
  - reflexivity.
Defined.

Lemma once_then_cached_refl (clip : VideoNode) (w : world) :
  once_then_cached clip w w.
Proof. left. auto. Qed.

Lemma once_then_cached_weaken (clip : VideoNode) (w0 w : world) :
  once_then_cached clip w0 w -> iterated_at_most_once clip w0 w.
Proof. intros [[H _] | [H _]]; [now left | now right]. Qed.

(** One call of the cached builder in a state reached by at most one
    iteration: it iterates only when nothing is cached, and then caches. *)
Lemma clip_to_timecodes_once (clip : VideoNode) (w0 w w' : world)
      (r : result (list float)) :
  once_then_cached clip w0 w ->
  clip_to_timecodes clip w = (w', r) ->
  match r with
  | Ok _ => once_then_cached clip w0 w'
  | Raise _ => iterated_at_most_once clip w0 w'
  end.
Proof.
  intros Hinv.
  destruct (cache_find (node_id clip) (cache w)) as [v |] eqn:Hfind.
  - rewrite (clip_to_timecodes_hit clip w v Hfind). intros [= <- <-].
    assert (Hc : is_cached clip
                   {| cache := (node_id clip, v) :: cache_remove (node_id clip) (cache w);
                      frames_calls := frames_calls w; stdout := stdout w;
                      warnings := warnings w |}).
    { unfold is_cached. cbn [cache cache_find]. now rewrite Pos.eqb_refl. }
    destruct Hinv as [[H _] | [H _]]; [left | right]; cbn [frames_calls]; auto.
  - assert (Hw : frames_calls w = frames_calls w0).
    { destruct Hinv as [[H _] | [_ H]]; [exact H |]. now elim H. }
    rewrite (clip_to_timecodes_miss clip w Hfind).
    destruct (build_timecodes_effects clip w) as (_ & _ & Hf & Hok).
    destruct (build_timecodes clip w) as [w1 [table | e]]; cbn [fst snd] in *;
      intros [= <- <-].
    + right. cbn [frames_calls]. split; [rewrite (Hok table eq_refl); congruence |].
      unfold is_cached. cbn [cache firstn lru_maxsize cache_find].
      now rewrite Pos.eqb_refl.
    + destruct Hf as [Hf | Hf]; [left | right]; congruence.
Qed.

Lemma f2ts_once (clip : VideoNode) (tf : option timecodes_lines) (w0 : world)
      (f precision : Z) (w w' : world) (r : result string) :
  once_then_cached clip w0 w ->
  f2ts f precision tf clip w = (w', r) ->
  match r with
  | Ok _ => once_then_cached clip w0 w'
  | Raise _ => iterated_at_most_once clip w0 w'
  end.
Proof.
  intros Hinv. pose proof (once_then_cached_weaken _ _ _ Hinv) as Hweak.
  assert (Hsame : forall r : result string,
             match r with
             | Ok _ => once_then_cached clip w0 w
             | Raise _ => iterated_at_most_once clip w0 w
             end) by (intros [|]; assumption).
  unfold f2ts. destruct (negb _); [intros [= <- <-]; exact Hweak |].
  unfold bind, frame_seconds.
  destruct (negb (Qeq_bool (fps clip) 0)).
  { unfold lift. destruct (cfr_seconds f (fps clip)); intros [= <- <-];
      [apply Hsame | exact Hweak]. }
  destruct tf as [lines |].
  { unfold lift. destruct (_ <- read_timecodes lines ;; _); intros [= <- <-];
      [apply Hsame | exact Hweak]. }
  unfold bind.
  destruct (clip_to_timecodes clip w) as [w1 [table | e]] eqn:Hcall;
    pose proof (clip_to_timecodes_once clip w0 w _ _ Hinv Hcall) as Hstep;
    cbn beta iota in Hstep.
  - unfold lift. destruct (getitem table f) as [x | e]; cbv beta iota;
      intros H; injection H as <- <-.
    + destruct (_ <- split_hms x ;; _); [exact Hstep |].
      now apply once_then_cached_weaken.
    + now apply once_then_cached_weaken.
  - cbv beta iota. intros H; injection H as <- <-. exact Hstep.
Qed.

Lemma mapM_f2ts_once (clip : VideoNode) (tf : option timecodes_lines) (w0 : world)
      (precision : Z) (fs : list Z) :
  forall (w w' : world) (r : result (list string)),
    once_then_cached clip w0 w ->
    mapM (fun f => f2ts f precision tf clip) fs w = (w', r) ->
    match r with
    | Ok _ => once_then_cached clip w0 w'
    | Raise _ => iterated_at_most_once clip w0 w'
    end.
Proof.
  induction fs as [| f fs IH]; intros w w' r Hinv; cbn [mapM].
  - intros [= <- <-]. exact Hinv.
  - unfold bind, ret.
    destruct (f2ts f precision tf clip w) as [w1 [y | e]] eqn:H1;
      pose proof (f2ts_once clip tf w0 f precision w _ _ Hinv H1) as Hstep;
      cbn beta iota in Hstep; [| intros [= <- <-]; exact Hstep].
    destruct (mapM _ fs w1) as [w2 [ys | e]] eqn:H2;
      pose proof (IH w1 _ _ Hstep H2) as Hrest; cbn beta iota in Hrest;
      intros [= <- <-]; exact Hrest.
Qed.

Lemma cut_timestamps_once (clip : VideoNode) (tf : option timecodes_lines)
      (trims : checked_trims) (w : world) :
  iterated_at_most_once clip w (fst (cut_timestamps clip tf trims w)).
Proof.
  assert (Hrefl : iterated_at_most_once clip w w) by now left.
  pose proof (once_then_cached_refl clip w) as Hinv.
  unfold cut_timestamps, bind, lift, ret, raise. destruct trims as [t | l].
  - destruct (_negative_to_positive _ _ _) as [[s e | ss es] | err]; cbn [fst];
      try exact Hrefl.
    destruct (e <=? s); [exact Hrefl |].
    destruct (f2ts s 3 tf clip w) as [w1 [ts_s | err]] eqn:E1;
      pose proof (f2ts_once clip tf w s 3 w _ _ Hinv E1) as H1;
      cbn beta iota in H1; [| exact H1].
    destruct (f2ts e 3 tf clip w1) as [w2 [ts_e | err]] eqn:E2;
      pose proof (f2ts_once clip tf w e 3 w1 _ _ H1 E2) as H2;
      cbn beta iota in H2; cbn [fst];
      [now apply once_then_cached_weaken | exact H2].
  - destruct (_negative_to_positive _ _ _) as [[s e | ss es] | err]; cbn [fst];
      try exact Hrefl.
    destruct (_check_ordered ss es) as [[|] | err]; cbn [fst]; try exact Hrefl.
    destruct (mapM _ ss w) as [w1 [cs | err]] eqn:E1;
      pose proof (mapM_f2ts_once clip tf w 3 ss w _ _ Hinv E1) as H1;
      cbn beta iota in H1; [| exact H1].
    destruct (mapM _ es w1) as [w2 [ce | err]] eqn:E2;
      pose proof (mapM_f2ts_once clip tf w 3 es w1 _ _ H1 E2) as H2;
      cbn beta iota in H2; cbn [fst];
      [now apply once_then_cached_weaken | exact H2].
Qed.

(** X18: the trimming computation of [eztrim] (all of a debug-mode call,
    and what a normal call does between the file checks and ffmpeg)
    iterates the frames of the clip at most once, however many trims it is
    given and whatever they are: the first timestamp that needs the table
    builds it, the others find it cached. *)
Theorem eztrim_iterates_at_most_once (clip : VideoNode) (trims : trims_arg)
        (timecodes_file : option timecodes_lines) (w : world) :
  iterated_at_most_once clip w (fst (eztrim_debug clip trims timecodes_file w)).
Proof.
  unfold eztrim_debug, eztrim, bind, ret.
  destruct (check_trims_effects trims w) as (_ & _ & Hf).
  destruct (check_trims trims w) as [w1 [t1 | e]]; cbn [fst] in *; [| now left].
  destruct (check_arity t1 w1) as [w2 [t2 | e]] eqn:Ha;
    apply check_arity_spec in Ha as [-> _]; cbn [fst]; [| now left].
  pose proof (cut_timestamps_once clip timecodes_file t2 w1) as Hcut.
  assert (Hgoal : iterated_at_most_once clip w
                    (fst (cut_timestamps clip timecodes_file t2 w1))).
  { destruct Hcut as [H | H]; [left | right]; congruence. }
  destruct (cut_timestamps clip timecodes_file t2 w1) as [w3 [[[r cs] ce] | e]];
    cbn [fst] in *; exact Hgoal.
Qed.

(** ** File names *)

Open Scope string_scope.

Lemma rfind_from_spec (c : ascii) (p : string) :
  forall i found k,
    rfind_from c p i found = k ->
    (k = found /\ forall j, get j p <> Some c)
    \/ (exists n, k = i + Z.of_nat n
                  /\ get n p = Some c
                  /\ forall j, (n < j)%nat -> get j p <> Some c).
Proof.
  induction p as [| a rest IH]; intros i found k; cbn [rfind_from].
  - intros <-. left. split; [reflexivity |]. intros j. now destruct j.
  - intros H. apply IH in H as [[-> Hno] | (n & -> & Hn & Hafter)].
    + destruct (Ascii.eqb_spec a c) as [-> | Hne].
      * right. exists 0%nat. split; [lia |]. split; [reflexivity |].
        intros [| j] Hj; [lia |]. cbn [get]. apply Hno.
      * left. split; [reflexivity |]. intros [| j]; cbn [get]; [congruence | apply Hno].
    + right. exists (S n). split; [lia |]. split; [exact Hn |].
      intros [| j] Hj; [lia |]. cbn [get]. apply Hafter. lia.
Qed.

Lemma get_Some_length (p : string) (n : nat) (c : ascii) :
  get n p = Some c -> (n < String.length p)%nat.
Proof.
  revert n. induction p as [| a rest IH]; intros [| n]; cbn [get String.length];
    try discriminate; [lia |].
  intros H%IH. lia.
Qed.

Lemma rfind_spec (c : ascii) (p : string) :
  (rfind c p = -1 /\ forall j, get j p <> Some c)
  \/ (exists n, rfind c p = Z.of_nat n
                /\ (n < String.length p)%nat
                /\ get n p = Some c
                /\ forall j, (n < j)%nat -> get j p <> Some c).
Proof.
  destruct (rfind_from_spec c p 0 (-1) _ eq_refl) as [[H Hno] | (n & H & Hn & Hafter)].
  - left. auto.
  - right. exists n. repeat split; try assumption. eapply get_Some_length, Hn.
Qed.

Lemma substring_split (p : string) :
  forall k : nat, (k <= String.length p)%nat ->
    substring 0 k p ++ substring k (String.length p - k) p = p.
Proof.
  induction p as [| a rest IH]; intros [| k] Hk; cbn [String.length] in *;
    try lia; try reflexivity.
  - cbn [substring String.append Nat.sub].
    f_equal. specialize (IH 0%nat ltac:(lia)).
    rewrite Nat.sub_0_r in IH. destruct rest; [reflexivity |].
    cbn [substring String.append] in IH |- *. exact IH.
  - cbn [substring String.append Nat.sub]. f_equal. apply IH. lia.
Qed.

(** [root + ext == p], as the documentation of [os.path.splitext] has it. *)
Lemma splitext_join (os : os_path) (p : string) :
  fst (splitext os p) ++ snd (splitext os p) = p.
Proof.
  assert (H : forall sep altsep, fst (_splitext p sep altsep ".")
                                 ++ snd (_splitext p sep altsep ".") = p).
  { intros sep altsep. unfold _splitext. cbv zeta.
    destruct (_ && _) eqn:E; cbn [fst snd].
    - destruct (rfind_spec "." p) as [[Hr _] | (n & Hr & Hn & _)]; rewrite Hr in *.
      + apply andb_prop in E as [E _]. exfalso.
        destruct altsep as [a |];
          [destruct (rfind_spec a p) as [[H1 _] | (n1 & H1 & _)] |];
          destruct (rfind_spec sep p) as [[H2 _] | (n2 & H2 & _)];
          rewrite ?H1, ?H2 in E; lia.
      + unfold slice. rewrite Z.sub_0_r, !Nat2Z.id, <- Nat2Z.inj_sub, Nat2Z.id by lia.
        change (Z.to_nat 0) with 0%nat. apply substring_split. lia.
    - clear E. induction p as [| a rest IH]; cbn [String.append]; [reflexivity |].
      now rewrite IH. }
  destruct os; apply H.
Qed.

(** An extension is empty or a dot followed by no other dot. *)
Lemma splitext_ext (os : os_path) (p : string) :
  snd (splitext os p) = ""
  \/ (get 0 (snd (splitext os p)) = Some "."%char
      /\ forall j, (0 < j)%nat -> get j (snd (splitext os p)) <> Some "."%char).
Proof.
  assert (H : forall sep altsep,
             snd (_splitext p sep altsep ".") = ""
             \/ (get 0 (snd (_splitext p sep altsep ".")) = Some "."%char
                 /\ forall j, (0 < j)%nat ->
                      get j (snd (_splitext p sep altsep ".")) <> Some "."%char)).
  { intros sep altsep. unfold _splitext. cbv zeta.
    destruct (_ && _) eqn:E; cbn [fst snd]; [right | now left].
    destruct (rfind_spec "." p) as [[Hr _] | (n & Hr & Hn & Hdot & Hafter)];
      rewrite Hr in *.
    - apply andb_prop in E as [E _]. exfalso.
      destruct altsep as [a |];
        [destruct (rfind_spec a p) as [[H1 _] | (n1 & H1 & _)] |];
        destruct (rfind_spec sep p) as [[H2 _] | (n2 & H2 & _)];
        rewrite ?H1, ?H2 in E; lia.
    - unfold slice. rewrite Nat2Z.id, <- Nat2Z.inj_sub, Nat2Z.id by lia.
      split.
      + rewrite substring_correct1 by lia. exact Hdot.
      + intros j Hj.
        destruct (Nat.lt_ge_cases j (String.length p - n)) as [Hlt | Hge].
        * rewrite substring_correct1 by exact Hlt. apply Hafter. lia.
        * rewrite substring_correct2 by exact Hge. discriminate. }
  destruct os; apply H.
Qed.

Lemma existsb_eqb_In (x : string) (l : list string) :
  existsb (String.eqb x) l = true <-> In x l.
Proof.
  rewrite existsb_exists. split.
  - intros (y & Hy & ->%String.eqb_eq). exact Hy.
  - intros H. exists x. split; [exact H | apply String.eqb_refl].
Qed.

(** X19: the extension chosen for the output.  Whatever the audio file is
    called, on either flavour of [os.path], the extension chosen is one of
    the set and the codec is copied exactly when the extension of the file
    is in the set; otherwise one warning is issued and the output is WAV.
    Two entries of the set are dead: no file has the extension [w64] (no
    dot) or [.oga.pcm] (two dots), so a file in [.oga], [.pcm] or [.w64]
    is not recognised and is re-encoded to WAV. *)
Theorem encoder_extension_chosen (os : os_path) (audio_file : string) (w : world) :
  let audio_file_ext := snd (splitext os audio_file) in
  exists ext codec_args,
    snd (select_codec audio_file_ext w) = Ok (ext, codec_args)
    /\ In ext ffmpeg_valid_encoder_extensions
    /\ ext <> "w64" /\ ext <> ".oga.pcm"
    /\ (In audio_file_ext ffmpeg_valid_encoder_extensions ->
        ext = audio_file_ext /\ codec_args = ["-c:a"; "copy"; "-rf64"; "auto"]
        /\ fst (select_codec audio_file_ext w) = w)
    /\ (~ In audio_file_ext ffmpeg_valid_encoder_extensions ->
        ext = ".wav" /\ codec_args = []
        /\ warnings (fst (select_codec audio_file_ext w))
           = (warnings w ++ [unsupported_warning audio_file_ext])%list)
    /\ (In audio_file_ext [".oga"; ".pcm"; ".w64"] -> ext = ".wav").
Proof.
  intros audio_file_ext.
  assert (Hlive : audio_file_ext <> "w64" /\ audio_file_ext <> ".oga.pcm").
  { unfold audio_file_ext.
    destruct (splitext_ext os audio_file) as [He | [H0 Hafter]].
    - rewrite He. split; discriminate.
    - split; intros E; rewrite E in *; [discriminate |].
      apply (Hafter 4%nat); [lia | reflexivity]. }
  unfold select_codec.
  destruct (existsb (String.eqb audio_file_ext) ffmpeg_valid_encoder_extensions) eqn:E;
    cbn [negb].
  - apply existsb_eqb_In in E.
    exists audio_file_ext, ["-c:a"; "copy"; "-rf64"; "auto"].
    unfold ret. cbn [fst snd].
    split; [reflexivity |]. split; [exact E |].
    split; [tauto |]. split; [tauto |].
    split; [auto |]. split; [tauto |].
    intros [<- | [<- | [<- | []]]]; exfalso; cbn in E;
      repeat (destruct E as [E | E]; [discriminate |]); exact E.
  - assert (Hnot : ~ In audio_file_ext ffmpeg_valid_encoder_extensions).
    { intros H%existsb_eqb_In. congruence. }
    exists ".wav", []. unfold bind, warn, ret. cbn [fst snd warnings].
    split; [reflexivity |]. split; [cbn; tauto |].
    split; [discriminate |]. split; [discriminate |].
    split; [tauto |]. split; auto.
Qed.

(** X20: the name of the output file always ends with the extension
    chosen.  With no [outfile] it is the name of the audio file followed
    by [_cut]; a given [outfile] keeps its name when it has the extension
    chosen, gets it appended when it has none, and has its own extension
    replaced otherwise. *)
Theorem outfile_has_the_extension (os : os_path) (audio_file_name audio_file_ext : string)
        (outfile : option string) :
  exists root,
    name_outfile os audio_file_name audio_file_ext outfile = root ++ audio_file_ext
    /\ match outfile with
       | None => root = audio_file_name ++ "_cut"
       | Some given =>
           let ext := snd (splitext os given) in
           (ext = audio_file_ext ->
            audio_file_ext <> "" ->
            name_outfile os audio_file_name audio_file_ext outfile = given)
           /\ (ext = "" -> root = given)
           /\ (ext <> "" -> root = fst (splitext os given))
       end.
Proof.
  destruct outfile as [given |]; cbn [name_outfile].
  - pose proof (splitext_join os given) as Hjoin.
    destruct (String.eqb_spec (snd (splitext os given)) "") as [He | Hne].
    + exists given. split; [reflexivity |]. cbv zeta.
      split; [congruence |]. split; [reflexivity | contradiction].
    + destruct (String.eqb_spec (snd (splitext os given)) audio_file_ext) as [Heq | Hdiff];
        cbn [negb]; exists (fst (splitext os given)); cbv zeta.
      * split; [now rewrite <- Heq |].
        split; [reflexivity |]. split; [contradiction | reflexivity].
      * split; [reflexivity |].
        split; [contradiction |]. split; [contradiction | reflexivity].
  - exists (audio_file_name ++ "_cut"). split; reflexivity.
Qed.

Close Scope string_scope.

(** ** The ffmpeg runs *)

Open Scope string_scope.

Lemma digits_inj (a b : Z) : 0 <= a -> 0 <= b -> digits a = digits b -> a = b.
Proof.
  intros Ha Hb H. unfold digits in H.
  assert (Hnn : forall n : N, N.to_uint n <> Decimal.Nil).
  { intros [| p]; [discriminate | apply DecimalPos.Unsigned.to_uint_nonnil]. }
  apply (f_equal NilZero.uint_of_string) in H.
  rewrite !NilZero.usu in H by apply Hnn.
  injection H as H. apply DecimalN.Unsigned.to_uint_inj in H. lia.
Qed.

Lemma string_length_append (s t : string) :
  String.length (s ++ t) = (String.length s + String.length t)%nat.
Proof. induction s as [| a s IH]; cbn; [reflexivity | now rewrite IH]. Qed.

Lemma string_app_inv_tail (s s' t : string) : s ++ t = s' ++ t -> s = s'.
Proof.
  revert s'. induction s as [| a s IH]; intros [| a' s'] H; cbn [String.append] in H.
  - reflexivity.
  - apply (f_equal String.length) in H. cbn [String.length] in H.
    rewrite string_length_append in H. lia.
  - apply (f_equal String.length) in H. cbn [String.length] in H.
    rewrite string_length_append in H. lia.
  - injection H as -> H. f_equal. now apply IH.
Qed.

Lemma temp_name_inj (ext : string) (k k' : Z) :
  0 <= k -> 0 <= k' -> temp_name ext k = temp_name ext k' -> k = k'.
Proof.
  intros Hk Hk' H. unfold temp_name in H. cbn [String.append] in H.
  injection H as H. apply string_app_inv_tail in H. now apply digits_inj.
Qed.

Lemma temp_name_not_concat (ext : string) (k : Z) : temp_name ext k <> concat_txt.
Proof. unfold temp_name, concat_txt. cbn [String.append]. discriminate. Qed.

Lemma last_cut_args (silence : list string) (audio_file : string)
      (codec_args : list string) (s e out : string) :
  last (cut_args silence audio_file codec_args s e out) "" = out.
Proof.
  unfold cut_args. rewrite !app_assoc. apply last_last.
Qed.

(** The loop, from any key on. *)
Lemma cut_loop_spec (silence : list string) (audio_file : string)
      (codec_args : list string) (ext : string) (times : list (string * string)) :
  forall key : Z,
    0 <= key ->
    let acts := fst (cut_loop silence audio_file codec_args ext key times) in
    let temps := snd (cut_loop silence audio_file codec_args ext key times) in
    temps = map (fun i => temp_name ext (key + Z.of_nat i)) (seq 0 (List.length times))
    /\ run_outputs acts = temps
    /\ removed_files acts = []
    /\ written_lines acts = map concat_line temps
    /\ Forall (fun t => exists k, key <= k /\ t = temp_name ext k) temps
    /\ NoDup temps.
Proof.
  induction times as [| [s e] rest IH]; intros key Hkey; cbn [cut_loop].
  - cbn. repeat split; constructor.
  - specialize (IH (key + 1) ltac:(lia)). cbv zeta in IH.
    destruct (cut_loop silence audio_file codec_args ext (key + 1) rest)
      as [acts temps]. cbn [fst snd] in *.
    destruct IH as (Ht & Ho & Hr & Hw & Hall & Hnd).
    split; [| split; [| split; [| split; [| split]]]].
    + cbn [List.length seq map]. rewrite Z.add_0_r. f_equal.
      rewrite Ht, <- seq_shift, map_map. apply map_ext. intros i. f_equal. lia.
    + cbn [run_outputs flat_map app]. rewrite last_cut_args. f_equal. exact Ho.
    + exact Hr.
    + cbn [written_lines flat_map app map]. f_equal. exact Hw.
    + constructor; [exists key; split; [lia | reflexivity] |].
      eapply Forall_impl; [| exact Hall]. cbn beta.
      intros t (k & Hk & ->). exists k. split; [lia | reflexivity].
    + constructor; [| exact Hnd].
      intros Hin. rewrite Forall_forall in Hall.
      destruct (Hall _ Hin) as (k & Hk & Heq).
      apply temp_name_inj in Heq; lia.
Qed.

Lemma run_outputs_app (a b : list action) :
  run_outputs (a ++ b) = (run_outputs a ++ run_outputs b)%list.
Proof. apply flat_map_app. Qed.

Lemma removed_files_app (a b : list action) :
  removed_files (a ++ b) = (removed_files a ++ removed_files b)%list.
Proof. apply flat_map_app. Qed.

Lemma written_lines_app (a b : list action) :
  written_lines (a ++ b) = (written_lines a ++ written_lines b)%list.
Proof. apply flat_map_app. Qed.

Lemma removed_files_Remove (l : list string) : removed_files (map Remove l) = l.
Proof. induction l as [| x l IH]; cbn; [reflexivity | now rewrite <- IH at 2]. Qed.

Lemma run_outputs_Remove (l : list string) : run_outputs (map Remove l) = [].
Proof. induction l as [| x l IH]; cbn; [reflexivity | exact IH]. Qed.

Lemma written_lines_Remove (l : list string) : written_lines (map Remove l) = [].
Proof. induction l as [| x l IH]; cbn; [reflexivity | exact IH]. Qed.

Lemma tail_cleans_up_aux (silence : list string) (audio_file outfile : string)
      (codec_args : list string) (ext : string) (cut_ts_s cut_ts_e : list string) :
  let r := cut_loop silence audio_file codec_args ext 0 (combine cut_ts_s cut_ts_e) in
  run_outputs (fst r) = snd r
  /\ List.length (snd r) = Nat.min (List.length cut_ts_s) (List.length cut_ts_e).
Proof.
  cbv zeta.
  destruct (cut_loop_spec silence audio_file codec_args ext
                          (combine cut_ts_s cut_ts_e) 0 ltac:(lia))
    as (Ht & Ho & _).
  split; [exact Ho |].
  rewrite Ht, length_map, length_seq. apply length_combine.
Qed.

(** X21: several cuts clean up after themselves.  When the number of cuts
    is not one and no concat file is in the way, the script is some work
    followed by the removals: every temporary file is written by one
    ffmpeg run, listed on its own line of the concat file, and removed at
    the end together with the concat file; the temporary names are
    pairwise distinct and none is the concat file; the last run, and only
    it, writes [outfile]; nothing is removed before the last run. *)
Theorem tail_cleans_up (os : os_path) (ffmpeg_path : option string) (quiet : bool)
        (audio_file outfile : string) (codec_args : list string)
        (cut_ts_s cut_ts_e : list string) :
  List.length cut_ts_s <> 1%nat ->
  exists work temps,
    eztrim_tail os ffmpeg_path quiet audio_file outfile codec_args false
                cut_ts_s cut_ts_e
    = Tail_script (work ++ map Remove (concat_txt :: temps))
    /\ List.length temps = Nat.min (List.length cut_ts_s) (List.length cut_ts_e)
    /\ NoDup (concat_txt :: temps)
    /\ run_outputs work = (temps ++ [outfile])%list
    /\ removed_files work = []
    /\ written_lines work = map concat_line temps
    /\ hd_error work = Some (Open_w concat_txt).
Proof.
  intros Hlen. unfold eztrim_tail. cbv zeta.
  replace (len cut_ts_s =? 1)%Z with false
    by (symmetry; apply Z.eqb_neq; unfold len; lia).
  set (silence := ffmpeg_silence ffmpeg_path quiet).
  set (ext := snd (splitext os outfile)).
  pose proof (cut_loop_spec silence audio_file codec_args ext
                            (combine cut_ts_s cut_ts_e) 0 ltac:(lia)) as Hspec.
  cbv zeta in Hspec.
  destruct (cut_loop silence audio_file codec_args ext 0 (combine cut_ts_s cut_ts_e))
    as [acts temps]. cbn [fst snd] in Hspec.
  destruct Hspec as (Ht & Ho & Hr & Hw & Hall & Hnd).
  exists ([Open_w concat_txt] ++ acts
          ++ [Close;
              Run (silence ++ ["-f"; "concat"; "-i"; concat_txt; "-c"; "copy"; outfile])])%list,
         temps.
  split; [| split; [| split; [| split; [| split; [| split]]]]].
  - cbn [map]. rewrite <- !app_assoc. cbn [app]. reflexivity.
  - rewrite Ht, length_map, length_seq. apply length_combine.
  - constructor; [| exact Hnd]. intros Hin. rewrite Forall_forall in Hall.
    destruct (Hall _ Hin) as (k & _ & Heq). symmetry in Heq.
    now apply temp_name_not_concat in Heq.
  - rewrite !run_outputs_app, Ho. cbn [run_outputs flat_map app].
    do 2 f_equal.
    replace (silence ++ ["-f"; "concat"; "-i"; concat_txt; "-c"; "copy"; outfile])%list
      with ((silence ++ ["-f"; "concat"; "-i"; concat_txt; "-c"; "copy"]) ++ [outfile])%list
      by (rewrite <- app_assoc; reflexivity).
    apply last_last.
  - rewrite !removed_files_app, Hr. reflexivity.
  - rewrite !written_lines_app, Hw. cbn [written_lines flat_map app].
    apply app_nil_r.
  - reflexivity.
Qed.

Lemma tail_cleans_up_witness :
  exists work temps,
    eztrim_tail posixpath (Some "ffmpeg") true "in.wav" "out.wav" [] false
                ["00:00:00.000"; "00:00:02.000"] ["00:00:01.000"; "00:00:03.000"]
    = Tail_script (work ++ map Remove (concat_txt :: temps))
    /\ List.length temps = 2%nat
    /\ run_outputs work = (temps ++ ["out.wav"])%list.
Proof.
  destruct (tail_cleans_up posixpath (Some "ffmpeg") true "in.wav" "out.wav" []
              ["00:00:00.000"; "00:00:02.000"] ["00:00:01.000"; "00:00:03.000"])
    as (work & temps & Heq & Hl & _ & Ho & _); [cbn; lia |].
  exists work, temps. split; [exact Heq | split; [exact Hl | exact Ho]].
Defined.

(** X22: how the tail ends.  With exactly one cut there is one ffmpeg
    run, writing [outfile], and no file is created, checked or removed,
    also when a concat file exists.  Otherwise an existing concat file
    stops the tail before anything is run; without one there is one run
    per pair of timestamps and a final run that writes [outfile].  The
    interpreter raises (IndexError) only for one start without an end,
    never on lists of equal lengths. *)
Theorem tail_outcomes (os : os_path) (ffmpeg_path : option string) (quiet : bool)
        (audio_file outfile : string) (codec_args : list string)
        (concat_exists : bool) (cut_ts_s cut_ts_e : list string) :
  match eztrim_tail os ffmpeg_path quiet audio_file outfile codec_args concat_exists
                    cut_ts_s cut_ts_e with
  | Tail_raises e =>
      e = Builtin PyIndexError /\ List.length cut_ts_s = 1%nat /\ cut_ts_e = []
  | Tail_concat_exists => concat_exists = true /\ List.length cut_ts_s <> 1%nat
  | Tail_script acts =>
      last (run_outputs acts) "" = outfile
      /\ (List.length cut_ts_s = 1%nat ->
          exists args, acts = [Run args] /\ In (hd "" cut_ts_s) args)
      /\ (List.length cut_ts_s <> 1%nat ->
          concat_exists = false
          /\ List.length (run_outputs acts)
             = S (Nat.min (List.length cut_ts_s) (List.length cut_ts_e)))
  end.
Proof.
  unfold eztrim_tail. cbv zeta.
  destruct (Z.eqb_spec (len cut_ts_s) 1) as [H1 | H1].
  - assert (Hlen : List.length cut_ts_s = 1%nat) by (unfold len in H1; lia).
    destruct cut_ts_s as [| s [| s' rest]]; try discriminate.
    change (getitem [s] 0) with (Ok s). cbv iota beta.
    destruct cut_ts_e as [| e rest].
    + change (getitem (@nil string) 0) with (@Raise string (Builtin PyIndexError)).
      cbv iota. auto.
    + change (getitem (e :: rest) 0) with (Ok e). cbv iota beta.
      split; [| split].
      * cbn [run_outputs flat_map app]. apply last_cut_args.
      * intros _. eexists. split; [reflexivity |].
        unfold cut_args. cbn [hd]. rewrite in_app_iff. right. cbn. tauto.
      * intros H. contradiction.
  - assert (Hlen : List.length cut_ts_s <> 1%nat) by (unfold len in H1; lia).
    destruct concat_exists; [split; [reflexivity | exact Hlen] |].
    destruct (tail_cleans_up_aux (ffmpeg_silence ffmpeg_path quiet) audio_file outfile
                codec_args (snd (splitext os outfile)) cut_ts_s cut_ts_e)
      as (Ho & Hn).
    destruct (cut_loop _ _ _ _ 0 (combine cut_ts_s cut_ts_e)) as [acts temps].
    cbn [fst snd] in Ho, Hn.
    split; [| split].
    + rewrite !run_outputs_app, run_outputs_Remove.
      cbn [run_outputs flat_map app]. rewrite last_last.
      replace (ffmpeg_silence ffmpeg_path quiet
                 ++ ["-f"; "concat"; "-i"; concat_txt; "-c"; "copy"; outfile])%list
        with ((ffmpeg_silence ffmpeg_path quiet
                 ++ ["-f"; "concat"; "-i"; concat_txt; "-c"; "copy"]) ++ [outfile])%list
        by (rewrite <- app_assoc; reflexivity).
      apply last_last.
    + intros H. contradiction.
    + intros _. split; [reflexivity |].
      rewrite !run_outputs_app, run_outputs_Remove.
      cbn [run_outputs flat_map app]. rewrite length_app, Ho, Hn.
      cbn [List.length]. lia.
Qed.

Close Scope string_scope.

(** ** From the trims to the ffmpeg runs *)

(** The timestamps of a debug-mode result: one start and one end for a
    single trim; for a list, as many of each as trims, and never just
    one. *)
Lemma eztrim_debug_lengths (clip : VideoNode) (trims : trims_arg)
      (timecodes_file : option timecodes_lines) (w : world) (d : debug_dict) :
  snd (eztrim_debug clip trims timecodes_file w) = Ok (Some d) ->
  match d_s_e d with
  | Out_ints _ _ =>
      List.length (d_cut_ts_s d) = 1%nat /\ List.length (d_cut_ts_e d) = 1%nat
  | Out_lists starts _ =>
      List.length (d_cut_ts_s d) = List.length starts
      /\ List.length (d_cut_ts_e d) = List.length starts
      /\ List.length starts <> 1%nat
  end.
Proof.
  destruct (eztrim_debug clip trims timecodes_file w) as [w' r] eqn:Hcall.
  cbn [snd]. intros ->. unfold eztrim_debug, eztrim in Hcall.
  apply bind_Ok in Hcall as (w0 & env & [= <- <-] & Hcall).
  apply bind_Ok in Hcall as (w1 & t1 & Ht & Hcall).
  apply bind_Ok in Hcall as (w2 & t2 & Ha & Hcall).
  apply bind_Ok in Hcall as (w3 & [[r cs] ce] & Hcut & [= <- <-]).
  destruct (check_arity_spec _ _ _ _ Ha) as [-> [[= ->] | ?]]; [| discriminate].
  apply check_trims_Ok in Ht. apply cut_timestamps_Ok in Hcut.
  cbn [d_s_e d_cut_ts_s d_cut_ts_e].
  destruct t1 as [t | l'].
  - destruct Hcut as (s & e & -> & _ & _ & Hcs & Hce). auto.
  - destruct Hcut as (ss & es & -> & Hn & _ & Hcs & Hce).
    destruct Ht as (l & -> & Hl & Hm).
    apply map_result_length in Hm.
    apply normalize_batch_Ok in Hn as (Hlen & _ & _ & Ess & Ees).
    assert (Lss : List.length ss = List.length l) by now rewrite Ess, !length_map.
    assert (Les : List.length es = List.length l)
      by now rewrite Ees, !length_map, <- Hm, <- (length_map snd), <- Hlen, length_map.
    repeat split; congruence.
Qed.

(** X23: from the trims to the ffmpeg runs.  On the timestamps that the
    trimming computation returns the tail never raises by itself: a single
    trim gives one ffmpeg run and touches no other file; a list of n trims
    (n is never 1 there) gives n + 1 runs and n + 1 removals, unless a
    concat file exists, which stops it before the first run. *)
Theorem eztrim_ffmpeg_runs (os : os_path) (ffmpeg_path : option string) (quiet : bool)
        (audio_file outfile : string) (codec_args : list string)
        (concat_exists : bool)
        (clip : VideoNode) (trims : trims_arg)
        (timecodes_file : option timecodes_lines) (w : world) (d : debug_dict) :
  snd (eztrim_debug clip trims timecodes_file w) = Ok (Some d) ->
  match eztrim_tail os ffmpeg_path quiet audio_file outfile codec_args concat_exists
                    (d_cut_ts_s d) (d_cut_ts_e d) with
  | Tail_raises _ => False
  | Tail_concat_exists =>
      concat_exists = true /\ exists starts ends, d_s_e d = Out_lists starts ends
  | Tail_script acts =>
      match d_s_e d with
      | Out_ints _ _ =>
          List.length (run_outputs acts) = 1%nat
          /\ removed_files acts = [] /\ written_lines acts = []
      | Out_lists starts _ =>
          concat_exists = false
          /\ List.length (run_outputs acts) = S (List.length starts)
          /\ List.length (removed_files acts) = S (List.length starts)
          /\ List.length (written_lines acts) = List.length starts
      end
  end.
Proof.
  intros Hd%eztrim_debug_lengths. unfold eztrim_tail. cbv zeta.
  destruct (d_s_e d) as [s e | starts ends].
  - destruct Hd as [Hs He].
    destruct (d_cut_ts_s d) as [| ts_s [| x l]]; try discriminate.
    destruct (d_cut_ts_e d) as [| ts_e [| x l]]; try discriminate.
    change (len [ts_s] =? 1) with true. cbv iota.
    change (getitem [ts_s] 0) with (Ok ts_s). change (getitem [ts_e] 0) with (Ok ts_e).
    cbv iota beta. repeat split.
  - destruct Hd as (Hs & He & Hne).
    replace (len (d_cut_ts_s d) =? 1) with false
      by (symmetry; apply Z.eqb_neq; unfold len; lia).
    destruct concat_exists; [split; [reflexivity | eauto] |].
    destruct (cut_loop_spec (ffmpeg_silence ffmpeg_path quiet) audio_file codec_args
                (snd (splitext os outfile))
                (combine (d_cut_ts_s d) (d_cut_ts_e d)) 0 ltac:(lia))
      as (Ht & Ho & Hr & Hw & _).
    destruct (cut_loop _ _ _ _ 0 (combine (d_cut_ts_s d) (d_cut_ts_e d)))
      as [acts temps]. cbn [fst snd] in *.
    assert (Hn : List.length temps = List.length starts).
    { rewrite Ht, length_map, length_seq, length_combine. lia. }
    split; [reflexivity |].
    rewrite !run_outputs_app, !removed_files_app, !written_lines_app.
    rewrite run_outputs_Remove, removed_files_Remove, written_lines_Remove.
    rewrite Ho, Hr, Hw.
    cbn [run_outputs removed_files written_lines flat_map app].
    rewrite !length_app, !length_map. cbn [List.length].
    repeat split; lia.
Qed.

Lemma eztrim_ffmpeg_runs_witness :
  match eztrim_tail posixpath None false "a.flac"%string "a_cut.flac"%string [] false
                    ["00:00:00.125"%string] ["00:00:00.918"%string] with
  | Tail_script acts => List.length (run_outputs acts) = 1%nat
  | _ => False
  end.
Proof.
  pose proof (eztrim_ffmpeg_runs posixpath None false "a.flac"%string "a_cut.flac"%string
                [] false ntsc_clip (T_tuple [E_int (Some 3); E_int (Some 22)]) None
                empty_world
                {| d_s_e := Out_ints 3 22;
                   d_cut_ts_s := ["00:00:00.125"%string];
                   d_cut_ts_e := ["00:00:00.918"%string] |}
                ltac:(vm_compute; reflexivity)) as H.
  cbn [d_cut_ts_s d_cut_ts_e d_s_e] in H.
  destruct (eztrim_tail _ _ _ _ _ _ _ _ _);
    [exact H | destruct H as [H _]; discriminate | exact (proj1 H)].
Defined.

(** ** The shape of a timestamp *)

Lemma zeros_length (n : nat) : String.length (zeros n) = n.
Proof. induction n as [| n IH]; cbn; [reflexivity | now rewrite IH]. Qed.

Lemma zfill_length (width : nat) (s : string) :
  String.length (zfill width s) = Nat.max width (String.length s).
Proof. unfold zfill. rewrite string_length_append, zeros_length. lia. Qed.

Lemma pad_signed_length (neg : bool) (width : nat) (body : string) :
  (width <= String.length (pad_signed neg width body))%nat.
Proof.
  unfold pad_signed. destruct neg.
  - rewrite string_length_append, zfill_length. cbn [String.length]. lia.
  - rewrite zfill_length. lia.
Qed.

Lemma format_d_length (width : nat) (n : Z) :
  (width <= String.length (format_d width n))%nat.
Proof. apply pad_signed_length. Qed.

Lemma format_f_length (width precision : nat) (x : float) :
  (width <= String.length (format_f width precision x))%nat.
Proof.
  unfold format_f. destruct x; try apply pad_signed_length.
  rewrite zfill_length. lia.
Qed.

(** X24: a timestamp is never narrower than its pattern: at least
    HH:MM:SS at precision 0 and HH:MM:SS followed by a point and
    [precision] digits otherwise, every field being padded with zeros. *)
Theorem timestamp_width (f precision : Z) (timecodes_file : option timecodes_lines)
        (src_clip : VideoNode) (w : world) (ts : string) :
  snd (f2ts f precision timecodes_file src_clip w) = Ok ts ->
  In precision [0; 3; 6; 9]
  /\ 8 + (if precision =? 0 then 0 else precision + 1) <= Z.of_nat (String.length ts).
Proof.
  unfold f2ts.
  destruct (existsb (Z.eqb precision) [0; 3; 6; 9]) eqn:Hp; cbn [negb];
    [| discriminate].
  apply precision_test in Hp. intros H. split; [exact Hp |].
  unfold bind, lift in H.
  destruct (frame_seconds f timecodes_file src_clip w) as [w1 [s | e]];
    cbn [snd] in H; [| discriminate].
  destruct (split_hms s) as [[[h m] s'] | e]; cbn [rbind] in H; [| discriminate].
  pose proof (format_f_length 2 0 h) as Lh.
  pose proof (format_f_length 2 0 m) as Lm.
  unfold format_timestamp in H.
  cbv zeta in H.
  destruct Hp as [<- | [<- | [<- | [<- | []]]]]; cbn [Z.eqb] in H |- *.
  - destruct (round_float s') as [r | e]; cbn [rbind] in H; [| discriminate].
    injection H as <-. pose proof (format_d_length 2 r).
    repeat (rewrite ?string_length_append; cbn [String.length String.append]). lia.
  - injection H as <-. pose proof (format_f_length 6 3 s').
    repeat (rewrite ?string_length_append; cbn [String.length String.append]). lia.
  - injection H as <-. pose proof (format_f_length 9 6 s').
    repeat (rewrite ?string_length_append; cbn [String.length String.append]). lia.
  - injection H as <-. pose proof (format_f_length 12 9 s').
    repeat (rewrite ?string_length_append; cbn [String.length String.append]). lia.
Qed.

Lemma timestamp_width_witness :
  8 + 4 <= Z.of_nat (String.length "01:09:30.833").
Proof.
  apply (timestamp_width 100000 3 None ntsc_clip empty_world "01:09:30.833").
  vm_compute. reflexivity.
Defined.
